(** * Profile README updater: date chunking, aggregation, rendering, publishing

    A shallow embedding of [scripts/update-readme/helpers.js] and of the
    renderer and the elapsed-time text of the older, self-contained script
    ([scripts/update-readme/index.js]), together with the part of the
    JavaScript runtime they rely on ([Date], [String.prototype.replace],
    [String.prototype.trim], [Buffer] base64) and an explicit model of the
    remote service reached through octokit.

    Conventions.
    - A JavaScript number is an integer or [NaN]: [number := option Z], with
      [None] for [NaN].  A [Date] object is identified with its time value, so
      an invalid date is [None].
    - A JavaScript string is a [string]; one character stands for one code
      unit, so the model covers text whose code units are below 256.
    - [console.log] output is not part of the model.
    - The system clock read by [new Date()] is the explicit argument [now];
      the offset of local time from UTC is the explicit argument [tza]. *)

From Stdlib Require Import ZArith Lia String Ascii List Bool Sorted.
From stdpp Require Import gmap strings list pretty.

Local Open Scope string_scope.
Local Open Scope list_scope.
Local Open Scope Z_scope.

(** ** Completions *)

(** What can be thrown: the runtime's own errors and whatever a remote call
    rejects with (octokit raises a request error carrying the HTTP status). *)
Inductive error : Type :=
| RangeError (msg : string)
| TypeError (msg : string)
| HttpError (status : Z) (msg : string)
| SystemError (code : string).

(** The result of running a piece of code: a value, a thrown error, or the
    model's loop budget running out (which the theorems rule out). *)
Inductive outcome (A : Type) : Type :=
| Ok (a : A)
| Throw (e : error)
| OutOfFuel.
Arguments Ok {A} a.
Arguments Throw {A} e.
Arguments OutOfFuel {A}.

#[global] Instance outcome_ret : MRet outcome := fun A a => Ok a.

#[global] Instance outcome_bind : MBind outcome := fun A B k o =>
  match o with
  | Ok a => k a
  | Throw e => Throw e
  | OutOfFuel => OutOfFuel
  end.

Definition number : Type := option Z.

Definition num_add (a b : number) : number :=
  match a, b with
  | Some x, Some y => Some (x + y)
  | _, _ => None
  end.

(** ** The ECMAScript date algorithms *)

Module JSDate.

Definition msPerDay : Z := 86400000.
Definition msPerHour : Z := 3600000.
Definition msPerMinute : Z := 60000.
Definition msPerSecond : Z := 1000.
Definition maxTime : Z := 8640000000000000.

Definition Day (t : Z) : Z := t / msPerDay.
Definition TimeWithinDay (t : Z) : Z := t mod msPerDay.

Definition isLeap (y : Z) : bool :=
  ((y mod 4 =? 0) && negb (y mod 100 =? 0)) || (y mod 400 =? 0).

Definition DaysInYear (y : Z) : Z := if isLeap y then 366 else 365.

Definition DayFromYear (y : Z) : Z :=
  365 * (y - 1970) + (y - 1969) / 4 - (y - 1901) / 100 + (y - 1601) / 400.

Definition TimeFromYear (y : Z) : Z := msPerDay * DayFromYear y.

(** The largest year whose first day is not after day [d]: an estimate from
    the mean year length, corrected by at most one ([YearFromDay_spec]). *)
Definition YearFromDay (d : Z) : Z :=
  let y := 1970 + (400 * d) / 146097 in
  if d <? DayFromYear y then y - 1
  else if DayFromYear (y + 1) <=? d then y + 1
  else y.

Definition YearFromTime (t : Z) : Z := YearFromDay (Day t).

Definition InLeapYear (t : Z) : Z := if isLeap (YearFromTime t) then 1 else 0.

Definition DayWithinYear (t : Z) : Z := Day t - DayFromYear (YearFromTime t).

Definition MonthFromTime (t : Z) : Z :=
  let d := DayWithinYear t in
  let L := InLeapYear t in
  if d <? 31 then 0
  else if d <? 59 + L then 1
  else if d <? 90 + L then 2
  else if d <? 120 + L then 3
  else if d <? 151 + L then 4
  else if d <? 181 + L then 5
  else if d <? 212 + L then 6
  else if d <? 243 + L then 7
  else if d <? 273 + L then 8
  else if d <? 304 + L then 9
  else if d <? 334 + L then 10
  else 11.

(** Day number within its year of the first day of month [mn] (0..11). *)
Definition monthStart (leap : bool) (mn : Z) : Z :=
  let L := if leap then 1 else 0 in
  if mn =? 0 then 0
  else if mn =? 1 then 31
  else if mn =? 2 then 59 + L
  else if mn =? 3 then 90 + L
  else if mn =? 4 then 120 + L
  else if mn =? 5 then 151 + L
  else if mn =? 6 then 181 + L
  else if mn =? 7 then 212 + L
  else if mn =? 8 then 243 + L
  else if mn =? 9 then 273 + L
  else if mn =? 10 then 304 + L
  else 334 + L.

Definition DateFromTime (t : Z) : Z :=
  DayWithinYear t - monthStart (isLeap (YearFromTime t)) (MonthFromTime t) + 1.

Definition HourFromTime (t : Z) : Z := (t / msPerHour) mod 24.
Definition MinFromTime (t : Z) : Z := (t / msPerMinute) mod 60.
Definition SecFromTime (t : Z) : Z := (t / msPerSecond) mod 60.
Definition msFromTime (t : Z) : Z := t mod msPerSecond.

(** [MakeDay]: the month may lie outside 0..11 and carries into the year. *)
Definition MakeDay (year month date : Z) : Z :=
  let ym := year + month / 12 in
  let mn := month mod 12 in
  DayFromYear ym + monthStart (isLeap ym) mn + date - 1.

Definition MakeTime (hour min sec ms : Z) : Z :=
  hour * msPerHour + min * msPerMinute + sec * msPerSecond + ms.

Definition MakeDate (day time : Z) : Z := day * msPerDay + time.

Definition TimeClip (t : Z) : number :=
  if Z.abs t <=? maxTime then Some t else None.

(** [Date.UTC] reads a year from 0 to 99 as 1900 + year. *)
Definition MakeFullYear (y : Z) : Z :=
  if (0 <=? y) && (y <=? 99) then 1900 + y else y.

(** [Date.UTC(year, month, date)]; the time of day is left at its default. *)
Definition UTC (year month date : number) : number :=
  match year, month, date with
  | Some y, Some m, Some dt =>
      TimeClip (MakeDate (MakeDay (MakeFullYear y) m dt) (MakeTime 0 0 0 0))
  | _, _, _ => None
  end.

Definition getUTCFullYear (d : number) : number := option_map YearFromTime d.
Definition getUTCMonth (d : number) : number := option_map MonthFromTime d.

(** [getFullYear] and [getMonth] read the local time, [tza] milliseconds
    ahead of UTC. *)
Definition getFullYear (tza : Z) (d : number) : number :=
  option_map (fun t => YearFromTime (t + tza)) d.
Definition getMonth (tza : Z) (d : number) : number :=
  option_map (fun t => MonthFromTime (t + tza)) d.

(** Decimal digits, zero padded to [width]; the numbers printed below fit. *)
Definition digit (n : Z) : ascii := ascii_of_nat (48 + Z.to_nat (n mod 10)).

Fixpoint padDigits (width : nat) (n : Z) : string :=
  match width with
  | O => ""
  | S w => padDigits w (n / 10) +:+ String (digit n) ""
  end.

Definition yearString (y : Z) : string :=
  if (0 <=? y) && (y <=? 9999) then padDigits 4 y
  else if y <? 0 then "-" +:+ padDigits 6 (- y)
  else "+" +:+ padDigits 6 y.

Definition isoString (t : Z) : string :=
  yearString (YearFromTime t) +:+ "-" +:+ padDigits 2 (MonthFromTime t + 1)
    +:+ "-" +:+ padDigits 2 (DateFromTime t)
    +:+ "T" +:+ padDigits 2 (HourFromTime t)
    +:+ ":" +:+ padDigits 2 (MinFromTime t)
    +:+ ":" +:+ padDigits 2 (SecFromTime t)
    +:+ "." +:+ padDigits 3 (msFromTime t) +:+ "Z".

(** [toISOString] throws on an invalid date. *)
Definition toISOString (d : number) : outcome string :=
  match d with
  | Some t => Ok (isoString t)
  | None => Throw (RangeError "Invalid time value")
  end.

End JSDate.

(** date-fns [isBefore]: a comparison of time values, false on [NaN]. *)
Definition isBefore (date dateToCompare : number) : bool :=
  match date, dateToCompare with
  | Some a, Some b => a <? b
  | _, _ => false
  end.

(** ** helpers.js: [calculateDateRanges] *)

Record dateRange : Type := { from : string; to : string }.

(** A budget that the loops below never use up
    ([calculateDateRanges_terminates]): every pass moves [current] to the
    midnight of a later day, and stops once [current] reaches [now]. *)
Definition loopBudget (now : Z) (current : number) : nat :=
  match current with
  | Some c => Z.to_nat (JSDate.Day now + 1 - JSDate.Day c)
  | None => O
  end.

Fixpoint monthLoop (fuel : nat) (now : Z) (current : number)
    (ranges : list dateRange) : outcome (list dateRange) :=
  if isBefore current (Some now) then
    match fuel with
    | O => OutOfFuel
    | S fuel' =>
        let next := JSDate.UTC (JSDate.getUTCFullYear current)
                      (num_add (JSDate.getUTCMonth current) (Some 1)) (Some 1) in
        f ← JSDate.toISOString current;
        t ← JSDate.toISOString next;
        monthLoop fuel' now next (ranges ++ [{| from := f; to := t |}])
    end
  else Ok ranges.

Fixpoint yearLoop (fuel : nat) (now : Z) (current : number)
    (ranges : list dateRange) : outcome (list dateRange) :=
  if isBefore current (Some now) then
    match fuel with
    | O => OutOfFuel
    | S fuel' =>
        let next := JSDate.UTC (num_add (JSDate.getUTCFullYear current) (Some 1))
                      (Some 0) (Some 1) in
        f ← JSDate.toISOString current;
        t ← JSDate.toISOString next;
        yearLoop fuel' now next (ranges ++ [{| from := f; to := t |}])
    end
  else Ok ranges.

Definition calculateDateRanges (now : Z) (chunk : string)
    (fromYear fromMonth : number) : outcome (list dateRange) :=
  let ranges := [] in
  ranges ←
    (if String.eqb chunk "month" then
       let current := JSDate.UTC fromYear fromMonth (Some 1) in
       monthLoop (loopBudget now current) now current ranges
     else Ok ranges);
  ranges ←
    (if String.eqb chunk "year" then
       let current := JSDate.UTC fromYear (Some 0) (Some 1) in
       yearLoop (loopBudget now current) now current ranges
     else Ok ranges);
  Ok ranges.

(** ** The string operations of the renderer *)

Definition LF : ascii := ascii_of_nat 10.
Definition CR : ascii := ascii_of_nat 13.

(** What the pattern's [.] refuses: the line terminators. *)
Definition isLineTerminator (c : ascii) : bool :=
  Ascii.eqb c LF || Ascii.eqb c CR.

(** What [trim] strips: white space and line terminators. *)
Definition isWhiteSpace (c : ascii) : bool :=
  let n := nat_of_ascii c in
  (Nat.eqb n 9 || Nat.eqb n 10 || Nat.eqb n 11 || Nat.eqb n 12
   || Nat.eqb n 13 || Nat.eqb n 32 || Nat.eqb n 160)%bool.

Fixpoint trimStart (s : string) : string :=
  match s with
  | String c s' => if isWhiteSpace c then trimStart s' else s
  | EmptyString => EmptyString
  end.

Fixpoint trimEnd (s : string) : string :=
  match s with
  | EmptyString => EmptyString
  | String c s' =>
      match trimEnd s' with
      | EmptyString => if isWhiteSpace c then EmptyString else String c EmptyString
      | r => String c r
      end
  end.

Definition trim (s : string) : string := trimEnd (trimStart s).

Fixpoint repeat_string (s : string) (n : nat) : string :=
  match n with
  | O => ""
  | S n' => s +:+ repeat_string s n'
  end.

Definition strlen (s : string) : Z := Z.of_nat (String.length s).

(** The pattern [/{{(.*?)}}/] tried just after an opening [{{]: the shortest
    run of characters other than line terminators that is followed by [}}].
    Returns the captured key. *)
Fixpoint lazyKey (s : string) : option string :=
  match s with
  | EmptyString => None
  | String c s' =>
      match s' with
      | String c' _ =>
          if Ascii.eqb c "}" && Ascii.eqb c' "}" then Some EmptyString
          else if isLineTerminator c then None
          else option_map (String c) (lazyKey s')
      | EmptyString => None
      end
  end.

(** The pattern tried at the start of [s]. *)
Definition matchAt (s : string) : option string :=
  match s with
  | String c1 (String c2 rest) =>
      if Ascii.eqb c1 "{" && Ascii.eqb c2 "{" then lazyKey rest else None
  | _ => None
  end.

(** A subject string cut up by the global pattern: the matches, each with
    its captured group, and the characters outside any match. *)
Inductive piece : Type :=
| Literal (c : ascii)
| Placeholder (key : string).

(** Left-to-right search: at each position either a match starts, and the
    search resumes after it ([skip] counts the characters of the match still
    to pass over), or the character is kept. *)
Fixpoint scanFrom (skip : nat) (s : string) : list piece :=
  match s with
  | EmptyString => []
  | String c s' =>
      match skip with
      | S k => scanFrom k s'
      | O =>
          match matchAt s with
          | Some key => Placeholder key :: scanFrom (String.length key + 3) s'
          | None => Literal c :: scanFrom 0 s'
          end
      end
  end.

Definition scan (s : string) : list piece := scanFrom 0 s.

Definition substitute (callback : string -> string) (p : piece) : string :=
  match p with
  | Literal c => String c EmptyString
  | Placeholder key => callback key
  end.

Fixpoint join (l : list string) : string :=
  match l with
  | [] => ""
  | x :: l' => x +:+ join l'
  end.

(** [subject.replace(/{{(.*?)}}/g, (_, key) => callback(key))] *)
Definition replacePlaceholders (callback : string -> string) (subject : string) : string :=
  join (map (substitute callback) (scan subject)).

(** ** helpers.js: [generatePopulatedTemplate] *)

(** The files the scripts read, by path. *)
Definition readFile (fs : gmap string string) (path : string) : outcome string :=
  match fs !! path with
  | Some text => Ok text
  | None => Throw (SystemError "ENOENT")
  end.

(** What [stats[name]] can give.  [stats] is a plain object: its own
    properties hold strings (the scripts build it from strings), and a name
    it does not have itself is looked up in [Object.prototype], whose
    properties are built-in functions and the accessor [__proto__]. *)
Inductive jsValue : Type :=
| VString (s : string)
| VFunction (name : string) (arity : Z)   (* a built-in function *)
| VObjectPrototype.                       (* [Object.prototype] itself *)

(** The properties of [Object.prototype] (ECMA-262, 20.1.3 and B.2.2); each
    function with its [length].  Reading [__proto__] of a plain object
    gives [Object.prototype]. *)
Definition objectPrototype : list (string * jsValue) :=
  [ ("constructor", VFunction "Object" 1);
    ("hasOwnProperty", VFunction "hasOwnProperty" 1);
    ("isPrototypeOf", VFunction "isPrototypeOf" 1);
    ("propertyIsEnumerable", VFunction "propertyIsEnumerable" 1);
    ("toLocaleString", VFunction "toLocaleString" 0);
    ("toString", VFunction "toString" 0);
    ("valueOf", VFunction "valueOf" 0);
    ("__defineGetter__", VFunction "__defineGetter__" 2);
    ("__defineSetter__", VFunction "__defineSetter__" 2);
    ("__lookupGetter__", VFunction "__lookupGetter__" 1);
    ("__lookupSetter__", VFunction "__lookupSetter__" 1);
    ("__proto__", VObjectPrototype) ].

Fixpoint propertyIn (name : string) (properties : list (string * jsValue))
    : option jsValue :=
  match properties with
  | [] => None
  | (n, v) :: rest => if String.eqb name n then Some v else propertyIn name rest
  end.

Definition inherited (name : string) : option jsValue :=
  propertyIn name objectPrototype.

(** [stats[name]]: an own property first, then the prototype; [None] is
    [undefined]. *)
Definition getProperty (stats : gmap string string) (name : string) : option jsValue :=
  match stats !! name with
  | Some value => Some (VString value)
  | None => inherited name
  end.

(** [stats[key.trim()] ?? "N/A"] *)
Definition lookupValue (stats : gmap string string) (key : string) : jsValue :=
  match getProperty stats (trim key) with
  | Some value => value
  | None => VString "N/A"
  end.

(** [value.length]: the characters of a string, the parameters of a
    function; [Object.prototype] has none, and [undefined] in the
    subtraction gives [NaN]. *)
Definition lengthOf (value : jsValue) : number :=
  match value with
  | VString s => Some (strlen s)
  | VFunction _ arity => Some arity
  | VObjectPrototype => None
  end.

(** [`${value}`] *)
Definition textOf (value : jsValue) : string :=
  match value with
  | VString s => s
  | VFunction name _ => "function " +:+ name +:+ "() { [native code] }"
  | VObjectPrototype => "[object Object]"
  end.

(** [Math.max(0, 64 - 5 - key.length - value.length)]; [NaN] stays [NaN]. *)
Definition dotCount (key : string) (value : jsValue) : number :=
  option_map (fun length => Z.max 0 (64 - 5 - strlen key - length)) (lengthOf value).

(** [".".repeat(count)] repeats [NaN] times as 0 times. *)
Definition repeatCount (count : number) : nat :=
  match count with
  | Some n => Z.to_nat n
  | None => 0%nat
  end.

(** The callback handed to [replace]: [(_, key) => `${dots} ${value}`]. *)
Definition populate (stats : gmap string string) (key : string) : string :=
  let value := lookupValue stats key in
  let dots := repeat_string "." (repeatCount (dotCount key value)) in
  dots +:+ " " +:+ textOf value.

Definition templatePath : string := "./scripts/update-readme/template.txt".

Definition generatePopulatedTemplate (fs : gmap string string)
    (stats : gmap string string) : outcome string :=
  template ← readFile fs templatePath;
  let populatedTemplate := replacePlaceholders (populate stats) template in
  Ok populatedTemplate.

(** The older script ([index.js]) renders with named constants. *)
Definition CONTENT_WIDTH : Z := 64.
Definition CONTENT_PADDING : Z := 5.

Definition rendered (stats : gmap string string) (template : string) : string :=
  replacePlaceholders (fun key =>
    let value := lookupValue stats key in
    let dots := repeat_string "."
      (repeatCount
         (option_map (fun length =>
                        Z.max 0 (CONTENT_WIDTH - CONTENT_PADDING - strlen key - length))
            (lengthOf value))) in
    dots +:+ " " +:+ textOf value) template.

(** ** index.js: the older script's own [calculateDate]

    The elapsed time is itself read as a date, counted from 1970. *)
Module OlderScript.

(** [`${count}`] of an integer or of NaN. *)
Definition numberToString (n : number) : string :=
  match n with
  | Some z => pretty z
  | None => "NaN"
  end.

Definition getUTCDate (d : number) : number := option_map JSDate.DateFromTime d.

(** [(unit, count) => (count === 1 ? unit : `${count} ${unit}s`)] *)
Definition pluralize (unit : string) (count : number) : string :=
  match count with
  | Some 1 => unit
  | _ => numberToString count +:+ " " +:+ unit +:+ "s"
  end.

Definition calculateDate (now : Z) (since : number) : string :=
  let start := since in
  let elapsed := match start with
                 | Some s => JSDate.TimeClip (now - s)
                 | None => None
                 end in
  let year := option_map (fun y => y - 1970) (JSDate.getUTCFullYear elapsed) in
  let month := JSDate.getUTCMonth elapsed in
  let day := getUTCDate elapsed in
  pluralize "year" year +:+ ", " +:+ pluralize "month" month +:+ ", "
    +:+ pluralize "day" day.

End OlderScript.

(** ** [Buffer.from(text).toString("base64")] *)

(** The UTF-8 bytes of a text of this model, whose code units are all below
    256: one byte for a code unit below 128, two bytes from 128 on.
    [Buffer.from] also encodes the higher code units (three bytes, four for
    a surrogate pair, and EF BF BD for an unpaired surrogate); a text with
    such code units is not a [string] here. *)
Definition utf8 (s : string) : list Z :=
  flat_map (fun c =>
    let n := Z.of_nat (nat_of_ascii c) in
    if n <? 128 then [n] else [192 + n / 64; 128 + n mod 64])
    (list_ascii_of_string s).

Definition base64Alphabet : string :=
  "ABCDEFGHIJKLMNOPQRSTUVWXYZabcdefghijklmnopqrstuvwxyz0123456789+/".

Definition base64Char (n : Z) : string :=
  match String.get (Z.to_nat n) base64Alphabet with
  | Some c => String c EmptyString
  | None => EmptyString
  end.

Fixpoint base64 (bytes : list Z) : string :=
  match bytes with
  | [] => ""
  | [a] => base64Char (a / 4) +:+ base64Char (a mod 4 * 16) +:+ "=="
  | [a; b] =>
      base64Char (a / 4) +:+ base64Char (a mod 4 * 16 + b / 16)
        +:+ base64Char (b mod 16 * 4) +:+ "="
  | a :: b :: c :: rest =>
      base64Char (a / 4) +:+ base64Char (a mod 4 * 16 + b / 16)
        +:+ base64Char (b mod 16 * 4 + c / 64) +:+ base64Char (c mod 64)
        +:+ base64 rest
  end.

(** ** The remote service seen through octokit *)

(** A commit as the search lists it; the scripts read its [url] only. *)
Record commitItem : Type := { url : string }.

Inductive request : Type :=
| GraphQL (login start end_ : string)
    (* octokit(query, { login, start, end }) *)
| SearchCommits (q : string) (per_page : Z)
    (* octokit.paginate(octokit.rest.search.commits, { q, per_page }) *)
| Request (route : string)
    (* octokit.request(route) *)
| GetReadme (owner repo : string)
    (* octokit.rest.repos.getReadme({ owner, repo }) *)
| CreateOrUpdateFileContents (owner repo path message content : string)
    (sha : option string).
    (* octokit.rest.repos.createOrUpdateFileContents({ ... }); [sha] is
       [None] when the script passes [undefined] *)

Inductive response : Type :=
| ContributionsData (totalContributions : Z)
| CommitPages (pages : list (list commitItem))
    (* the pages [paginate] fetched, one page fetch each *)
| CommitData (additions deletions : Z)
| ReadmeData (sha : string)
| FileUpdated.

(** A REST reply is a response object with a [data] field: that of
    [CommitData] holds the [stats] read, that of [ReadmeData] the [sha], that
    of [FileUpdated] neither.  A GraphQL result and the array that [paginate]
    returns have no [data]. *)
Definition hasData (r : response) : bool :=
  match r with
  | CommitData _ _ | ReadmeData _ | FileUpdated => true
  | ContributionsData _ | CommitPages _ => false
  end.

(** [data.sha] of a REST reply; [None] is [undefined]. *)
Definition shaIn (r : response) : option string :=
  match r with
  | ReadmeData sha => Some sha
  | _ => None
  end.

(** How the promise of a remote call settles. *)
Inductive reply : Type :=
| Fulfilled (r : response)
| Rejected (e : error).

Definition entry : Type := request * reply.

(** Page fetches and single fetches a logged call stands for. *)
Definition fetchesOf (e : entry) : nat :=
  match e with
  | (SearchCommits _ _, Fulfilled (CommitPages pages)) => length pages
  | _ => 1%nat
  end.

Definition isSearch (e : entry) : bool :=
  match e.1 with SearchCommits _ _ => true | _ => false end.

Definition isDetail (e : entry) : bool :=
  match e.1 with Request _ => true | _ => false end.

Definition isRejected (e : entry) : bool :=
  match e.2 with Rejected _ => true | Fulfilled _ => false end.

Section Scripts.

(** The service: any state [W], answering one call at a time. *)
Context {W : Type}.
Variable perform : request -> W -> reply * W.

(** What a run has done so far. *)
Record run : Type := {
  world : W;
  log : list entry;     (* the remote calls made, oldest first *)
  slept : Z;            (* milliseconds spent in timers *)
}.

(** A script: it runs from a state of the run to a completion and a state. *)
Definition script (A : Type) : Type := run -> outcome A * run.

#[global] Instance script_ret : MRet script := fun A a st => (Ok a, st).

#[global] Instance script_bind : MBind script := fun A B k m st =>
  match m st with
  | (Ok a, st') => k a st'
  | (Throw e, st') => (Throw e, st')
  | (OutOfFuel, st') => (OutOfFuel, st')
  end.

Definition lift {A : Type} (o : outcome A) : script A := fun st => (o, st).

Definition throw {A : Type} (e : error) : script A := fun st => (Throw e, st).

(** [await] of a remote call: a rejection is thrown at the call site. *)
Definition await (r : request) : script response := fun st =>
  let '(a, w) := perform r (world st) in
  let st' := {| world := w; log := log st ++ [(r, a)]; slept := slept st |} in
  match a with
  | Fulfilled v => (Ok v, st')
  | Rejected e => (Throw e, st')
  end.

(** [await new Promise(resolve => setTimeout(resolve, ms))] *)
Definition sleep (ms : Z) : script unit := fun st =>
  (Ok tt, {| world := world st; log := log st; slept := slept st + ms |}).

(** [for (const x of xs) body], the variables the body assigns passed along. *)
Fixpoint forOf {A B : Type} (xs : list B) (body : A -> B -> script A) (acc : A)
    : script A :=
  match xs with
  | [] => mret acc
  | x :: xs' => acc' ← body acc x; forOf xs' body acc'
  end.

(** Reading a field of a reply of another shape is a [TypeError]. *)
Definition totalContributionsOf (r : response) : script Z :=
  match r with
  | ContributionsData n => mret n
  | _ => throw (TypeError "Cannot read properties of undefined")
  end.

Definition commitsOf (r : response) : script (list commitItem) :=
  match r with
  | CommitPages pages => mret (concat pages)
  | _ => throw (TypeError "commits is not iterable")
  end.

Definition statsOf (r : response) : script (Z * Z) :=
  match r with
  | CommitData a d => mret (a, d)
  | _ => throw (TypeError "Cannot read properties of undefined")
  end.

(** [const { data: { sha: readmeSha } } = reply]: a [data] without [sha]
    gives [undefined]; only a reply without [data] cannot be destructured. *)
Definition shaOf (r : response) : script (option string) :=
  if hasData r then mret (shaIn r)
  else throw (TypeError "Cannot destructure property 'sha' of undefined").

(** ** helpers.js: [fetchContributions]

    [since] is the date [new Date(since)] holds.  The result is
    [{ contributions, fetchContributionsAPICallCount }]. *)
Definition fetchContributions (now tza : Z) (username : string) (since : number)
    : script (Z * Z) :=
  let creationDate := since in
  let creationYear := JSDate.getFullYear tza creationDate in
  yearlyDateRanges ← lift (calculateDateRanges now "year" creationYear (Some 0));
  forOf yearlyDateRanges
    (fun '(contributions, fetchContributionsAPICallCount) date =>
       response ← await (GraphQL username (from date) (to date));
       total ← totalContributionsOf response;
       mret (contributions + total, fetchContributionsAPICallCount + 1))
    (0, 0).

(** ** helpers.js: [fetchLinesOfCode]

    The result is [{ additions, deletions, fetchLinesOfCodeAPICallCount }]. *)
Definition fetchLinesOfCode (now tza : Z) (username : string) (since : number)
    : script (Z * Z * Z) :=
  let startDate := since in
  let startMonth := JSDate.getMonth tza startDate in
  let startYear := JSDate.getFullYear tza startDate in
  monthlyDateRanges ← lift (calculateDateRanges now "month" startYear startMonth);
  forOf monthlyDateRanges
    (fun '(additions, deletions, fetchLinesOfCodeAPICallCount) date =>
       let query := "author:" +:+ username +:+ " committer-date:"
                      +:+ from date +:+ ".." +:+ to date in
       found ← await (SearchCommits query 100);
       commits ← commitsOf found;
       let fetchLinesOfCodeAPICallCount := fetchLinesOfCodeAPICallCount + 1 in
       totals ← forOf commits
         (fun '(additions, deletions, fetchLinesOfCodeAPICallCount) commit =>
            fullCommit ← await (Request ("GET " +:+ url commit));
            '(a, d) ← statsOf fullCommit;
            mret (additions + a, deletions + d, fetchLinesOfCodeAPICallCount + 1))
         (additions, deletions, fetchLinesOfCodeAPICallCount);
       _ ← sleep 2000;
       mret totals)
    (0, 0, 0).

(** ** helpers.js: [commitPopulatedTemplate] *)
Definition commitPopulatedTemplate (username populatedTemplate : string)
    : script Z :=
  let commitPopulatedTemplateAPICallCount := 0 in
  readme ← await (GetReadme username username);
  readmeSha ← shaOf readme;
  let commitPopulatedTemplateAPICallCount := commitPopulatedTemplateAPICallCount + 1 in
  _ ← await (CreateOrUpdateFileContents username username "readme.md"
               "chore: update generated content"
               (base64 (utf8 populatedTemplate)) readmeSha);
  let commitPopulatedTemplateAPICallCount := commitPopulatedTemplateAPICallCount + 1 in
  mret commitPopulatedTemplateAPICallCount.

End Scripts.

Arguments run W : clear implicits.
Arguments script W A : clear implicits.

Definition start {W : Type} (w : W) : run W :=
  {| world := w; log := []; slept := 0 |}.

(** ** Mock services *)

(** A scripted service: the replies are handed out in order, whatever is
    asked; once they run out every call is rejected. *)
Definition scripted (r : request) (replies : list reply) : reply * list reply :=
  match replies with
  | a :: rest => (a, rest)
  | [] => (Rejected (HttpError 404 "Not Found"), [])
  end.

(** The scripted replies of a service that answers GraphQL queries with
    the given totals in turn. *)
Definition mockTotals (totals : list Z) : list reply :=
  map (fun total => Fulfilled (ContributionsData total)) totals.

(** A service whose every commit search finds [pages] and that tells the
    statistics of a commit from the route asked for. *)
Definition commitService (pages : list (list commitItem))
    (details : string -> option (Z * Z)) (r : request) (w : unit) : reply * unit :=
  match r with
  | SearchCommits _ _ => (Fulfilled (CommitPages pages), w)
  | Request route =>
      match details route with
      | Some (a, d) => (Fulfilled (CommitData a d), w)
      | None => (Rejected (HttpError 404 "Not Found"), w)
      end
  | _ => (Rejected (HttpError 404 "Not Found"), w)
  end.

(** [n] commits as a search lists them, numbered from [first]. *)
Definition mockCommits (first n : nat) : list commitItem :=
  map (fun i => {| url := "https://api.github.com/commits/" +:+ pretty i |})
    (seq first n).

(** A document store with optimistic concurrency: a write must name the
    version it replaces.  [others] are the versions other writers will have
    installed, one after each call served. *)
Record document : Type := { version : string; others : list string }.

Definition interfere (d : document) : document :=
  match others d with
  | v :: rest => {| version := v; others := rest |}
  | [] => d
  end.

Definition documentStore (r : request) (d : document) : reply * document :=
  match r with
  | GetReadme _ _ => (Fulfilled (ReadmeData (version d)), interfere d)
  | CreateOrUpdateFileContents _ _ _ _ content (Some sha) =>
      if String.eqb sha (version d)
      then (Fulfilled FileUpdated,
            interfere {| version := "sha-of:" +:+ content; others := others d |})
      else (Rejected (HttpError 409 "readme.md does not match"), interfere d)
  | CreateOrUpdateFileContents _ _ _ _ _ None =>
      (Rejected (HttpError 422 "sha was not supplied"), interfere d)
  | _ => (Rejected (HttpError 404 "Not Found"), interfere d)
  end.

(** * Vocabulary of the statements *)

(** A range as two instants, and the way the chunker writes it down. *)
Definition renderRange (iv : Z * Z) : dateRange :=
  {| from := JSDate.isoString iv.1; to := JSDate.isoString iv.2 |}.

(** The intervals between the consecutive instants of [t :: ts]. *)
Fixpoint intervals (t : Z) (ts : list Z) : list (Z * Z) :=
  match ts with
  | [] => []
  | t' :: ts' => (t, t') :: intervals t' ts'
  end.

Definition rangesFrom (t : Z) (ts : list Z) : list dateRange :=
  map renderRange (intervals t ts).

Definition validTime (t : Z) : Prop := Z.abs t <= JSDate.maxTime.

(** Each interval ends where the next one begins. *)
Definition contiguous (ivs : list (Z * Z)) : Prop :=
  forall i a b, ivs !! i = Some a -> ivs !! S i = Some b -> a.2 = b.1.

(** An interval that comes earlier ends no later than a later one begins. *)
Definition ascending (ivs : list (Z * Z)) : Prop :=
  forall i j a b, (i < j)%nat -> ivs !! i = Some a -> ivs !! j = Some b -> a.2 <= b.1.

(** [ranges[i].to == ranges[i + 1].from], on the strings themselves. *)
Definition contiguousRanges (rs : list dateRange) : Prop :=
  forall i r r', rs !! i = Some r -> rs !! S i = Some r' -> to r = from r'.


(** The instant the chunker starts from. *)
Definition startInstant (chunk : string) (fromYear fromMonth : number) : number :=
  if String.eqb chunk "month" then JSDate.UTC fromYear fromMonth (Some 1)
  else if String.eqb chunk "year" then JSDate.UTC fromYear (Some 0) (Some 1)
  else None.

(** The clock reads a time before the last year a [Date] can hold begins. *)
Definition saneClock (now : Z) : Prop := now <= JSDate.TimeFromYear 275760.

(** Midnight UTC on day 1 of month [m] (counted from 0) of year [y]. *)
Definition firstOfMonth (y m : Z) : Z :=
  JSDate.MakeDate (JSDate.MakeDay y m 1) (JSDate.MakeTime 0 0 0 0).

(** Calendar boundaries: midnight UTC opening a month, or a year. *)
Definition isMonthStart (t : Z) : Prop :=
  exists y m, 0 <= m <= 11 /\ t = firstOfMonth y m.

Definition isYearStart (t : Z) : Prop :=
  exists y, t = JSDate.TimeFromYear y.

(** Where the two loops move [current] to. *)
Definition monthAfter (t : Z) : Z :=
  firstOfMonth (JSDate.MakeFullYear (JSDate.YearFromTime t)) (JSDate.MonthFromTime t + 1).

Definition yearAfter (t : Z) : Z :=
  firstOfMonth (JSDate.MakeFullYear (JSDate.YearFromTime t + 1)) 0.

(** The shape the two loops share, with the computation of [next] left open. *)
Fixpoint chunkLoop (next : number -> number) (fuel : nat) (now : Z)
    (current : number) (ranges : list dateRange) : outcome (list dateRange) :=
  if isBefore current (Some now) then
    match fuel with
    | O => OutOfFuel
    | S fuel' =>
        f ← JSDate.toISOString current;
        t ← JSDate.toISOString (next current);
        chunkLoop next fuel' now (next current) (ranges ++ [{| from := f; to := t |}])
    end
  else Ok ranges.

Definition nextMonth (current : number) : number :=
  JSDate.UTC (JSDate.getUTCFullYear current)
    (num_add (JSDate.getUTCMonth current) (Some 1)) (Some 1).

Definition nextYear (current : number) : number :=
  JSDate.UTC (num_add (JSDate.getUTCFullYear current) (Some 1)) (Some 0) (Some 1).

(** [t :: ts] are the boundaries a loop visits: it leaves each [t] before
    [now] by [step] and stops at the first one that is not before [now]. *)
Fixpoint visits (step : Z -> Z) (now t : Z) (ts : list Z) : Prop :=
  match ts with
  | [] => now <= t
  | t' :: ts' =>
      t < now /\ t' = step t /\ t < t' /\ validTime t' /\ visits step now t' ts'
  end.

Definition sumZ (l : list Z) : Z := foldr Z.add 0 l.

(** The commits a logged search found. *)
Definition commitsFound (e : entry) : nat :=
  match e with
  | (SearchCommits _ _, Fulfilled (CommitPages pages)) => length (concat pages)
  | _ => 0%nat
  end.

Definition countIf (p : entry -> bool) (l : list entry) : nat :=
  length (List.filter p l).

(** The log of one GraphQL query per range, answered by the totals in turn. *)
Definition contributionQueries (username : string) (ranges : list dateRange)
    (totals : list Z) : list entry :=
  zip_with (fun date total =>
              (GraphQL username (from date) (to date),
               Fulfilled (ContributionsData total)))
    ranges totals.

Definition allFulfilled (l : list entry) : Prop :=
  Forall (fun e => isRejected e = false) l.

(** A script stops at the first remote call that is rejected and throws
    what that call was rejected with: in the calls it adds to the log, only
    the last can be a rejection, and then the script throws its error. *)
Definition failsFast {W A : Type} (m : script W A) : Prop :=
  forall st, exists new,
    log (m st).2 = log st ++ new
    /\ match (m st).1 with
       | Throw e =>
           allFulfilled new
           \/ exists pre r, new = pre ++ [(r, Rejected e)] /\ allFulfilled pre
       | _ => allFulfilled new
       end.

(** The same, read off the log: whenever a rejected call is in the log the
    script added, nothing follows it (no retry, no further call) and the
    script completes by throwing that very error (no fallback result). *)
Definition propagatesRejections {W A : Type} (m : script W A) : Prop :=
  forall st pre r e post,
    log (m st).2 = log st ++ pre ++ (r, Rejected e) :: post ->
    post = [] /\ (m st).1 = Throw e.

(** The bodies of the aggregators' loops, by name. *)
Section LoopBodies.

Context {W : Type}.
Variable perform : request -> W -> reply * W.

(** The state of a run after one more call. *)
Definition logged (st : run W) (r : request) (a : reply) (w : W) : run W :=
  {| world := w; log := log st ++ [(r, a)]; slept := slept st |}.

Definition contributionsBody (username : string) : Z * Z -> dateRange -> script W (Z * Z) :=
  fun '(contributions, fetchContributionsAPICallCount) date =>
    response ← await perform (GraphQL username (from date) (to date));
    total ← totalContributionsOf response;
    mret (contributions + total, fetchContributionsAPICallCount + 1).

Definition searchQuery (username : string) (date : dateRange) : string :=
  "author:" +:+ username +:+ " committer-date:" +:+ from date +:+ ".." +:+ to date.

Definition commitBody : Z * Z * Z -> commitItem -> script W (Z * Z * Z) :=
  fun '(additions, deletions, fetchLinesOfCodeAPICallCount) commit =>
    fullCommit ← await perform (Request ("GET " +:+ url commit));
    '(a, d) ← statsOf fullCommit;
    mret (additions + a, deletions + d, fetchLinesOfCodeAPICallCount + 1).

Definition rangeBody (username : string) : Z * Z * Z -> dateRange -> script W (Z * Z * Z) :=
  fun '(additions, deletions, fetchLinesOfCodeAPICallCount) date =>
    let query := searchQuery username date in
    found ← await perform (SearchCommits query 100);
    commits ← commitsOf found;
    let fetchLinesOfCodeAPICallCount := fetchLinesOfCodeAPICallCount + 1 in
    totals ← forOf commits commitBody
                (additions, deletions, fetchLinesOfCodeAPICallCount);
    _ ← sleep 2000;
    mret totals.

End LoopBodies.

(** The rendering of a run of pieces of the template. *)
Definition renderPieces (stats : gmap string string) (ps : list piece) : string :=
  join (map (substitute (populate stats)) ps).

(** The trimmed key is answered by [stats] itself or by nothing at all: it
    is an entry of [stats], or it names no property that objects inherit. *)
Definition plainLookup (stats : gmap string string) (key : string) : Prop :=
  is_Some (stats !! trim key) \/ inherited (trim key) = None.

(** A key the pattern captures whole: no closing brace, no line terminator. *)
Definition plainKey (key : string) : Prop :=
  Forall (fun c => c <> "}"%char /\ isLineTerminator c = false)
    (list_ascii_of_string key).

Definition allWhiteSpace (s : string) : Prop :=
  Forall (fun c => isWhiteSpace c = true) (list_ascii_of_string s).

(** The [k]-th calendar year counted from year [y], and the [k]-th calendar
    month counted from month [m] of year [y], as intervals of instants. *)
Definition yearInterval (y : Z) (k : nat) : Z * Z :=
  (JSDate.TimeFromYear (y + Z.of_nat k), JSDate.TimeFromYear (y + Z.of_nat k + 1)).

Definition monthInterval (y m : Z) (k : nat) : Z * Z :=
  (firstOfMonth y (m + Z.of_nat k), firstOfMonth y (m + Z.of_nat k + 1)).

(** The months elapsed since the start of year 0, and the starts of the
    calendar year and month an instant lies in. *)
Definition monthIndex (t : Z) : Z := 12 * JSDate.YearFromTime t + JSDate.MonthFromTime t.

Definition startOfYearOf (t : Z) : Z := JSDate.TimeFromYear (JSDate.YearFromTime t).

Definition startOfMonthOf (t : Z) : Z :=
  firstOfMonth (JSDate.YearFromTime t) (JSDate.MonthFromTime t).

(** A piece written back the way the template has it. *)
Definition unparse (p : piece) : string :=
  match p with
  | Literal c => String c EmptyString
  | Placeholder key => "{{" +:+ key +:+ "}}"
  end.

Fixpoint dropString (n : nat) (s : string) : string :=
  match n, s with
  | S n', String _ s' => dropString n' s'
  | _, _ => s
  end.

(** Two closing braces in a row somewhere in [s]. *)
Fixpoint hasDoubleClose (s : string) : bool :=
  match s with
  | String c s' =>
      match s' with
      | String c' _ => (Ascii.eqb c "}" && Ascii.eqb c' "}") || hasDoubleClose s'
      | EmptyString => false
      end
  | EmptyString => false
  end.

Definition noLineTerminator (s : string) : Prop :=
  Forall (fun c => isLineTerminator c = false) (list_ascii_of_string s).

(** What one month range was answered: the pages its search found and the
    statistics of the commits fetched one by one. *)
Record monthAnswer : Type := {
  pagesFound : list (list commitItem);
  statsFound : list (Z * Z);
}.

Definition answerComplete (ans : monthAnswer) : Prop :=
  length (statsFound ans) = length (concat (pagesFound ans)).

Definition detailCall (commit : commitItem) (stats : Z * Z) : entry :=
  (Request ("GET " +:+ url commit), Fulfilled (CommitData stats.1 stats.2)).

(** The calls of one month range: its search, then one detail fetch for
    each commit of the pages, in the order found. *)
Definition monthCalls (username : string) (date : dateRange) (ans : monthAnswer)
    : list entry :=
  (SearchCommits (searchQuery username date) 100, Fulfilled (CommitPages (pagesFound ans)))
  :: zip_with detailCall (concat (pagesFound ans)) (statsFound ans).

Definition lineCalls (username : string) (ranges : list dateRange)
    (answers : list monthAnswer) : list entry :=
  concat (zip_with (monthCalls username) ranges answers).

(** A script that spends no time in timers, however it completes. *)
Definition neverSleeps {W A : Type} (m : script W A) : Prop :=
  forall st, slept (m st).2 = slept st.

(** A service that settles every call with a reply of the shape the
    scripts read. *)
Definition answersInShape {W : Type} (perform : request -> W -> reply * W) : Prop :=
  forall r w,
    match r, (perform r w).1 with
    | GraphQL _ _ _, Fulfilled (ContributionsData _) => True
    | SearchCommits _ _, Fulfilled (CommitPages _) => True
    | Request _, Fulfilled (CommitData _ _) => True
    | GetReadme _ _, Fulfilled (ReadmeData _) => True
    | CreateOrUpdateFileContents _ _ _ _ _ _, Fulfilled _ => True
    | _, _ => False
    end.

(** A service in shape: one contribution a year, the same pages for every
    search, the same statistics for every commit. *)
Definition steadyService (pages : list (list commitItem)) (r : request) (w : unit)
    : reply * unit :=
  match r with
  | GraphQL _ _ _ => (Fulfilled (ContributionsData 1), w)
  | SearchCommits _ _ => (Fulfilled (CommitPages pages), w)
  | Request _ => (Fulfilled (CommitData 10 2), w)
  | GetReadme _ _ => (Fulfilled (ReadmeData "abc123"), w)
  | CreateOrUpdateFileContents _ _ _ _ _ _ => (Fulfilled FileUpdated, w)
  end.

(** * Facts about the date algorithms *)

Module JSDateFacts.
Import JSDate.

Ltac zdiv := Z.to_euclidean_division_equations; lia.

Lemma DayFromYear_succ y : DayFromYear (y + 1) = DayFromYear y + DaysInYear y.
Proof.
  unfold DayFromYear, DaysInYear, isLeap.
  destruct (Z.eqb_spec (y mod 4) 0); destruct (Z.eqb_spec (y mod 100) 0);
    destruct (Z.eqb_spec (y mod 400) 0); simpl; zdiv.
Qed.

Lemma DaysInYear_bounds y : 365 <= DaysInYear y <= 366.
Proof. unfold DaysInYear. destruct (isLeap y); lia. Qed.

Lemma DayFromYear_lt y y' : y < y' -> DayFromYear y + 365 * (y' - y) <= DayFromYear y'.
Proof. unfold DayFromYear. intros. zdiv. Qed.

Lemma DayFromYear_mono y y' : y <= y' -> DayFromYear y <= DayFromYear y'.
Proof. unfold DayFromYear. intros. zdiv. Qed.

(** [YearFromDay d] is the year day [d] falls in ... *)
Lemma YearFromDay_spec d :
  DayFromYear (YearFromDay d) <= d < DayFromYear (YearFromDay d + 1).
Proof.
  unfold YearFromDay.
  destruct (Z.ltb_spec d (DayFromYear (1970 + 400 * d / 146097))).
  - split.
    + unfold DayFromYear in *. zdiv.
    + replace (1970 + 400 * d / 146097 - 1 + 1) with (1970 + 400 * d / 146097) by lia.
      lia.
  - destruct (Z.leb_spec (DayFromYear (1970 + 400 * d / 146097 + 1)) d).
    + split; [lia|]. unfold DayFromYear in *. zdiv.
    + lia.
Qed.

(** ... and no other year does: it is the largest year starting by day [d]. *)
Lemma YearFromDay_unique d y :
  DayFromYear y <= d < DayFromYear (y + 1) -> YearFromDay d = y.
Proof.
  intros Hy. pose proof (YearFromDay_spec d) as Hs.
  destruct (Z.lt_trichotomy (YearFromDay d) y) as [Hlt | [Heq | Hgt]]; [|done|].
  - pose proof (DayFromYear_mono (YearFromDay d + 1) y). lia.
  - pose proof (DayFromYear_mono (y + 1) (YearFromDay d)). lia.
Qed.

Lemma YearFromTime_spec t :
  TimeFromYear (YearFromTime t) <= t < TimeFromYear (YearFromTime t + 1).
Proof.
  unfold TimeFromYear, YearFromTime.
  pose proof (YearFromDay_spec (Day t)) as H. unfold Day, msPerDay in *. zdiv.
Qed.

Lemma YearFromTime_TimeFromYear y : YearFromTime (TimeFromYear y) = y.
Proof.
  unfold YearFromTime. apply YearFromDay_unique.
  unfold Day, TimeFromYear, msPerDay.
  pose proof (DayFromYear_succ y). pose proof (DaysInYear_bounds y). zdiv.
Qed.

Lemma DayWithinYear_bounds t :
  0 <= DayWithinYear t < DaysInYear (YearFromTime t).
Proof.
  unfold DayWithinYear, YearFromTime.
  pose proof (YearFromDay_spec (Day t)).
  rewrite DayFromYear_succ in *. lia.
Qed.

(** The month of [t] is the one whose days contain [t]'s day of the year. *)
Lemma MonthFromTime_spec t :
  let m := MonthFromTime t in
  let leap := isLeap (YearFromTime t) in
  0 <= m <= 11 /\ monthStart leap m <= DayWithinYear t /\
  (m < 11 -> DayWithinYear t < monthStart leap (m + 1)).
Proof.
  pose proof (DayWithinYear_bounds t) as Hb.
  unfold MonthFromTime, InLeapYear, DaysInYear in *.
  destruct (isLeap (YearFromTime t)); cbv zeta;
    repeat (match goal with
            | |- context [if ?a <? ?b then _ else _] => destruct (Z.ltb_spec a b)
            end; [unfold monthStart; simpl; lia|]);
    unfold monthStart; simpl; lia.
Qed.

Lemma MakeDay_first y m :
  0 <= m <= 11 -> MakeDay y m 1 = DayFromYear y + monthStart (isLeap y) m.
Proof.
  intros Hm. unfold MakeDay. cbv zeta.
  rewrite (Z.div_small m 12), (Z.mod_small m 12), Z.add_0_r by lia. lia.
Qed.

Lemma MakeDay_december y : MakeDay y 12 1 = DayFromYear (y + 1).
Proof.
  unfold MakeDay, monthStart. cbv zeta.
  change (12 / 12) with 1. change (12 mod 12) with 0. change (0 =? 0) with true.
  cbv iota. lia.
Qed.

Lemma monthStart_bounds leap m : 0 <= monthStart leap m <= 335.
Proof.
  unfold monthStart. destruct leap;
    repeat (match goal with
            | |- context [if ?a =? ?b then _ else _] => destruct (Z.eqb_spec a b)
            end; [lia|]); lia.
Qed.

(** The first day of the month after [t]'s, in [t]'s own year numbering. *)
Lemma next_month_after t :
  Day t < MakeDay (YearFromTime t) (MonthFromTime t + 1) 1
        <= DayFromYear (YearFromTime t + 1).
Proof.
  pose proof (MonthFromTime_spec t) as (Hm & Hlo & Hhi).
  pose proof (YearFromDay_spec (Day t)) as Hy. fold (YearFromTime t) in Hy.
  destruct (Z.eq_dec (MonthFromTime t) 11) as [-> | Hne].
  - cbn [Z.add Pos.add Pos.succ]. rewrite MakeDay_december. lia.
  - rewrite MakeDay_first by lia. unfold DayWithinYear in *.
    specialize (Hhi ltac:(lia)). split; [lia|].
    rewrite DayFromYear_succ. unfold DaysInYear.
    pose proof (monthStart_bounds (isLeap (YearFromTime t)) (MonthFromTime t + 1)).
    destruct (isLeap (YearFromTime t)); lia.
Qed.

Lemma firstOfMonth_day y m : firstOfMonth y m = msPerDay * MakeDay y m 1.
Proof. unfold firstOfMonth, MakeDate, MakeTime. lia. Qed.

Lemma MakeDay_january y : MakeDay y 0 1 = DayFromYear y.
Proof. rewrite MakeDay_first by lia. unfold monthStart. simpl. lia. Qed.

Lemma MakeFullYear_ge y : y <= MakeFullYear y <= Z.max y 1999.
Proof.
  unfold MakeFullYear.
  destruct (Z.leb_spec 0 y); destruct (Z.leb_spec y 99); simpl; lia.
Qed.

Lemma DayFromYear_last : DayFromYear 275760 = 99999744.
Proof. reflexivity. Qed.

(** One pass of the month loop: the next boundary is a valid date on a
    later day. *)
Lemma monthAfter_step now t :
  saneClock now -> - maxTime <= t -> t < now ->
  Day t < Day (monthAfter t) /\ Z.abs (monthAfter t) <= maxTime.
Proof.
  unfold saneClock, TimeFromYear. rewrite DayFromYear_last. intros Hnow Hlo Ht.
  unfold monthAfter. rewrite firstOfMonth_day.
  pose proof (MonthFromTime_spec t) as (Hm & _).
  pose proof (YearFromDay_spec (Day t)) as Hy. fold (YearFromTime t) in Hy.
  pose proof (MakeFullYear_ge (YearFromTime t)) as HY.
  set (Y := MakeFullYear (YearFromTime t)) in *.
  assert (HD : DayFromYear Y <= MakeDay Y (MonthFromTime t + 1) 1 <= DayFromYear (Y + 1)).
  { destruct (Z.eq_dec (MonthFromTime t) 11) as [-> | Hne].
    - cbn [Z.add Pos.add Pos.succ]. rewrite MakeDay_december.
      pose proof (DayFromYear_mono Y (Y + 1)). lia.
    - rewrite MakeDay_first by lia. rewrite DayFromYear_succ.
      pose proof (monthStart_bounds (isLeap Y) (MonthFromTime t + 1)).
      pose proof (DaysInYear_bounds Y). lia. }
  assert (Hyear : YearFromTime t < 275760).
  { destruct (Z.lt_ge_cases (YearFromTime t) 275760) as [|Hge]; [done|].
    pose proof (DayFromYear_mono 275760 (YearFromTime t) Hge).
    rewrite DayFromYear_last in *. unfold Day, msPerDay in *. zdiv. }
  assert (Hlt : Day t < MakeDay Y (MonthFromTime t + 1) 1).
  { destruct (Z.eq_dec Y (YearFromTime t)) as [-> | Hne].
    - apply next_month_after.
    - pose proof (DayFromYear_mono (YearFromTime t + 1) Y). lia. }
  assert (Hhi : MakeDay Y (MonthFromTime t + 1) 1 <= 99999744).
  { pose proof (DayFromYear_mono (Y + 1) 275760). rewrite DayFromYear_last in *.
    destruct (Z.eq_dec Y (YearFromTime t)) as [-> | Hne]; [|lia].
    pose proof (next_month_after t).
    pose proof (DayFromYear_mono (YearFromTime t + 1) 275760).
    rewrite DayFromYear_last in *. lia. }
  unfold Day, msPerDay, maxTime in *. split; zdiv.
Qed.

(** One pass of the year loop, likewise. *)
Lemma yearAfter_step now t :
  saneClock now -> - maxTime <= t -> t < now ->
  Day t < Day (yearAfter t) /\ Z.abs (yearAfter t) <= maxTime.
Proof.
  unfold saneClock, TimeFromYear. rewrite DayFromYear_last. intros Hnow Hlo Ht.
  unfold yearAfter. rewrite firstOfMonth_day, MakeDay_january.
  pose proof (YearFromDay_spec (Day t)) as Hy. fold (YearFromTime t) in Hy.
  pose proof (MakeFullYear_ge (YearFromTime t + 1)) as HY.
  set (Y := MakeFullYear (YearFromTime t + 1)) in *.
  assert (Hyear : YearFromTime t < 275760).
  { destruct (Z.lt_ge_cases (YearFromTime t) 275760) as [|Hge]; [done|].
    pose proof (DayFromYear_mono 275760 (YearFromTime t) Hge).
    rewrite DayFromYear_last in *. unfold Day, msPerDay in *. zdiv. }
  pose proof (DayFromYear_mono (YearFromTime t + 1) Y).
  pose proof (DayFromYear_mono Y 275760). rewrite DayFromYear_last in *.
  unfold Day, msPerDay, maxTime in *. split; zdiv.
Qed.

(** Whatever the clock, a pass moves on to a later day. *)
Lemma monthAfter_later t : Day t < Day (monthAfter t).
Proof.
  unfold monthAfter. rewrite firstOfMonth_day.
  pose proof (MonthFromTime_spec t) as (Hm & _).
  pose proof (YearFromDay_spec (Day t)) as Hy. fold (YearFromTime t) in Hy.
  pose proof (MakeFullYear_ge (YearFromTime t)) as HY.
  set (Y := MakeFullYear (YearFromTime t)) in *.
  assert (Hlt : Day t < MakeDay Y (MonthFromTime t + 1) 1).
  { destruct (Z.eq_dec Y (YearFromTime t)) as [-> | Hne]; [apply next_month_after|].
    pose proof (DayFromYear_mono (YearFromTime t + 1) Y).
    destruct (Z.eq_dec (MonthFromTime t) 11) as [-> | Hne'].
    - cbn [Z.add Pos.add Pos.succ]. rewrite MakeDay_december.
      pose proof (DayFromYear_mono Y (Y + 1)). lia.
    - rewrite MakeDay_first by lia.
      pose proof (monthStart_bounds (isLeap Y) (MonthFromTime t + 1)). lia. }
  unfold Day, msPerDay in *. zdiv.
Qed.

Lemma yearAfter_later t : Day t < Day (yearAfter t).
Proof.
  unfold yearAfter. rewrite firstOfMonth_day, MakeDay_january.
  pose proof (YearFromDay_spec (Day t)) as Hy. fold (YearFromTime t) in Hy.
  pose proof (MakeFullYear_ge (YearFromTime t + 1)) as HY.
  pose proof (DayFromYear_mono (YearFromTime t + 1) (MakeFullYear (YearFromTime t + 1))).
  unfold Day, msPerDay in *. zdiv.
Qed.

(** ** [isoString] tells instants apart *)

Lemma DateFromTime_bounds t : 1 <= DateFromTime t <= 31.
Proof.
  pose proof (DayWithinYear_bounds t) as Hb.
  unfold DateFromTime, MonthFromTime, InLeapYear, DaysInYear in *.
  destruct (isLeap (YearFromTime t)); cbv zeta;
    repeat (match goal with
            | |- context [if ?a <? ?b then _ else _] => destruct (Z.ltb_spec a b)
            end; [unfold monthStart; simpl; lia|]);
    unfold monthStart; simpl; lia.
Qed.

Lemma YearFromTime_valid t :
  Z.abs t <= maxTime -> -271821 <= YearFromTime t <= 275760.
Proof.
  intros Ht. pose proof (YearFromDay_spec (Day t)) as Hy. fold (YearFromTime t) in Hy.
  assert (-100000000 <= Day t <= 100000000) by (unfold Day, msPerDay, maxTime in *; zdiv).
  split.
  - destruct (Z.lt_ge_cases (YearFromTime t) (-271821)) as [Hlt|]; [|done].
    pose proof (DayFromYear_mono (YearFromTime t + 1) (-271821) ltac:(lia)) as Hm.
    change (DayFromYear (-271821)) with (-100000109) in Hm. lia.
  - destruct (Z.lt_ge_cases 275760 (YearFromTime t)) as [Hlt|]; [|lia].
    pose proof (DayFromYear_mono 275761 (YearFromTime t) ltac:(lia)) as Hm.
    change (DayFromYear 275761) with 100000110 in Hm. lia.
Qed.

(** An instant is its calendar fields put back together. *)
Lemma time_from_fields t :
  t = msPerDay * (DayFromYear (YearFromTime t)
                  + monthStart (isLeap (YearFromTime t)) (MonthFromTime t)
                  + DateFromTime t - 1)
      + HourFromTime t * msPerHour + MinFromTime t * msPerMinute
      + SecFromTime t * msPerSecond + msFromTime t.
Proof.
  unfold DateFromTime, DayWithinYear.
  replace (DayFromYear (YearFromTime t)
           + monthStart (isLeap (YearFromTime t)) (MonthFromTime t)
           + (Day t - DayFromYear (YearFromTime t)
              - monthStart (isLeap (YearFromTime t)) (MonthFromTime t) + 1) - 1)
    with (Day t) by lia.
  unfold Day, HourFromTime, MinFromTime, SecFromTime, msFromTime,
    msPerDay, msPerHour, msPerMinute, msPerSecond.
  zdiv.
Qed.

Lemma string_app_length a b :
  String.length (a +:+ b) = (String.length a + String.length b)%nat.
Proof. induction a as [|c a IH]; simpl; [done|]. by rewrite IH. Qed.

Lemma string_app_inj a a' b b' :
  String.length a = String.length a' -> a +:+ b = a' +:+ b' -> a = a' /\ b = b'.
Proof.
  revert a'. induction a as [|c a IH]; intros [|c' a'] Hlen H; simpl in *; try done.
  injection H as -> H. destruct (IH a') as [-> ->]; [lia|done|done].
Qed.

Lemma string_app_inj_r a a' b b' :
  String.length b = String.length b' -> a +:+ b = a' +:+ b' -> a = a' /\ b = b'.
Proof.
  intros Hlen H. apply string_app_inj; [|done].
  apply (f_equal String.length) in H. rewrite !string_app_length in H. lia.
Qed.

Lemma digit_inj n n' : digit n = digit n' -> n mod 10 = n' mod 10.
Proof.
  unfold digit. intros H. apply (f_equal nat_of_ascii) in H.
  pose proof (Z.mod_pos_bound n 10). pose proof (Z.mod_pos_bound n' 10).
  rewrite !nat_ascii_embedding in H; lia.
Qed.

Lemma padDigits_length w n : String.length (padDigits w n) = w.
Proof.
  revert n. induction w as [|w IH]; intros n; simpl; [done|].
  rewrite string_app_length, IH. simpl. lia.
Qed.

Lemma padDigits_inj w n n' :
  0 <= n < 10 ^ Z.of_nat w -> 0 <= n' < 10 ^ Z.of_nat w ->
  padDigits w n = padDigits w n' -> n = n'.
Proof.
  revert n n'. induction w as [|w IH]; intros n n' Hn Hn' H.
  - simpl in *. lia.
  - rewrite Nat2Z.inj_succ, Z.pow_succ_r in Hn, Hn' by lia. simpl in H.
    apply string_app_inj in H as [H1 H2]; [|by rewrite !padDigits_length].
    injection H2 as H2%digit_inj.
    apply IH in H1; [zdiv|zdiv|zdiv].
Qed.

Lemma yearString_length y :
  String.length (yearString y) = if (0 <=? y) && (y <=? 9999) then 4%nat else 7%nat.
Proof.
  unfold yearString. destruct ((0 <=? y) && (y <=? 9999)).
  - apply padDigits_length.
  - destruct (y <? 0); by rewrite string_app_length, padDigits_length.
Qed.

Lemma yearString_inj y y' :
  -1000000 < y < 1000000 -> -1000000 < y' < 1000000 ->
  yearString y = yearString y' -> y = y'.
Proof.
  intros Hy Hy' H. pose proof (f_equal String.length H) as Hlen.
  rewrite !yearString_length in Hlen. unfold yearString in H.
  destruct ((0 <=? y) && (y <=? 9999)) eqn:E;
    destruct ((0 <=? y') && (y' <=? 9999)) eqn:E'; try done.
  - apply padDigits_inj in H; [done|change (10 ^ Z.of_nat 4) with 10000; lia..].
  - destruct (Z.ltb_spec y 0); destruct (Z.ltb_spec y' 0);
      apply string_app_inj in H as [Hsign H]; try done;
      apply padDigits_inj in H; change (10 ^ Z.of_nat 6) with 1000000; lia.
Qed.

Theorem isoString_inj t t' :
  Z.abs t <= maxTime -> Z.abs t' <= maxTime -> isoString t = isoString t' -> t = t'.
Proof.
  intros Ht Ht' H. unfold isoString in H.
  pose proof (YearFromTime_valid t Ht). pose proof (YearFromTime_valid t' Ht').
  pose proof (MonthFromTime_spec t) as (? & _). pose proof (MonthFromTime_spec t') as (? & _).
  pose proof (DateFromTime_bounds t). pose proof (DateFromTime_bounds t').
  apply string_app_inj_r in H as [HY H]; [|by rewrite !string_app_length, !padDigits_length].
  apply yearString_inj in HY; [|lia..].
  do 6 (apply string_app_inj in H as [_ H]; [|done];
        apply string_app_inj in H as [? H]; [|by rewrite !padDigits_length]).
  repeat match goal with
  | H : padDigits _ _ = padDigits _ _ |- _ =>
      apply padDigits_inj in H;
      [|unfold HourFromTime, MinFromTime, SecFromTime, msFromTime, msPerSecond;
        simpl; zdiv..]
  end.
  rewrite (time_from_fields t), (time_from_fields t').
  assert (MonthFromTime t = MonthFromTime t') as -> by lia.
  congruence.
Qed.

End JSDateFacts.

(** * The date range chunker *)

Module ChunkerFacts.
Import JSDate JSDateFacts.

Lemma monthLoop_chunkLoop fuel now current ranges :
  monthLoop fuel now current ranges = chunkLoop nextMonth fuel now current ranges.
Proof.
  revert current ranges. induction fuel as [|fuel IH]; intros current ranges; simpl.
  - done.
  - destruct (isBefore current (Some now)); [|done].
    destruct (toISOString current); simpl; [|done..].
    fold (nextMonth current). destruct (toISOString (nextMonth current)); simpl; [|done..].
    apply IH.
Qed.

Lemma yearLoop_chunkLoop fuel now current ranges :
  yearLoop fuel now current ranges = chunkLoop nextYear fuel now current ranges.
Proof.
  revert current ranges. induction fuel as [|fuel IH]; intros current ranges; simpl.
  - done.
  - destruct (isBefore current (Some now)); [|done].
    destruct (toISOString current); simpl; [|done..].
    fold (nextYear current). destruct (toISOString (nextYear current)); simpl; [|done..].
    apply IH.
Qed.

Lemma TimeClip_valid t : Z.abs t <= maxTime -> TimeClip t = Some t.
Proof. unfold TimeClip. intros H. destruct (Z.leb_spec (Z.abs t) maxTime); [done|lia]. Qed.

Lemma TimeClip_Some t s : TimeClip t = Some s -> s = t /\ Z.abs t <= maxTime.
Proof.
  unfold TimeClip. destruct (Z.leb_spec (Z.abs t) maxTime); [|done].
  intros [= <-]. done.
Qed.

Lemma nextMonth_clip t : nextMonth (Some t) = TimeClip (monthAfter t).
Proof.
  unfold nextMonth, monthAfter, firstOfMonth, getUTCFullYear, getUTCMonth.
  cbn [option_map num_add UTC]. reflexivity.
Qed.

Lemma nextYear_clip t : nextYear (Some t) = TimeClip (yearAfter t).
Proof.
  unfold nextYear, yearAfter, firstOfMonth, getUTCFullYear.
  cbn [option_map num_add UTC]. reflexivity.
Qed.

Section Loop.

Variable now : Z.
Variable next : number -> number.
Variable step : Z -> Z.
Hypothesis next_step : forall t,
  - maxTime <= t -> t < now ->
  next (Some t) = Some (step t) /\ Day t < Day (step t) /\ Z.abs (step t) <= maxTime.

(** With the budget the chunker hands it, the loop runs to its end and
    returns the ranges between the boundaries it visited. *)
Lemma chunkLoop_visits fuel c ranges :
  Z.abs c <= maxTime ->
  (loopBudget now (Some c) <= fuel)%nat ->
  exists ts, chunkLoop next fuel now (Some c) ranges = Ok (ranges ++ rangesFrom c ts)
             /\ visits step now c ts.
Proof.
  unfold rangesFrom.
  revert c ranges. induction fuel as [|fuel IH]; intros c ranges Hc Hfuel.
  - simpl. destruct (Z.ltb_spec c now) as [Hlt|Hge].
    + exfalso. unfold loopBudget, Day, msPerDay in Hfuel. zdiv.
    + exists []. simpl. by rewrite app_nil_r.
  - simpl. destruct (Z.ltb_spec c now) as [Hlt|Hge].
    + destruct (next_step c) as (Hn & Hday & Habs); [lia..|].
      rewrite Hn. simpl.
      destruct (IH (step c) (ranges ++ [{| from := isoString c; to := isoString (step c) |}]))
        as (ts & Hrun & Hvis); [done| |].
      { unfold loopBudget in *. lia. }
      exists (step c :: ts). split.
      * rewrite Hrun. simpl. by rewrite <- app_assoc.
      * simpl. unfold validTime, Day, msPerDay in *. repeat split; try done. zdiv.
    + exists []. simpl. by rewrite app_nil_r.
Qed.

End Loop.

(** Whatever the clock, the budget is enough: the loop returns or throws. *)
Lemma chunkLoop_terminates now next step :
  (forall t, next (Some t) = TimeClip (step t)) ->
  (forall t, Day t < Day (step t)) ->
  forall fuel current ranges,
    (loopBudget now current <= fuel)%nat ->
    chunkLoop next fuel now current ranges <> OutOfFuel.
Proof.
  intros Hnext Hlater.
  induction fuel as [|fuel IH]; intros [c|] ranges Hfuel; simpl; try done.
  - destruct (Z.ltb_spec c now) as [Hlt|Hge]; [|done].
    unfold loopBudget, Day, msPerDay in Hfuel. zdiv.
  - destruct (Z.ltb_spec c now) as [Hlt|Hge]; [|done].
    rewrite Hnext. destruct (TimeClip (step c)) as [s|] eqn:Hclip; simpl; [|done].
    apply TimeClip_Some in Hclip as [-> _]. apply IH.
    specialize (Hlater c). unfold loopBudget in *. lia.
Qed.

Lemma monthLoop_visits now c :
  saneClock now -> Z.abs c <= maxTime ->
  exists ts, monthLoop (loopBudget now (Some c)) now (Some c) [] = Ok (rangesFrom c ts)
             /\ visits monthAfter now c ts.
Proof.
  intros Hnow Hc. rewrite monthLoop_chunkLoop.
  apply (chunkLoop_visits now nextMonth monthAfter); [|done|done].
  intros t Hlo Hlt. destruct (monthAfter_step now t) as (Hd & Ha); [done..|].
  rewrite nextMonth_clip, TimeClip_valid; done.
Qed.

Lemma yearLoop_visits now c :
  saneClock now -> Z.abs c <= maxTime ->
  exists ts, yearLoop (loopBudget now (Some c)) now (Some c) [] = Ok (rangesFrom c ts)
             /\ visits yearAfter now c ts.
Proof.
  intros Hnow Hc. rewrite yearLoop_chunkLoop.
  apply (chunkLoop_visits now nextYear yearAfter); [|done|done].
  intros t Hlo Hlt. destruct (yearAfter_step now t) as (Hd & Ha); [done..|].
  rewrite nextYear_clip, TimeClip_valid; done.
Qed.

(** What the boundaries a loop visited say about the intervals between them. *)
Section Visits.

Variable step : Z -> Z.
Variable now : Z.

Lemma intervals_head t ts iv : head (intervals t ts) = Some iv -> iv.1 = t.
Proof. destruct ts; simpl; [done|]. by intros [= <-]. Qed.

Lemma intervals_contiguous t ts : contiguous (intervals t ts).
Proof.
  revert t. induction ts as [|t' ts IH]; intros t i a b Ha Hb; [done|].
  destruct i as [|i].
  - injection Ha as <-. change (intervals t' ts !! 0%nat = Some b) in Hb.
    rewrite <- head_lookup in Hb. apply intervals_head in Hb. done.
  - exact (IH t' i a b Ha Hb).
Qed.

Lemma visits_each t ts :
  validTime t -> visits step now t ts ->
  Forall (fun iv => iv.1 < iv.2 /\ iv.1 < now /\ validTime iv.1 /\ validTime iv.2)
    (intervals t ts).
Proof.
  revert t. induction ts as [|t' ts IH]; intros t Ht Hv; simpl; [constructor|].
  destruct Hv as (Hlt & _ & Hinc & Hval & Hv). constructor; [done|]. by apply IH.
Qed.



Lemma visits_sorted t ts :
  visits step now t ts -> StronglySorted Z.lt (t :: ts).
Proof.
  intros Hv. apply Sorted_StronglySorted; [intros ???; lia|].
  revert t Hv. induction ts as [|t' ts IH]; intros t Hv.
  - repeat constructor.
  - destruct Hv as (_ & _ & Hinc & _ & Hv). constructor; [by apply IH|by constructor].
Qed.

Lemma visits_boundaries (P : Z -> Prop) t ts :
  (forall x, P (step x)) -> visits step now t ts -> Forall P ts.
Proof.
  intros HP. revert t. induction ts as [|t' ts IH]; intros t Hv; [constructor|].
  destruct Hv as (_ & -> & _ & _ & Hv). constructor; [apply HP|by eapply IH].
Qed.

Lemma visits_later t ts :
  visits step now t ts -> Forall (fun iv => t <= iv.1) (intervals t ts).
Proof.
  revert t. induction ts as [|t' ts IH]; intros t Hv; simpl; [constructor|].
  destruct Hv as (_ & _ & Hinc & _ & Hv). constructor; [simpl; lia|].
  eapply Forall_impl; [exact (IH t' Hv)|]. simpl. lia.
Qed.

Lemma visits_ascending t ts : visits step now t ts -> ascending (intervals t ts).
Proof.
  revert t. induction ts as [|t' ts IH]; intros t Hv i j a b Hij Ha Hb; [done|].
  pose proof Hv as (_ & _ & _ & _ & Hv').
  destruct j as [|j]; [lia|]. destruct i as [|i].
  - injection Ha as <-. change (intervals t' ts !! j = Some b) in Hb.
    pose proof (visits_later t' ts Hv') as Hl. rewrite Forall_lookup in Hl.
    exact (Hl j b Hb).
  - apply (IH t' Hv' i j a b); [lia|exact Ha|exact Hb].
Qed.


End Visits.

Lemma UTC_valid y m d s : UTC y m d = Some s -> validTime s.
Proof.
  destruct y, m, d; simpl; try done. intros H%TimeClip_Some. unfold validTime. lia.
Qed.

Lemma calculateDateRanges_month now fromYear fromMonth s :
  saneClock now -> UTC fromYear fromMonth (Some 1) = Some s ->
  exists ts, calculateDateRanges now "month" fromYear fromMonth = Ok (rangesFrom s ts)
             /\ visits monthAfter now s ts.
Proof.
  intros Hnow Hs. unfold calculateDateRanges.
  change (String.eqb "month" "month") with true. change (String.eqb "month" "year") with false.
  cbv iota. rewrite Hs.
  destruct (monthLoop_visits now s Hnow (UTC_valid _ _ _ _ Hs)) as (ts & -> & Hv).
  by exists ts.
Qed.

Lemma calculateDateRanges_year now fromYear fromMonth s :
  saneClock now -> UTC fromYear (Some 0) (Some 1) = Some s ->
  exists ts, calculateDateRanges now "year" fromYear fromMonth = Ok (rangesFrom s ts)
             /\ visits yearAfter now s ts.
Proof.
  intros Hnow Hs. unfold calculateDateRanges.
  change (String.eqb "year" "month") with false. change (String.eqb "year" "year") with true.
  cbv iota. unfold mbind, outcome_bind. rewrite Hs.
  destruct (yearLoop_visits now s Hnow (UTC_valid _ _ _ _ Hs)) as (ts & -> & Hv).
  by exists ts.
Qed.

(** Whatever the start, a loop that finds it invalid or not before [now]
    returns at once. *)
Lemma loops_skip now current fuel ranges :
  isBefore current (Some now) = false ->
  monthLoop fuel now current ranges = Ok ranges
  /\ yearLoop fuel now current ranges = Ok ranges.
Proof. intros H. destruct fuel; simpl; by rewrite H. Qed.

Lemma calculateDateRanges_visits now chunk fromYear fromMonth s :
  saneClock now -> startInstant chunk fromYear fromMonth = Some s ->
  exists ts, calculateDateRanges now chunk fromYear fromMonth = Ok (rangesFrom s ts)
    /\ (visits monthAfter now s ts \/ visits yearAfter now s ts).
Proof.
  intros Hnow. unfold startInstant.
  destruct (String.eqb_spec chunk "month") as [-> | Hm].
  - intros Hs. destruct (calculateDateRanges_month now _ _ _ Hnow Hs) as (ts & ? & ?).
    exists ts. auto.
  - destruct (String.eqb_spec chunk "year") as [-> | Hy]; [|done].
    intros Hs. destruct (calculateDateRanges_year now _ fromMonth _ Hnow Hs) as (ts & ? & ?).
    exists ts. auto.
Qed.

Lemma calculateDateRanges_not_before now chunk fromYear fromMonth s :
  startInstant chunk fromYear fromMonth = Some s -> now <= s ->
  calculateDateRanges now chunk fromYear fromMonth = Ok [].
Proof.
  unfold startInstant, calculateDateRanges. intros Hs Hle.
  assert (Hskip : isBefore (Some s) (Some now) = false).
  { simpl. apply Z.ltb_ge. lia. }
  destruct (String.eqb_spec chunk "month") as [-> | Hm].
  - change (String.eqb "month" "year") with false. rewrite Hs.
    by rewrite (proj1 (loops_skip now (Some s) _ [] Hskip)).
  - destruct (String.eqb_spec chunk "year") as [-> | Hy]; [|done].
    rewrite Hs. unfold mbind, outcome_bind.
    by rewrite (proj2 (loops_skip now (Some s) _ [] Hskip)).
Qed.

Lemma calculateDateRanges_no_start now chunk fromYear fromMonth :
  startInstant chunk fromYear fromMonth = None ->
  calculateDateRanges now chunk fromYear fromMonth = Ok [].
Proof.
  unfold startInstant, calculateDateRanges.
  destruct (String.eqb_spec chunk "month") as [-> | Hm].
  - intros ->. change (String.eqb "month" "year") with false. by destruct (loopBudget now None).
  - destruct (String.eqb_spec chunk "year") as [-> | Hy]; [|done].
    intros ->. by destruct (loopBudget now None).
Qed.

Lemma rendered_contiguous ivs : contiguous ivs -> contiguousRanges (map renderRange ivs).
Proof.
  intros Hc i r r'. rewrite !list_lookup_fmap.
  destruct (ivs !! i) as [a|] eqn:Ha; [|done].
  destruct (ivs !! S i) as [b|] eqn:Hb; [|done]. simpl.
  intros [= <-] [= <-]. simpl. by rewrite (Hc i a b Ha Hb).
Qed.

Lemma MakeDay_carry y m : MakeDay y m 1 = MakeDay (y + m / 12) (m mod 12) 1.
Proof.
  unfold MakeDay. cbv zeta.
  rewrite (Z.div_small (m mod 12) 12), Z.mod_mod, Z.add_0_r; [done|lia|].
  apply Z.mod_pos_bound. lia.
Qed.

Lemma firstOfMonth_isMonthStart y m : isMonthStart (firstOfMonth y m).
Proof.
  exists (y + m / 12), (m mod 12). split; [pose proof (Z.mod_pos_bound m 12); lia|].
  unfold firstOfMonth. by rewrite MakeDay_carry.
Qed.

Lemma firstOfMonth_january y : firstOfMonth y 0 = TimeFromYear y.
Proof. rewrite firstOfMonth_day, MakeDay_january. done. Qed.

(** The chunker never runs out of budget, whatever the clock and the input. *)
Lemma calculateDateRanges_terminates now chunk fromYear fromMonth :
  calculateDateRanges now chunk fromYear fromMonth <> OutOfFuel.
Proof.
  unfold calculateDateRanges.
  destruct (String.eqb_spec chunk "month") as [-> | Hm].
  - change (String.eqb "month" "year") with false.
    rewrite monthLoop_chunkLoop.
    pose proof (chunkLoop_terminates now nextMonth monthAfter nextMonth_clip
                  monthAfter_later _ (UTC fromYear fromMonth (Some 1)) [] (le_n _)) as H.
    by destruct (chunkLoop _ _ _ _ _).
  - destruct (String.eqb_spec chunk "year") as [-> | Hy]; [|done].
    unfold mbind, outcome_bind. rewrite yearLoop_chunkLoop.
    pose proof (chunkLoop_terminates now nextYear yearAfter nextYear_clip
                  yearAfter_later _ (UTC fromYear (Some 0) (Some 1)) [] (le_n _)) as H.
    by destruct (chunkLoop _ _ _ _ _).
Qed.



End ChunkerFacts.

(** * The chunker's ranges *)

Section ChunkerClaims.
Import JSDate JSDateFacts ChunkerFacts.




(** C9.  A start instant strictly after [now] gives the empty sequence,
    whatever the granularity; and the chunker returns a sequence, raising
    no error, for every granularity, year and month (the clock reading a
    time before the year 275760). *)
Theorem chunker_future_start_empty now chunk fromYear fromMonth :
  (forall s, startInstant chunk fromYear fromMonth = Some s -> now < s ->
     calculateDateRanges now chunk fromYear fromMonth = Ok [])
  /\ (saneClock now ->
      exists ranges, calculateDateRanges now chunk fromYear fromMonth = Ok ranges).
Proof.
  split.
  - intros s Hs Hlt. apply (calculateDateRanges_not_before now chunk _ _ s Hs). lia.
  - intros Hnow. destruct (startInstant chunk fromYear fromMonth) as [s|] eqn:Hs.
    + destruct (calculateDateRanges_visits now chunk fromYear fromMonth s Hnow Hs)
        as (ts & Hrun & _). eauto.
    + rewrite calculateDateRanges_no_start by done. eauto.
Qed.

(** Witness for C9: the clock in September 2001 and a start in January 2030. *)
Lemma chunker_future_start_empty_witness :
  calculateDateRanges 1000000000000 "year" (Some 2030) (Some 0) = Ok []
  /\ exists ranges,
       calculateDateRanges 1000000000000 "year" (Some 2030) (Some 0) = Ok ranges.
Proof.
  destruct (chunker_future_start_empty 1000000000000 "year" (Some 2030) (Some 0))
    as [Hempty Hsome].
  split.
  - apply (Hempty 1893456000000); [vm_compute; reflexivity|lia].
  - apply Hsome. unfold saneClock. vm_compute. discriminate.
Defined.

(** What the chunker does from any start not in the future: the monthly
    ranges are contiguous and strictly increasing, every boundary opens a
    calendar month, and the first range begins at
    [Date.UTC(startYear, startMonth, 1)], which is day 1 of that month at
    00:00:00 UTC in the year [MakeFullYear startYear].  The same holds of
    the yearly ranges with 1 January boundaries, whatever [startMonth] is.
    For a [startYear] of 100 or later that year is [startYear] itself
    ([CalendarFacts.MakeFullYear_id]). *)
Theorem chunker_ranges_contiguous_increasing now startYear startMonth :
  saneClock now ->
  (forall s, UTC (Some startYear) (Some startMonth) (Some 1) = Some s -> s <= now ->
     s = firstOfMonth (MakeFullYear startYear) startMonth
     /\ exists ivs,
         calculateDateRanges now "month" (Some startYear) (Some startMonth)
           = Ok (map renderRange ivs)
         /\ contiguousRanges (map renderRange ivs)
         /\ contiguous ivs /\ ascending ivs
         /\ Forall (fun iv => iv.1 < iv.2) ivs
         /\ (forall iv, head ivs = Some iv -> iv.1 = s)
         /\ Forall (fun iv => isMonthStart iv.1 /\ isMonthStart iv.2) ivs)
  /\ (forall anyMonth s, UTC (Some startYear) (Some 0) (Some 1) = Some s -> s <= now ->
     s = TimeFromYear (MakeFullYear startYear)
     /\ exists ivs,
         calculateDateRanges now "year" (Some startYear) anyMonth
           = Ok (map renderRange ivs)
         /\ contiguousRanges (map renderRange ivs)
         /\ contiguous ivs /\ ascending ivs
         /\ Forall (fun iv => iv.1 < iv.2) ivs
         /\ (forall iv, head ivs = Some iv -> iv.1 = s)
         /\ Forall (fun iv => isYearStart iv.1 /\ isYearStart iv.2) ivs).
Proof.
  intros Hnow. split.
  - intros s Hs Hle.
    assert (Hstart : s = firstOfMonth (MakeFullYear startYear) startMonth).
    { simpl in Hs. apply TimeClip_Some in Hs as [-> _]. done. }
    split; [exact Hstart|].
    destruct (calculateDateRanges_month now _ _ s Hnow Hs) as (ts & Hrun & Hv).
    exists (intervals s ts). split; [exact Hrun|].
    pose proof (intervals_contiguous s ts) as Hc.
    pose proof (visits_each _ _ _ _ (UTC_valid _ _ _ _ Hs) Hv) as Heach.
    repeat split.
    + by apply rendered_contiguous.
    + exact Hc.
    + by apply (visits_ascending monthAfter now).
    + eapply Forall_impl; [exact Heach|]. simpl. tauto.
    + apply intervals_head.
    + assert (Hb : Forall isMonthStart ts).
      { apply (visits_boundaries monthAfter now isMonthStart s); [|done].
        intros x. apply firstOfMonth_isMonthStart. }
      assert (Hs' : isMonthStart s) by (rewrite Hstart; apply firstOfMonth_isMonthStart).
      clear -Hb Hs'. revert s Hs'. induction Hb as [|t ts Ht Hb IH]; intros s Hs'; simpl.
      * constructor.
      * constructor; [done|by apply IH].
  - intros anyMonth s Hs Hle.
    assert (Hstart : s = TimeFromYear (MakeFullYear startYear)).
    { simpl in Hs. apply TimeClip_Some in Hs as [-> _].
      apply (firstOfMonth_january (MakeFullYear startYear)). }
    split; [exact Hstart|].
    destruct (calculateDateRanges_year now _ anyMonth s Hnow Hs) as (ts & Hrun & Hv).
    exists (intervals s ts). split; [exact Hrun|].
    pose proof (intervals_contiguous s ts) as Hc.
    pose proof (visits_each _ _ _ _ (UTC_valid _ _ _ _ Hs) Hv) as Heach.
    repeat split.
    + by apply rendered_contiguous.
    + exact Hc.
    + by apply (visits_ascending yearAfter now).
    + eapply Forall_impl; [exact Heach|]. simpl. tauto.
    + apply intervals_head.
    + assert (Hb : Forall isYearStart ts).
      { apply (visits_boundaries yearAfter now isYearStart s); [|done].
        intros x. eexists. apply firstOfMonth_january. }
      assert (Hs' : isYearStart s) by (by eexists).
      clear -Hb Hs'. revert s Hs'. induction Hb as [|t ts Ht Hb IH]; intros s Hs'; simpl.
      * constructor.
      * constructor; [done|by apply IH].
Qed.

(** An instance: the clock in September 2001, a start in July 2001. *)
Lemma chunker_ranges_contiguous_increasing_witness :
  (993945600000 = firstOfMonth (MakeFullYear 2001) 6
   /\ exists ivs,
       calculateDateRanges 1000000000000 "month" (Some 2001) (Some 6)
         = Ok (map renderRange ivs)
       /\ contiguousRanges (map renderRange ivs)
       /\ contiguous ivs /\ ascending ivs
       /\ Forall (fun iv => iv.1 < iv.2) ivs
       /\ (forall iv, head ivs = Some iv -> iv.1 = 993945600000)
       /\ Forall (fun iv => isMonthStart iv.1 /\ isMonthStart iv.2) ivs)
  /\ (978307200000 = TimeFromYear (MakeFullYear 2001)
   /\ exists ivs,
       calculateDateRanges 1000000000000 "year" (Some 2001) (Some 6)
         = Ok (map renderRange ivs)
       /\ contiguousRanges (map renderRange ivs)
       /\ contiguous ivs /\ ascending ivs
       /\ Forall (fun iv => iv.1 < iv.2) ivs
       /\ (forall iv, head ivs = Some iv -> iv.1 = 978307200000)
       /\ Forall (fun iv => isYearStart iv.1 /\ isYearStart iv.2) ivs).
Proof.
  assert (Hnow : saneClock 1000000000000) by (unfold saneClock; vm_compute; discriminate).
  destruct (chunker_ranges_contiguous_increasing 1000000000000 2001 6 Hnow)
    as [Hmonth Hyear].
  split.
  - apply (Hmonth 993945600000); [vm_compute; reflexivity|lia].
  - apply (Hyear (Some 6) 978307200000); [vm_compute; reflexivity|lia].
Defined.

(** C5.  The chunker misses the start it is given when the start year has
    one or two digits: [Date.UTC] reads a year from 0 to 99 as 1900 + year,
    so asked for the months from (year 50, January), which is not in the
    future, the chunker starts at 1 January 1950, not at 1 January of the
    year 50. *)
Lemma chunker_two_digit_start_year :
  saneClock 1750000000000
  /\ firstOfMonth 50 0 <= 1750000000000
  /\ isoString (firstOfMonth 50 0) = "0050-01-01T00:00:00.000Z"
  /\ exists rs r,
       calculateDateRanges 1750000000000 "month" (Some 50) (Some 0) = Ok rs
       /\ head rs = Some r
       /\ from r = "1950-01-01T00:00:00.000Z"
       /\ from r <> isoString (firstOfMonth 50 0).
Proof.
  assert (Hnow : saneClock 1750000000000) by (unfold saneClock; vm_compute; discriminate).
  split; [exact Hnow|].
  split; [vm_compute; discriminate|].
  split; [vm_compute; reflexivity|].
  assert (Hs : UTC (Some 50) (Some 0) (Some 1) = Some (-631152000000))
    by (vm_compute; reflexivity).
  destruct (calculateDateRanges_month 1750000000000 _ _ _ Hnow Hs) as (ts & Hrun & Hv).
  destruct ts as [|t ts]; simpl in Hv; [lia|].
  exists (rangesFrom (-631152000000) (t :: ts)), (renderRange (-631152000000, t)).
  split; [exact Hrun|]. split; [reflexivity|].
  split; [vm_compute; reflexivity|]. vm_compute. discriminate.
Qed.

End ChunkerClaims.

(** * The renderer *)

Module RendererFacts.

Lemma string_app_cons c (a b : string) : String c a +:+ b = String c (a +:+ b).
Proof. reflexivity. Qed.

Lemma string_app_nil_r (a : string) : a +:+ "" = a.
Proof. induction a as [|x a IH]; [done|]. by rewrite string_app_cons, IH. Qed.

Lemma string_app_assoc (a b c : string) : (a +:+ b) +:+ c = a +:+ (b +:+ c).
Proof. induction a as [|x a IH]; [done|]. by rewrite !string_app_cons, IH. Qed.

Lemma join_app l l' : join (l ++ l') = join l +:+ join l'.
Proof.
  induction l as [|x l IH]; simpl; [done|]. by rewrite IH, string_app_assoc.
Qed.

Lemma strlen_app a b : strlen (a +:+ b) = strlen a + strlen b.
Proof. unfold strlen. rewrite JSDateFacts.string_app_length. lia. Qed.

Lemma repeat_dot_length n : String.length (repeat_string "." n) = n.
Proof.
  induction n as [|n IH]; [done|].
  change (repeat_string "." (S n)) with (String "." (repeat_string "." n)).
  simpl. by rewrite IH.
Qed.

(** [replace] puts the callback's result where the match was and keeps
    what is around it. *)
Lemma replacePlaceholders_at callback subject pre key post :
  scan subject = pre ++ Placeholder key :: post ->
  replacePlaceholders callback subject
  = join (map (substitute callback) pre) +:+ callback key
      +:+ join (map (substitute callback) post).
Proof.
  intros H. unfold replacePlaceholders. rewrite H, map_app, join_app. done.
Qed.

Lemma generatePopulatedTemplate_at fs stats template pre key post :
  fs !! templatePath = Some template ->
  scan template = pre ++ Placeholder key :: post ->
  generatePopulatedTemplate fs stats
  = Ok (renderPieces stats pre +:+ populate stats key +:+ renderPieces stats post).
Proof.
  intros Hfs Hscan. unfold generatePopulatedTemplate, readFile. rewrite Hfs. simpl.
  by rewrite (replacePlaceholders_at _ _ _ _ _ Hscan).
Qed.

(** ** What the pattern finds *)

Lemma lazyKey_plain key rest :
  plainKey key -> lazyKey (key +:+ "}}" +:+ rest) = Some key.
Proof.
  unfold plainKey. induction key as [|c key IH]; intros Hk; [done|].
  inversion Hk as [|?? [Hc Hlt] Hk']; subst. specialize (IH Hk').
  rewrite string_app_cons. remember (key +:+ "}}" +:+ rest) as s eqn:Hs.
  cbn [lazyKey]. destruct s as [|c' s'].
  - by destruct key.
  - destruct (Ascii.eqb_spec c "}"); [done|]. cbn [andb]. by rewrite Hlt, IH.
Qed.

Lemma scanFrom_skip p rest : scanFrom (String.length p) (p +:+ rest) = scanFrom 0 rest.
Proof.
  induction p as [|c p IH]; [done|]. rewrite string_app_cons. simpl. exact IH.
Qed.

Lemma scanFrom_match c s key :
  matchAt (String c s) = Some key ->
  scanFrom 0 (String c s) = Placeholder key :: scanFrom (String.length key + 3) s.
Proof. intros H. cbn [scanFrom]. by rewrite H. Qed.

(** A well-formed placeholder is found, with its key as written. *)
Lemma scan_placeholder key rest :
  plainKey key -> scan ("{{" +:+ key +:+ "}}" +:+ rest) = Placeholder key :: scan rest.
Proof.
  intros Hk. unfold scan.
  change ("{{" +:+ key +:+ "}}" +:+ rest)
    with (String "{" (String "{" (key +:+ "}}" +:+ rest))).
  rewrite (scanFrom_match _ _ key) by (by apply lazyKey_plain).
  f_equal.
  replace (String "{" (key +:+ "}}" +:+ rest)) with (("{" +:+ key +:+ "}}") +:+ rest)
    by (by rewrite !string_app_assoc).
  replace (String.length key + 3)%nat with (String.length ("{" +:+ key +:+ "}}")).
  - apply scanFrom_skip.
  - rewrite !JSDateFacts.string_app_length.
    change (String.length "{") with 1%nat. change (String.length "}}") with 2%nat. lia.
Qed.

(** Text without an opening brace is kept as it is. *)
Lemma scan_text text rest :
  Forall (fun c => c <> "{"%char) (list_ascii_of_string text) ->
  scan (text +:+ rest) = map Literal (list_ascii_of_string text) ++ scan rest.
Proof.
  unfold scan. induction text as [|c text IH]; intros Ht; [done|].
  inversion Ht as [|?? Hc Ht']; subst. specialize (IH Ht').
  rewrite string_app_cons. remember (text +:+ rest) as s eqn:Hs.
  cbn [scanFrom matchAt list_ascii_of_string map app].
  assert (Hno : match s with
                | String c2 r => if Ascii.eqb c "{" && Ascii.eqb c2 "{" then lazyKey r else None
                | EmptyString => None
                end = None).
  { destruct s; [done|]. by destruct (Ascii.eqb_spec c "{"). }
  rewrite Hno. by rewrite IH.
Qed.

(** The older script's inline callback is the helper's. *)
Lemma rendered_populate stats template :
  rendered stats template = replacePlaceholders (populate stats) template.
Proof. reflexivity. Qed.

(** ** [trim] and white space around a key *)

Lemma trimStart_white l x : allWhiteSpace l -> trimStart (l +:+ x) = trimStart x.
Proof.
  unfold allWhiteSpace. induction l as [|c l IH]; simpl; [done|].
  intros H. inversion H as [|?? Hc Hl]; subst. rewrite ?string_app_cons. simpl.
  rewrite Hc. by apply IH.
Qed.

Lemma trimEnd_white r : allWhiteSpace r -> trimEnd r = "".
Proof.
  unfold allWhiteSpace. induction r as [|c r IH]; simpl; [done|].
  intros H. inversion H as [|?? Hc Hr]; subst. by rewrite IH, Hc.
Qed.

Lemma trimEnd_app_white x r : allWhiteSpace r -> trimEnd (x +:+ r) = trimEnd x.
Proof.
  intros Hr. induction x as [|c x IH].
  - by apply trimEnd_white.
  - rewrite string_app_cons. simpl. by rewrite IH.
Qed.

Lemma trim_app_white k r : allWhiteSpace r -> trim (k +:+ r) = trim k.
Proof.
  intros Hr. unfold trim. induction k as [|c k IH].
  - change ("" +:+ r) with r. rewrite <- (string_app_nil_r r) at 1.
    by rewrite trimStart_white.
  - rewrite string_app_cons. simpl. destruct (isWhiteSpace c); [exact IH|].
    exact (trimEnd_app_white (String c k) r Hr).
Qed.

(** White space written around a key does not change what is looked up. *)
Lemma trim_padded l k r :
  allWhiteSpace l -> allWhiteSpace r -> trim (l +:+ k +:+ r) = trim k.
Proof.
  intros Hl Hr. unfold trim at 1. rewrite trimStart_white by done.
  fold (trim (k +:+ r)). by apply trim_app_white.
Qed.

Lemma trimStart_length s : (String.length (trimStart s) <= String.length s)%nat.
Proof.
  induction s as [|c s IH]; simpl; [done|]. destruct (isWhiteSpace c); simpl; lia.
Qed.

Lemma trimEnd_length s : (String.length (trimEnd s) <= String.length s)%nat.
Proof.
  induction s as [|c s IH]; simpl; [done|].
  destruct (trimEnd s); [destruct (isWhiteSpace c)|]; simpl in *; lia.
Qed.

Lemma trim_length s : strlen (trim s) <= strlen s.
Proof.
  unfold strlen, trim. pose proof (trimEnd_length (trimStart s)).
  pose proof (trimStart_length s). lia.
Qed.

(** ** Looking up a key that no inherited property answers *)

Lemma lookupValue_plain stats key :
  plainLookup stats key ->
  lookupValue stats key = VString (default "N/A" (stats !! trim key)).
Proof.
  unfold plainLookup, lookupValue, getProperty. intros [[v Hv] | Hnone].
  - by rewrite Hv.
  - destruct (stats !! trim key); [done|]. by rewrite Hnone.
Qed.

Lemma populate_plain stats key :
  plainLookup stats key ->
  populate stats key
  = repeat_string "."
      (Z.to_nat (Z.max 0 (64 - 5 - strlen key - strlen (default "N/A" (stats !! trim key)))))
    +:+ " " +:+ default "N/A" (stats !! trim key).
Proof. intros H. unfold populate. by rewrite (lookupValue_plain stats key H). Qed.

Lemma plainLookup_padded stats l key r :
  allWhiteSpace l -> allWhiteSpace r ->
  plainLookup stats key -> plainLookup stats (l +:+ key +:+ r).
Proof. intros Hl Hr. unfold plainLookup. by rewrite trim_padded. Qed.

End RendererFacts.

Section RendererClaims.
Import RendererFacts.

(** The example of the specification: one-character key and value leave
    57 dots. *)
Example render_score :
  replacePlaceholders (populate {[ "x" := "5" ]}) "score: {{x}}"
  = "score: " +:+ repeat_string "." 57 +:+ " 5".
Proof. vm_compute. reflexivity. Qed.

(** C4 (as amended).  A placeholder whose trimmed key is an entry of
    [stats], or names no property that objects inherit, is replaced by a run
    of dots, a space and the value, and the run has exactly
    [max(0, 64 - 5 - len(key) - len(value))] dots, where [key] is the text
    between the braces as written, white space included, and [value] is the
    substituted value: the entry, or [N/A].  The run is empty as soon as the
    lengths of key and value add up to 59 or more, whether the key is
    measured as written or trimmed. *)
Theorem filler_run_length fs stats template pre key post :
  fs !! templatePath = Some template ->
  scan template = pre ++ Placeholder key :: post ->
  plainLookup stats key ->
  exists dots,
    generatePopulatedTemplate fs stats
      = Ok (renderPieces stats pre
            +:+ (dots +:+ " " +:+ default "N/A" (stats !! trim key))
            +:+ renderPieces stats post)
    /\ dots = repeat_string "." (String.length dots)
    /\ strlen dots
       = Z.max 0 (64 - 5 - strlen key - strlen (default "N/A" (stats !! trim key)))
    /\ (strlen key + strlen (default "N/A" (stats !! trim key)) >= 59 -> dots = "")
    /\ (strlen (trim key) + strlen (default "N/A" (stats !! trim key)) >= 59 -> dots = "").
Proof.
  intros Hfs Hscan Hplain.
  exists (repeat_string "."
            (Z.to_nat (Z.max 0 (64 - 5 - strlen key
                                - strlen (default "N/A" (stats !! trim key)))))).
  rewrite (generatePopulatedTemplate_at fs stats template pre key post Hfs Hscan).
  rewrite (populate_plain stats key Hplain). split; [done|].
  rewrite repeat_dot_length. split; [done|].
  unfold strlen at 1. rewrite repeat_dot_length.
  pose proof (trim_length key).
  split; [lia|]. split; intros Hlen.
  - replace (Z.to_nat _) with 0%nat by lia. done.
  - replace (Z.to_nat _) with 0%nat by lia. done.
Qed.

(** Witness for C4. *)
Lemma filler_run_length_witness :
  exists dots,
    generatePopulatedTemplate {[ templatePath := "Name {{ name }}!" ]} {[ "name" := "Ada" ]}
      = Ok (renderPieces {[ "name" := "Ada" ]}
              [Literal "N"; Literal "a"; Literal "m"; Literal "e"; Literal " "]
            +:+ (dots +:+ " "
                   +:+ default "N/A" (({[ "name" := "Ada" ]} : gmap string string)
                                        !! trim " name "))
            +:+ renderPieces {[ "name" := "Ada" ]} [Literal "!"])
    /\ dots = repeat_string "." (String.length dots)
    /\ strlen dots
       = Z.max 0 (64 - 5 - strlen " name "
                  - strlen (default "N/A" (({[ "name" := "Ada" ]} : gmap string string)
                                             !! trim " name ")))
    /\ (strlen " name "
        + strlen (default "N/A" (({[ "name" := "Ada" ]} : gmap string string)
                                   !! trim " name ")) >= 59
        -> dots = "")
    /\ (strlen (trim " name ")
        + strlen (default "N/A" (({[ "name" := "Ada" ]} : gmap string string)
                                   !! trim " name ")) >= 59
        -> dots = "").
Proof.
  apply (filler_run_length {[ templatePath := "Name {{ name }}!" ]} {[ "name" := "Ada" ]}
           "Name {{ name }}!").
  - vm_compute. reflexivity.
  - vm_compute. reflexivity.
  - left. exists "Ada". vm_compute. reflexivity.
Defined.

(** C4 as stated fails: in ["{{ x }}"] the key as written has three
    characters and trims to one; with the value ["5"] the run has
    64 - 5 - 3 - 1 = 55 dots, not the 57 the trimmed key would give. *)
Lemma filler_counts_untrimmed_key :
  scan "{{ x }}" = [Placeholder " x "]
  /\ trim " x " = "x"
  /\ lookupValue {[ "x" := "5" ]} " x " = VString "5"
  /\ Z.max 0 (64 - 5 - strlen (trim " x ") - strlen "5") = 57
  /\ generatePopulatedTemplate {[ templatePath := "{{ x }}" ]} {[ "x" := "5" ]}
     = Ok (repeat_string "." 55 +:+ " 5")
  /\ ~ exists dots,
        generatePopulatedTemplate {[ templatePath := "{{ x }}" ]} {[ "x" := "5" ]}
          = Ok (dots +:+ " 5")
        /\ strlen dots = Z.max 0 (64 - 5 - strlen (trim " x ") - strlen "5").
Proof.
  repeat (split; [vm_compute; reflexivity|]).
  intros (dots & Hrun & Hlen).
  assert (Hrun' : generatePopulatedTemplate {[ templatePath := "{{ x }}" ]} {[ "x" := "5" ]}
                  = Ok (repeat_string "." 55 +:+ " 5")) by (vm_compute; reflexivity).
  assert (Heq : dots +:+ " 5" = repeat_string "." 55 +:+ " 5") by congruence.
  apply (f_equal strlen) in Heq. rewrite !strlen_app in Heq.
  unfold strlen at 3 in Heq. rewrite repeat_dot_length in Heq.
  change (Z.max 0 (64 - 5 - strlen (trim " x ") - strlen "5")) with 57 in Hlen. lia.
Qed.

(** Where the renderer does give [N/A]: a placeholder whose trimmed key is
    not in [stats] and names no property that objects inherit is replaced by
    its run of dots, a space and the literal [N/A]. *)
Lemma absent_key_renders_NA fs stats template pre key post :
  fs !! templatePath = Some template ->
  scan template = pre ++ Placeholder key :: post ->
  stats !! trim key = None ->
  inherited (trim key) = None ->
  lookupValue stats key = VString "N/A"
  /\ exists dots,
       generatePopulatedTemplate fs stats
         = Ok (renderPieces stats pre +:+ (dots +:+ " " +:+ "N/A")
               +:+ renderPieces stats post)
       /\ dots = repeat_string "." (String.length dots).
Proof.
  intros Hfs Hscan Habsent Hnone.
  assert (Hplain : plainLookup stats key) by (by right).
  pose proof (lookupValue_plain stats key Hplain) as Hna.
  rewrite Habsent in Hna. split; [exact Hna|].
  exists (repeat_string "." (Z.to_nat (Z.max 0 (64 - 5 - strlen key - strlen "N/A")))).
  rewrite (generatePopulatedTemplate_at fs stats template pre key post Hfs Hscan).
  rewrite (populate_plain stats key Hplain), Habsent, repeat_dot_length. done.
Qed.

(** C7.  The renderer misses a case of the claim: the lookup
    [stats[key.trim()]] also finds what every object inherits, so a key that
    is absent from [stats] but names such a property is not replaced by
    [N/A].  With no statistics at all, [{{constructor}}] is replaced by 47
    dots (59 less the 11 characters of the key and the one parameter of the
    function), a space and the text of the function [Object]; and
    [{{__proto__}}] by a space and [[object Object]], without dots. *)
Lemma inherited_key_not_rendered_NA :
  (∅ : gmap string string) !! trim "constructor" = None
  /\ scan "{{constructor}}" = [Placeholder "constructor"]
  /\ generatePopulatedTemplate {[ templatePath := "{{constructor}}" ]} ∅
     = Ok (repeat_string "." 47 +:+ " function Object() { [native code] }")
  /\ generatePopulatedTemplate {[ templatePath := "{{__proto__}}" ]} ∅
     = Ok " [object Object]"
  /\ ~ exists dots,
         generatePopulatedTemplate {[ templatePath := "{{constructor}}" ]} ∅
         = Ok (dots +:+ " " +:+ "N/A").
Proof.
  repeat (split; [vm_compute; reflexivity|]).
  intros (dots & Hrun).
  assert (Hrun' : generatePopulatedTemplate {[ templatePath := "{{constructor}}" ]} ∅
                  = Ok ((repeat_string "." 47 +:+ " function Object() { [native cod")
                        +:+ "e] }")) by (vm_compute; reflexivity).
  rewrite Hrun' in Hrun. injection Hrun as Heq.
  change (dots +:+ " " +:+ "N/A") with (dots +:+ " N/A") in Heq.
  apply JSDateFacts.string_app_inj_r in Heq as [_ Heq]; [discriminate|reflexivity].
Qed.

(** C10 (as amended).  For a placeholder whose trimmed key is an entry of
    [stats], or names no property that objects inherit, the text put in its
    place is its run of dots, exactly one space, and the value; the run is
    counted from the key as written, untrimmed, while the value is looked up
    under the trimmed key; the older script's renderer does the same.  So
    white space written around a key leaves the value unchanged and takes
    one dot off the run per character of white space, as long as there are
    dots to take: the run is never longer, and it is strictly shorter
    whenever the run of the key without that white space is not empty. *)
Theorem replacement_text :
  (forall fs stats template pre key post,
     fs !! templatePath = Some template ->
     scan template = pre ++ Placeholder key :: post ->
     plainLookup stats key ->
     generatePopulatedTemplate fs stats
     = Ok (renderPieces stats pre
           +:+ (repeat_string "."
                  (Z.to_nat (Z.max 0 (64 - 5 - strlen key
                                      - strlen (default "N/A" (stats !! trim key)))))
                +:+ " " +:+ default "N/A" (stats !! trim key))
           +:+ renderPieces stats post))
  /\ (forall stats template,
        rendered stats template = replacePlaceholders (populate stats) template)
  /\ (forall stats l key r,
        allWhiteSpace l -> allWhiteSpace r ->
        plainLookup stats key ->
        let padded := l +:+ key +:+ r in
        let value := default "N/A" (stats !! trim key) in
        let run written := Z.max 0 (64 - 5 - strlen written - strlen value) in
        lookupValue stats key = VString value
        /\ lookupValue stats padded = VString value
        /\ populate stats key = repeat_string "." (Z.to_nat (run key)) +:+ " " +:+ value
        /\ populate stats padded
           = repeat_string "." (Z.to_nat (run padded)) +:+ " " +:+ value
        /\ run padded
           = Z.max 0 (64 - 5 - strlen key - strlen value - (strlen l + strlen r))
        /\ run padded <= run key
        /\ (0 < strlen l + strlen r -> 0 < run key -> run padded < run key)).
Proof.
  split; [|split].
  - intros fs stats template pre key post Hfs Hscan Hplain.
    rewrite (generatePopulatedTemplate_at fs stats template pre key post Hfs Hscan).
    by rewrite (populate_plain stats key Hplain).
  - intros. apply rendered_populate.
  - intros stats l key r Hl Hr Hplain padded value run.
    pose proof (plainLookup_padded stats l key r Hl Hr Hplain) as Hplain'.
    assert (Htrim : trim padded = trim key) by (by apply trim_padded).
    split; [by apply lookupValue_plain|].
    split; [unfold value; rewrite <- Htrim; by apply lookupValue_plain|].
    split; [by apply populate_plain|].
    split; [unfold run, value; rewrite <- Htrim; by apply populate_plain|].
    unfold run, padded. rewrite !strlen_app. unfold strlen. lia.
Qed.

(** Witness for C10: the key [name] written with one space on each side. *)
Lemma replacement_text_witness :
  generatePopulatedTemplate {[ templatePath := "Name {{ name }}!" ]} {[ "name" := "Ada" ]}
  = Ok ("Name " +:+ repeat_string "." 50 +:+ " Ada!")
  /\ lookupValue {[ "name" := "Ada" ]} " name " = VString "Ada"
  /\ populate {[ "name" := "Ada" ]} " name " = repeat_string "." 50 +:+ " Ada"
  /\ populate {[ "name" := "Ada" ]} "name" = repeat_string "." 52 +:+ " Ada".
Proof.
  destruct replacement_text as (Hat & _ & Hpad).
  assert (Hplain : plainLookup {[ "name" := "Ada" ]} "name")
    by (left; exists "Ada"; vm_compute; reflexivity).
  split.
  - rewrite (Hat {[ templatePath := "Name {{ name }}!" ]} {[ "name" := "Ada" ]}
               "Name {{ name }}!"
               [Literal "N"; Literal "a"; Literal "m"; Literal "e"; Literal " "]
               " name " [Literal "!"]);
      [vm_compute; reflexivity..|].
    left. exists "Ada". vm_compute. reflexivity.
  - destruct (Hpad {[ "name" := "Ada" ]} " " "name" " ") as (_ & Hv & Hk & Hp & _).
    + repeat constructor.
    + repeat constructor.
    + exact Hplain.
    + split; [exact Hv|]. split; [exact Hp|exact Hk].
Defined.

(** C10 as stated fails at its last clause: a key of sixty characters
    leaves no dots with or without white space around it, so the padded
    placeholder does not get a shorter run. *)
Lemma padded_long_key_not_shorter :
  let key := repeat_string "k" 60 in
  allWhiteSpace " "
  /\ scan ("{{" +:+ key +:+ "}}") = [Placeholder key]
  /\ scan ("{{ " +:+ key +:+ "}}") = [Placeholder (" " +:+ key)]
  /\ trim (" " +:+ key) = key
  /\ generatePopulatedTemplate {[ templatePath := "{{" +:+ key +:+ "}}" ]} ∅ = Ok " N/A"
  /\ generatePopulatedTemplate {[ templatePath := "{{ " +:+ key +:+ "}}" ]} ∅ = Ok " N/A"
  /\ ~ (repeatCount (dotCount (" " +:+ key) (lookupValue ∅ (" " +:+ key)))
        < repeatCount (dotCount key (lookupValue ∅ key)))%nat.
Proof.
  split; [repeat constructor|].
  repeat (split; [vm_compute; reflexivity|]).
  vm_compute. lia.
Qed.

End RendererClaims.

(** * The scripts that call the remote service *)

Module ScriptFacts.

Section Generic.

Context {W : Type}.
Variable perform : request -> W -> reply * W.

Lemma bind_run {A B} (m : script W A) (k : A -> script W B) st :
  (m ≫= k) st
  = match m st with
    | (Ok a, st') => k a st'
    | (Throw e, st') => (Throw e, st')
    | (OutOfFuel, st') => (OutOfFuel, st')
    end.
Proof. reflexivity. Qed.

Lemma allFulfilled_app l l' : allFulfilled l -> allFulfilled l' -> allFulfilled (l ++ l').
Proof. apply Forall_app_2. Qed.

Lemma failsFast_ret {A} (a : A) : failsFast (mret a : script W A).
Proof. intros st. exists []. simpl. rewrite app_nil_r. split; [done|constructor]. Qed.

Lemma failsFast_lift {A} (o : outcome A) : failsFast (lift o : script W A).
Proof.
  intros st. exists []. simpl. rewrite app_nil_r. split; [done|].
  destruct o; [constructor|left; constructor|constructor].
Qed.

Lemma failsFast_throw {A} e : failsFast (throw e : script W A).
Proof. intros st. exists []. simpl. rewrite app_nil_r. split; [done|]. left. constructor. Qed.

Lemma failsFast_sleep ms : failsFast (sleep ms : script W unit).
Proof. intros st. exists []. simpl. rewrite app_nil_r. split; [done|constructor]. Qed.

Lemma failsFast_await r : failsFast (await perform r).
Proof.
  intros st. unfold await. destruct (perform r (world st)) as [a w].
  exists [(r, a)]. destruct a as [v|e]; simpl; (split; [done|]).
  - by repeat constructor.
  - right. exists [], r. split; [done|constructor].
Qed.

Lemma failsFast_bind {A B} (m : script W A) (k : A -> script W B) :
  failsFast m -> (forall a, failsFast (k a)) -> failsFast (m ≫= k).
Proof.
  intros Hm Hk st. rewrite bind_run. destruct (Hm st) as (new1 & Hlog1 & Hout1).
  destruct (m st) as [[a|e|] st1]; simpl in *.
  - destruct (Hk a st1) as (new2 & Hlog2 & Hout2).
    exists (new1 ++ new2). rewrite Hlog2, Hlog1, app_assoc. split; [done|].
    destruct ((k a st1).1) as [b|e|].
    + by apply allFulfilled_app.
    + destruct Hout2 as [Hc|(pre & r & -> & Hc)].
      * left. by apply allFulfilled_app.
      * right. exists (new1 ++ pre), r. rewrite app_assoc. split; [done|].
        by apply allFulfilled_app.
    + by apply allFulfilled_app.
  - exists new1. done.
  - exists new1. done.
Qed.

Lemma failsFast_forOf {A B} (xs : list B) (body : A -> B -> script W A) acc :
  (forall a x, failsFast (body a x)) -> failsFast (forOf xs body acc).
Proof.
  intros Hbody. revert acc. induction xs as [|x xs IH]; intros acc; simpl.
  - apply failsFast_ret.
  - apply failsFast_bind; [apply Hbody|apply IH].
Qed.

Lemma failsFast_propagates {A} (m : script W A) : failsFast m -> propagatesRejections m.
Proof.
  intros Hm st pre r e post Hlog. destruct (Hm st) as (new & Hlog' & Hout).
  rewrite Hlog' in Hlog. apply app_inv_head in Hlog. subst new.
  assert (Hno : ~ allFulfilled (pre ++ (r, Rejected e) :: post)).
  { intros H. apply Forall_app in H as [_ H]. by inversion H. }
  destruct ((m st).1) as [a|e'|]; try done.
  destruct Hout as [Hc|(pre' & r' & Heq & Hc)]; [done|].
  destruct post as [|p post] using rev_ind.
  - apply app_inj_tail in Heq as [_ [= _ ->]]. done.
  - clear IHpost. exfalso. rewrite app_comm_cons, app_assoc in Heq.
    apply app_inj_tail in Heq as [<- _].
    apply Forall_app in Hc as [_ Hc]. by inversion Hc.
Qed.

Lemma failsFast_fetchContributions now tza username since :
  failsFast (fetchContributions perform now tza username since).
Proof.
  unfold fetchContributions. apply failsFast_bind; [apply failsFast_lift|].
  intros ranges. apply failsFast_forOf. intros [contributions calls] date.
  apply failsFast_bind; [apply failsFast_await|]. intros response.
  apply failsFast_bind; [|intros; apply failsFast_ret].
  destruct response; first [apply failsFast_ret|apply failsFast_throw].
Qed.

Lemma failsFast_fetchLinesOfCode now tza username since :
  failsFast (fetchLinesOfCode perform now tza username since).
Proof.
  unfold fetchLinesOfCode. apply failsFast_bind; [apply failsFast_lift|].
  intros ranges. apply failsFast_forOf. intros [[additions deletions] calls] date.
  apply failsFast_bind; [apply failsFast_await|]. intros found.
  apply failsFast_bind.
  { destruct found; first [apply failsFast_ret|apply failsFast_throw]. }
  intros commits. apply failsFast_bind.
  - apply failsFast_forOf. intros [[a d] c] commit.
    apply failsFast_bind; [apply failsFast_await|]. intros fullCommit.
    apply failsFast_bind.
    { destruct fullCommit; first [apply failsFast_ret|apply failsFast_throw]. }
    intros [??]. apply failsFast_ret.
  - intros totals. apply failsFast_bind; [apply failsFast_sleep|].
    intros _. apply failsFast_ret.
Qed.

Lemma failsFast_commitPopulatedTemplate username populatedTemplate :
  failsFast (commitPopulatedTemplate perform username populatedTemplate).
Proof.
  unfold commitPopulatedTemplate. apply failsFast_bind; [apply failsFast_await|].
  intros readme. apply failsFast_bind.
  { destruct readme; first [apply failsFast_ret|apply failsFast_throw]. }
  intros sha. apply failsFast_bind; [apply failsFast_await|].
  intros _. apply failsFast_ret.
Qed.

(** ** The loop of [fetchContributions] *)

Lemma fetchContributions_unfold now tza username since :
  fetchContributions perform now tza username since
  = (yearlyDateRanges ←
       lift (calculateDateRanges now "year" (JSDate.getFullYear tza since) (Some 0));
     forOf yearlyDateRanges (contributionsBody perform username) (0, 0)).
Proof. reflexivity. Qed.

Lemma forOf_cons {A B} (x : B) xs (body : A -> B -> script W A) acc :
  forOf (x :: xs) body acc = (acc' ← body acc x; forOf xs body acc').
Proof. reflexivity. Qed.

Lemma contributionsBody_run username acc cnt date st :
  contributionsBody perform username (acc, cnt) date st
  = let r := GraphQL username (from date) (to date) in
    match perform r (world st) with
    | (Fulfilled (ContributionsData n), w) =>
        (Ok (acc + n, cnt + 1), logged st r (Fulfilled (ContributionsData n)) w)
    | (Fulfilled v, w) =>
        (Throw (TypeError "Cannot read properties of undefined"), logged st r (Fulfilled v) w)
    | (Rejected e, w) => (Throw e, logged st r (Rejected e) w)
    end.
Proof.
  unfold contributionsBody, logged. rewrite bind_run. unfold await. cbv zeta.
  destruct (perform _ (world st)) as [[v|e] w]; [|done]. by destruct v.
Qed.

Lemma contributions_loop username ranges :
  forall acc cnt st total count st',
    forOf ranges (contributionsBody perform username) (acc, cnt) st = (Ok (total, count), st') ->
    exists totals,
      length totals = length ranges
      /\ log st' = log st ++ contributionQueries username ranges totals
      /\ total = acc + sumZ totals
      /\ count = cnt + Z.of_nat (length ranges).
Proof.
  induction ranges as [|date ranges IH]; intros acc cnt st total count st' Hrun.
  - injection Hrun as <- <- <-. exists []. simpl. rewrite app_nil_r. repeat split; lia.
  - rewrite forOf_cons, bind_run, contributionsBody_run in Hrun. cbv zeta in Hrun.
    destruct (perform _ (world st)) as [[v|e] w]; [|done].
    destruct v as [n| | | |]; try done.
    apply IH in Hrun as (totals & Hlen & Hlog & -> & ->). simpl in Hlog.
    exists (n :: totals). unfold contributionQueries in *. simpl.
    rewrite Hlog, <- app_assoc. simpl.
    repeat split; [by rewrite Hlen|lia|lia].
Qed.

(** ** The loops of [fetchLinesOfCode] *)

Lemma fetchLinesOfCode_unfold now tza username since :
  fetchLinesOfCode perform now tza username since
  = (monthlyDateRanges ←
       lift (calculateDateRanges now "month" (JSDate.getFullYear tza since)
               (JSDate.getMonth tza since));
     forOf monthlyDateRanges (rangeBody perform username) (0, 0, 0)).
Proof. reflexivity. Qed.

Lemma countIf_app p l l' : countIf p (l ++ l') = (countIf p l + countIf p l')%nat.
Proof. unfold countIf. by rewrite List.filter_app, length_app. Qed.

Lemma commitBody_run a d c commit st :
  commitBody perform (a, d, c) commit st
  = let r := Request ("GET " +:+ url commit) in
    match perform r (world st) with
    | (Fulfilled (CommitData x y), w) =>
        (Ok (a + x, d + y, c + 1), logged st r (Fulfilled (CommitData x y)) w)
    | (Fulfilled v, w) =>
        (Throw (TypeError "Cannot read properties of undefined"), logged st r (Fulfilled v) w)
    | (Rejected e, w) => (Throw e, logged st r (Rejected e) w)
    end.
Proof.
  unfold commitBody, logged. rewrite bind_run. unfold await. cbv zeta.
  destruct (perform _ (world st)) as [[v|e] w]; [|done]. by destruct v.
Qed.

Lemma rangeBody_run username a d c date st :
  rangeBody perform username (a, d, c) date st
  = let r := SearchCommits (searchQuery username date) 100 in
    match perform r (world st) with
    | (Fulfilled (CommitPages pages), w) =>
        match forOf (concat pages) (commitBody perform) (a, d, c + 1)
                (logged st r (Fulfilled (CommitPages pages)) w) with
        | (Ok totals, st') =>
            (Ok totals,
             {| world := world st'; log := log st'; slept := slept st' + 2000 |})
        | (Throw e, st') => (Throw e, st')
        | (OutOfFuel, st') => (OutOfFuel, st')
        end
    | (Fulfilled v, w) =>
        (Throw (TypeError "commits is not iterable"), logged st r (Fulfilled v) w)
    | (Rejected e, w) => (Throw e, logged st r (Rejected e) w)
    end.
Proof.
  unfold rangeBody, logged, searchQuery. cbv zeta. rewrite bind_run. unfold await.
  destruct (perform _ (world st)) as [[v|e] w]; [|done].
  by destruct v as [|pages| | |].
Qed.

Lemma commits_loop commits :
  forall a d c st a' d' c' st',
    forOf commits (commitBody perform) (a, d, c) st = (Ok (a', d', c'), st') ->
    exists new,
      log st' = log st ++ new /\ slept st' = slept st
      /\ c' = c + Z.of_nat (length commits)
      /\ countIf isSearch new = 0%nat
      /\ countIf isDetail new = length commits
      /\ sum_list_with commitsFound new = 0%nat.
Proof.
  induction commits as [|commit commits IH]; intros a d c st a' d' c' st' Hrun.
  - injection Hrun as <- <- <- <-. exists []. simpl. rewrite app_nil_r. repeat split; lia.
  - rewrite forOf_cons, bind_run, commitBody_run in Hrun. cbv zeta in Hrun.
    destruct (perform _ (world st)) as [[v|e] w]; [|done].
    destruct v as [| |x y| |]; try done.
    apply IH in Hrun as (new & Hlog & Hsl & -> & Hs & Hd & Hf). simpl in Hlog, Hsl.
    exists ([(Request ("GET " +:+ url commit), Fulfilled (CommitData x y))] ++ new).
    rewrite Hlog, <- app_assoc, !countIf_app, sum_list_with_app, Hs, Hd, Hf.
    simpl. repeat split; try done; lia.
Qed.

Lemma ranges_loop username ranges :
  forall a d c st a' d' c' st',
    forOf ranges (rangeBody perform username) (a, d, c) st = (Ok (a', d', c'), st') ->
    exists new,
      log st' = log st ++ new
      /\ slept st' = slept st + 2000 * Z.of_nat (length ranges)
      /\ c' = c + Z.of_nat (countIf isSearch new) + Z.of_nat (countIf isDetail new)
      /\ countIf isSearch new = length ranges
      /\ countIf isDetail new = sum_list_with commitsFound new.
Proof.
  induction ranges as [|date ranges IH]; intros a d c st a' d' c' st' Hrun.
  - injection Hrun as <- <- <- <-. exists []. rewrite app_nil_r.
    unfold countIf. simpl. repeat split; lia.
  - rewrite forOf_cons, bind_run, rangeBody_run in Hrun. cbv zeta in Hrun.
    destruct (perform _ (world st)) as [[v|e] w]; [|done].
    destruct v as [|pages| | |]; try done.
    destruct (forOf (concat pages) (commitBody perform) _ _) as [[[[a1 d1] c1]|e|] st1] eqn:Hin;
      [|done..].
    apply commits_loop in Hin as (new1 & Hlog1 & Hsl1 & -> & Hs1 & Hd1 & Hf1).
    apply IH in Hrun as (new2 & Hlog2 & Hsl2 & -> & Hs2 & Hd2).
    simpl in Hlog1, Hsl1, Hlog2, Hsl2.
    exists ([(SearchCommits (searchQuery username date) 100,
              Fulfilled (CommitPages pages))] ++ new1 ++ new2).
    rewrite Hlog2, Hlog1, Hsl2, Hsl1, <- !app_assoc.
    rewrite !countIf_app, !sum_list_with_app, Hs1, Hd1, Hs2, Hd2, Hf1.
    simpl. repeat split; try done; lia.
Qed.

(** ** The two calls of [commitPopulatedTemplate] *)

Lemma commitPopulatedTemplate_run username populatedTemplate st :
  commitPopulatedTemplate perform username populatedTemplate st
  = let r1 := GetReadme username username in
    match perform r1 (world st) with
    | (Fulfilled v, w) =>
        if hasData v then
          let r2 := CreateOrUpdateFileContents username username "readme.md"
                      "chore: update generated content"
                      (base64 (utf8 populatedTemplate)) (shaIn v) in
          let st1 := logged st r1 (Fulfilled v) w in
          match perform r2 w with
          | (Fulfilled v', w') => (Ok 2, logged st1 r2 (Fulfilled v') w')
          | (Rejected e, w') => (Throw e, logged st1 r2 (Rejected e) w')
          end
        else
          (Throw (TypeError "Cannot destructure property 'sha' of undefined"),
           logged st r1 (Fulfilled v) w)
    | (Rejected e, w) => (Throw e, logged st r1 (Rejected e) w)
    end.
Proof.
  unfold commitPopulatedTemplate, logged. cbv zeta. rewrite bind_run. unfold await at 1.
  destruct (perform _ (world st)) as [[v|e] w]; [|done].
  rewrite bind_run. unfold shaOf. destruct (hasData v); [|done].
  change ((mret (shaIn v) : script W (option string)) ?st0) with (Ok (shaIn v), st0).
  cbv beta iota.
  rewrite bind_run. unfold await. cbn [world].
  by destruct (perform _ w) as [[v'|e] w'].
Qed.

End Generic.

Lemma contributions_loop_scripted username ranges :
  forall totals rest acc cnt lg sl,
    length totals = length ranges ->
    exists st',
      forOf ranges (contributionsBody scripted username) (acc, cnt)
        {| world := mockTotals totals ++ rest; log := lg; slept := sl |}
      = (Ok (acc + sumZ totals, cnt + Z.of_nat (length ranges)), st').
Proof.
  induction ranges as [|date ranges IH]; intros [|t totals] rest acc cnt lg sl Hlen;
    try done.
  - eexists. simpl. rewrite !Z.add_0_r. reflexivity.
  - rewrite forOf_cons, bind_run, contributionsBody_run. simpl.
    destruct (IH totals rest (acc + t) (cnt + 1)
                (lg ++ [(GraphQL username (from date) (to date),
                         Fulfilled (ContributionsData t))]) sl) as (st' & Hrun).
    { simpl in Hlen. lia. }
    exists st'. unfold logged. simpl. rewrite Hrun. do 3 f_equal; lia.
Qed.

End ScriptFacts.

(** * The aggregators and the publisher *)

Section ScriptClaims.
Import ScriptFacts.

(** C6.  Over yearly ranges answered by any sequence of scalar totals, one
    per range, the contribution aggregator returns the sum of the totals
    and a call count equal to the number of ranges; over the mocked
    responses 3, 5, 7 it returns total 15 and call count 3.  Against any
    service, a run that returns has asked one query per yearly range, with
    the login and the range's two ends, and returns the sum of the totals it
    was answered and the number of ranges. *)
Theorem contributions_total_and_calls now tza username since ranges :
  calculateDateRanges now "year" (JSDate.getFullYear tza since) (Some 0) = Ok ranges ->
  (forall totals,
     length totals = length ranges ->
     (fetchContributions scripted now tza username since (start (mockTotals totals))).1
     = Ok (sumZ totals, Z.of_nat (length ranges)))
  /\ (length ranges = 3%nat ->
      (fetchContributions scripted now tza username since (start (mockTotals [3; 5; 7]))).1
      = Ok (15, 3))
  /\ (forall (W : Type) (perform : request -> W -> reply * W) st total count st',
        fetchContributions perform now tza username since st = (Ok (total, count), st') ->
        exists totals,
          length totals = length ranges
          /\ log st' = log st ++ contributionQueries username ranges totals
          /\ total = sumZ totals
          /\ count = Z.of_nat (length ranges)).
Proof.
  intros Hranges.
  assert (Hmock : forall totals,
     length totals = length ranges ->
     (fetchContributions scripted now tza username since (start (mockTotals totals))).1
     = Ok (sumZ totals, Z.of_nat (length ranges))).
  { intros totals Hlen. rewrite fetchContributions_unfold, bind_run. unfold lift.
    rewrite Hranges.
    destruct (contributions_loop_scripted username ranges totals [] 0 0 [] 0 Hlen)
      as (st' & Hrun).
    unfold start. rewrite app_nil_r in Hrun. by rewrite Hrun. }
  split; [exact Hmock|]. split.
  - intros H3. rewrite (Hmock [3; 5; 7]) by (by rewrite H3). by rewrite H3.
  - intros W perform st total count st' Hrun.
    rewrite fetchContributions_unfold, bind_run in Hrun. unfold lift in Hrun.
    rewrite Hranges in Hrun.
    apply contributions_loop in Hrun as (totals & Hlen & Hlog & -> & ->).
    exists totals. repeat split; try done; lia.
Qed.

(** Witness for C6: an account created in March 2023, the clock in June
    2025, so three yearly ranges; the mocked totals 3, 5, 7. *)
Lemma contributions_total_and_calls_witness :
  (fetchContributions scripted 1750000000000 0 "octocat" (Some 1680000000000)
     (start (mockTotals [3; 5; 7]))).1
  = Ok (15, 3).
Proof.
  refine (proj1 (proj2 (contributions_total_and_calls 1750000000000 0 "octocat"
                          (Some 1680000000000)
                          (rangesFrom 1672531200000
                             [1704067200000; 1735689600000; 1767225600000]) _)) _).
  - vm_compute. reflexivity.
  - reflexivity.
Defined.

(** C2 (as amended).  The call count the lines-of-code aggregator returns
    is one unit per commit search, that is one per month range however many
    pages the pagination fetched, plus one unit per per-commit detail fetch,
    of which there is one for each commit the searches found: a month range
    whose search returns n commits contributes 1 + n units. *)
Theorem lines_call_count {W : Type} (perform : request -> W -> reply * W)
    now tza username since st additions deletions count st' :
  fetchLinesOfCode perform now tza username since st
    = (Ok (additions, deletions, count), st') ->
  exists ranges new,
    calculateDateRanges now "month" (JSDate.getFullYear tza since)
      (JSDate.getMonth tza since) = Ok ranges
    /\ log st' = log st ++ new
    /\ count = Z.of_nat (countIf isSearch new) + Z.of_nat (countIf isDetail new)
    /\ countIf isSearch new = length ranges
    /\ countIf isDetail new = sum_list_with commitsFound new.
Proof.
  intros Hrun. rewrite fetchLinesOfCode_unfold, bind_run in Hrun. unfold lift in Hrun.
  destruct (calculateDateRanges now "month" _ _) as [ranges|e|] eqn:Hranges; [|done..].
  apply ranges_loop in Hrun as (new & Hlog & _ & -> & Hs & Hd).
  exists ranges, new. repeat split; try done; lia.
Qed.

(** Witness for C2: one month range, whose search finds two commits on one
    page: three units. *)
Lemma lines_call_count_witness :
  exists ranges new,
    calculateDateRanges 1750000000000 "month" (JSDate.getFullYear 0 (Some 1749000000000))
      (JSDate.getMonth 0 (Some 1749000000000)) = Ok ranges
    /\ log (fetchLinesOfCode (commitService [mockCommits 1 2] (fun _ => Some (10, 2)))
              1750000000000 0 "octocat" (Some 1749000000000) (start tt)).2
       = log (start tt) ++ new
    /\ 3 = Z.of_nat (countIf isSearch new) + Z.of_nat (countIf isDetail new)
    /\ countIf isSearch new = length ranges
    /\ countIf isDetail new = sum_list_with commitsFound new.
Proof.
  apply (lines_call_count (commitService [mockCommits 1 2] (fun _ => Some (10, 2)))
           1750000000000 0 "octocat" (Some 1749000000000) (start tt) 20 4 3).
  vm_compute. reflexivity.
Defined.

(** C2 as stated fails: when the one search of a run spans two pages, of
    100 commits and of 1 commit, pagination fetches two pages and there are
    101 detail fetches, 103 fetches in all, but the count returned is 102. *)
Lemma lines_call_count_ignores_pages :
  let service := commitService [mockCommits 1 100; mockCommits 101 1] (fun _ => Some (1, 0)) in
  let result := fetchLinesOfCode service 1750000000000 0 "octocat" (Some 1749000000000)
                  (start tt) in
  result.1 = Ok (101, 0, 102)
  /\ countIf isSearch (log result.2) = 1%nat
  /\ countIf isDetail (log result.2) = 101%nat
  /\ sum_list_with fetchesOf (log result.2) = 103%nat
  /\ result.1 <> Ok (101, 0, Z.of_nat (sum_list_with fetchesOf (log result.2))).
Proof.
  repeat (split; [vm_compute; reflexivity|]). vm_compute. discriminate.
Qed.

(** C3 (as amended).  Run over two month ranges against a service whose
    every monthly search returns one page of the same two commits, with
    statistics +10/-2 and +3/-1, the aggregator returns additions 26 and
    deletions 6 (each month adds 13 and 3), with call count 6. *)
Theorem lines_two_mocked_months now tza username since month1 month2 commit1 commit2 details :
  calculateDateRanges now "month" (JSDate.getFullYear tza since)
    (JSDate.getMonth tza since) = Ok [month1; month2] ->
  details ("GET " +:+ url commit1) = Some (10, 2) ->
  details ("GET " +:+ url commit2) = Some (3, 1) ->
  (fetchLinesOfCode (commitService [[commit1; commit2]] details)
     now tza username since (start tt)).1
  = Ok (26, 6, 6).
Proof.
  intros Hranges H1 H2.
  set (service := commitService [[commit1; commit2]] details).
  assert (Hcommit : forall commit x y a d c st,
            details ("GET " +:+ url commit) = Some (x, y) ->
            exists st', commitBody service (a, d, c) commit st
                        = (Ok (a + x, d + y, c + 1), st')).
  { intros commit x y a d c st Hd. rewrite commitBody_run. cbv zeta.
    unfold service, commitService. rewrite Hd. eauto. }
  assert (Hmonth : forall date a d c st,
            exists st', rangeBody service username (a, d, c) date st
                        = (Ok (a + 10 + 3, d + 2 + 1, c + 1 + 1 + 1), st')).
  { intros date a d c st. rewrite rangeBody_run. cbv zeta.
    unfold service at 1, commitService at 1.
    change (concat [[commit1; commit2]]) with [commit1; commit2].
    rewrite forOf_cons, bind_run.
    edestruct (Hcommit commit1 10 2 a d (c + 1)) as (st1 & ->); [exact H1|].
    rewrite forOf_cons, bind_run.
    edestruct (Hcommit commit2 3 1 (a + 10) (d + 2) (c + 1 + 1)) as (st2 & ->); [exact H2|].
    eauto. }
  rewrite fetchLinesOfCode_unfold, bind_run. unfold lift. rewrite Hranges.
  fold service. rewrite forOf_cons, bind_run.
  edestruct (Hmonth month1 0 0 0) as (st1 & ->).
  rewrite forOf_cons, bind_run.
  edestruct (Hmonth month2 (0 + 10 + 3) (0 + 2 + 1) (0 + 1 + 1 + 1)) as (st2 & ->).
  reflexivity.
Qed.

(** Witness for C3: a start in May 2025 with the clock in June 2025. *)
Lemma lines_two_mocked_months_witness :
  (fetchLinesOfCode
     (commitService [mockCommits 1 2]
        (fun route =>
           ({[ "GET https://api.github.com/commits/1" := (10, 2);
               "GET https://api.github.com/commits/2" := (3, 1) ]}
              : gmap string (Z * Z)) !! route))
     1750000000000 0 "octocat" (Some 1747000000000) (start tt)).1
  = Ok (26, 6, 6).
Proof.
  apply (lines_two_mocked_months 1750000000000 0 "octocat" (Some 1747000000000)
           (renderRange (1746057600000, 1748736000000))
           (renderRange (1748736000000, 1751328000000))
           {| url := "https://api.github.com/commits/1" |}
           {| url := "https://api.github.com/commits/2" |}).
  - vm_compute. reflexivity.
  - vm_compute. reflexivity.
  - vm_compute. reflexivity.
Defined.

(** C3 as stated fails: over two mocked monthly pages of two commits each,
    with statistics +10/-2 and +3/-1, the aggregator returns additions 26
    and deletions 6, not 13 and 3.  It does so whether the two pages are the
    pages of two month ranges or the two pages of one month's search. *)
Lemma lines_two_mocked_months_not_13_3 :
  let details := fun route =>
    ({[ "GET https://api.github.com/commits/1" := (10, 2);
        "GET https://api.github.com/commits/2" := (3, 1) ]}
       : gmap string (Z * Z)) !! route in
  let result :=
    fetchLinesOfCode (commitService [mockCommits 1 2] details)
      1750000000000 0 "octocat" (Some 1747000000000) (start tt) in
  let result' :=
    fetchLinesOfCode (commitService [mockCommits 1 2; mockCommits 1 2] details)
      1750000000000 0 "octocat" (Some 1749000000000) (start tt) in
  calculateDateRanges 1750000000000 "month" (JSDate.getFullYear 0 (Some 1747000000000))
    (JSDate.getMonth 0 (Some 1747000000000))
  = Ok [ {| from := "2025-05-01T00:00:00.000Z"; to := "2025-06-01T00:00:00.000Z" |};
         {| from := "2025-06-01T00:00:00.000Z"; to := "2025-07-01T00:00:00.000Z" |} ]
  /\ countIf isSearch (log result.2) = 2%nat
  /\ countIf isDetail (log result.2) = 4%nat
  /\ result.1 = Ok (26, 6, 6)
  /\ result'.1 = Ok (26, 6, 5)
  /\ ~ exists count, result.1 = Ok (13, 3, count).
Proof.
  repeat (split; [vm_compute; reflexivity|]).
  intros (count & H). vm_compute in H. discriminate.
Qed.

(** C8.  In each aggregator and in the publisher, a remote call that is
    rejected is the last call made, and the script completes by throwing
    the error the call was rejected with: no retry, no fallback result.  In
    particular, when another writer has replaced the document between the
    publisher's read and its write, so that the version marker it sends is
    stale, the publisher throws the store's conflict error after exactly
    those two calls. *)
Theorem remote_failures_propagate {W : Type} (perform : request -> W -> reply * W)
    now tza username since populatedTemplate :
  propagatesRejections (fetchContributions perform now tza username since)
  /\ propagatesRejections (fetchLinesOfCode perform now tza username since)
  /\ propagatesRejections (commitPopulatedTemplate perform username populatedTemplate)
  /\ (forall current newer rest,
        current <> newer ->
        let result :=
          commitPopulatedTemplate documentStore username populatedTemplate
            (start {| version := current; others := newer :: rest |}) in
        result.1 = Throw (HttpError 409 "readme.md does not match")
        /\ log result.2
           = [ (GetReadme username username, Fulfilled (ReadmeData current));
               (CreateOrUpdateFileContents username username "readme.md"
                  "chore: update generated content"
                  (base64 (utf8 populatedTemplate)) (Some current),
                Rejected (HttpError 409 "readme.md does not match")) ]).
Proof.
  split; [apply failsFast_propagates, failsFast_fetchContributions|].
  split; [apply failsFast_propagates, failsFast_fetchLinesOfCode|].
  split; [apply failsFast_propagates, failsFast_commitPopulatedTemplate|].
  intros current newer rest Hne result. subst result.
  rewrite commitPopulatedTemplate_run. unfold start. cbv zeta.
  cbn [world documentStore interfere others version hasData shaIn].
  apply String.eqb_neq in Hne. rewrite Hne. done.
Qed.

(** Witness for C8: the document moves from version [v1] to [v2] between
    the publisher's two calls. *)
Lemma remote_failures_propagate_witness :
  (commitPopulatedTemplate documentStore "octocat" "hello"
     (start {| version := "v1"; others := ["v2"] |})).1
  = Throw (HttpError 409 "readme.md does not match").
Proof.
  refine (proj1 (proj2 (proj2 (proj2
            (remote_failures_propagate documentStore 0 0 "octocat" None "hello")))
            "v1" "v2" [] _)).
  discriminate.
Defined.

End ScriptClaims.

(** * More about the calendar arithmetic behind the chunker *)

Module CalendarFacts.
Import JSDate JSDateFacts ChunkerFacts.

Lemma UTC_first y m :
  UTC (Some y) (Some m) (Some 1) = TimeClip (firstOfMonth (MakeFullYear y) m).
Proof. unfold UTC, firstOfMonth. reflexivity. Qed.

Lemma Day_firstOfMonth y m : Day (firstOfMonth y m) = MakeDay y m 1.
Proof. rewrite firstOfMonth_day. unfold Day, msPerDay. zdiv. Qed.

Lemma MakeDay_normal y m :
  MakeDay y m 1
  = DayFromYear (y + m / 12) + monthStart (isLeap (y + m / 12)) (m mod 12).
Proof. unfold MakeDay. cbv zeta. lia. Qed.

(** [Date.UTC] followed by the getters gives the calendar fields back, the
    month carried into the year. *)
Lemma YearFromTime_firstOfMonth y m : YearFromTime (firstOfMonth y m) = y + m / 12.
Proof.
  unfold YearFromTime. rewrite Day_firstOfMonth, MakeDay_normal.
  apply YearFromDay_unique. rewrite DayFromYear_succ.
  pose proof (monthStart_bounds (isLeap (y + m / 12)) (m mod 12)).
  pose proof (DaysInYear_bounds (y + m / 12)). lia.
Qed.

Lemma DayWithinYear_firstOfMonth y m :
  DayWithinYear (firstOfMonth y m) = monthStart (isLeap (y + m / 12)) (m mod 12).
Proof.
  unfold DayWithinYear. rewrite YearFromTime_firstOfMonth, Day_firstOfMonth, MakeDay_normal.
  lia.
Qed.

Lemma MonthFromTime_firstOfMonth y m : MonthFromTime (firstOfMonth y m) = m mod 12.
Proof.
  unfold MonthFromTime, InLeapYear.
  rewrite DayWithinYear_firstOfMonth, YearFromTime_firstOfMonth.
  pose proof (Z.mod_pos_bound m 12 ltac:(lia)) as Hm.
  generalize dependent (m mod 12). intros mn Hm.
  assert (Hcases : mn = 0 \/ mn = 1 \/ mn = 2 \/ mn = 3 \/ mn = 4 \/ mn = 5 \/ mn = 6
                   \/ mn = 7 \/ mn = 8 \/ mn = 9 \/ mn = 10 \/ mn = 11) by lia.
  destruct (isLeap (y + m / 12));
    repeat (destruct Hcases as [-> | Hcases]; [reflexivity|]); by subst.
Qed.


(** A calendar month has from 28 to 31 days. *)
Lemma MakeDay_next y j : 28 <= MakeDay y (j + 1) 1 - MakeDay y j 1 <= 31.
Proof.
  rewrite !MakeDay_normal.
  pose proof (Z.mod_pos_bound j 12 ltac:(lia)) as Hm.
  destruct (Z.eq_dec (j mod 12) 11) as [H11 | Hne].
  - replace ((j + 1) / 12) with (j / 12 + 1) by zdiv.
    replace ((j + 1) mod 12) with 0 by zdiv. rewrite H11.
    replace (y + (j / 12 + 1)) with (y + j / 12 + 1) by lia.
    rewrite DayFromYear_succ. unfold DaysInYear, monthStart.
    destruct (isLeap (y + j / 12)); destruct (isLeap (y + j / 12 + 1)); simpl; lia.
  - replace ((j + 1) / 12) with (j / 12) by zdiv.
    replace ((j + 1) mod 12) with (j mod 12 + 1) by zdiv.
    generalize dependent (j mod 12). intros mn Hm Hne.
    assert (Hcases : mn = 0 \/ mn = 1 \/ mn = 2 \/ mn = 3 \/ mn = 4 \/ mn = 5 \/ mn = 6
                     \/ mn = 7 \/ mn = 8 \/ mn = 9 \/ mn = 10) by lia.
    destruct (isLeap (y + j / 12));
      repeat (destruct Hcases as [-> | Hcases]; [unfold monthStart; simpl; lia|]);
      subst; unfold monthStart; simpl; lia.
Qed.

Lemma firstOfMonth_next y j :
  28 * msPerDay <= firstOfMonth y (j + 1) - firstOfMonth y j <= 31 * msPerDay.
Proof.
  rewrite !firstOfMonth_day. pose proof (MakeDay_next y j). unfold msPerDay. lia.
Qed.

Lemma MakeFullYear_id y : 100 <= y -> MakeFullYear y = y.
Proof. unfold MakeFullYear. intros. destruct (Z.leb_spec y 99); [lia|]. by rewrite andb_false_r. Qed.

(** From a month start in a year 100 or later, the month loop moves to the
    start of the next month. *)
Lemma monthAfter_firstOfMonth y j :
  100 <= y + j / 12 -> monthAfter (firstOfMonth y j) = firstOfMonth y (j + 1).
Proof.
  intros Hy. unfold monthAfter.
  rewrite YearFromTime_firstOfMonth, MonthFromTime_firstOfMonth, MakeFullYear_id by done.
  unfold firstOfMonth. f_equal. rewrite !MakeDay_normal.
  pose proof (Z.mod_pos_bound j 12 ltac:(lia)) as Hm.
  replace (y + j / 12 + (j mod 12 + 1) / 12) with (y + (j + 1) / 12) by zdiv.
  replace ((j mod 12 + 1) mod 12) with ((j + 1) mod 12) by zdiv. done.
Qed.

(** From 1 January of a year 99 or later, the year loop moves to 1 January
    of the next year. *)
Lemma yearAfter_TimeFromYear y :
  99 <= y -> yearAfter (TimeFromYear y) = TimeFromYear (y + 1).
Proof.
  intros Hy. unfold yearAfter.
  rewrite YearFromTime_TimeFromYear, MakeFullYear_id by lia. apply firstOfMonth_january.
Qed.

Lemma TimeFromYear_lt y y' : y < y' -> TimeFromYear y < TimeFromYear y'.
Proof. intros H. pose proof (DayFromYear_lt y y' H). unfold TimeFromYear, msPerDay. lia. Qed.

Lemma TimeFromYear_le_YearFromTime y t : TimeFromYear y <= t <-> y <= YearFromTime t.
Proof.
  pose proof (YearFromTime_spec t) as [Hlo Hhi]. split; intros H.
  - destruct (Z.le_gt_cases y (YearFromTime t)) as [|Hgt]; [done|].
    destruct (Z.eq_dec y (YearFromTime t + 1)) as [-> | Hne]; [lia|].
    pose proof (TimeFromYear_lt (YearFromTime t + 1) y ltac:(lia)). lia.
  - destruct (Z.eq_dec y (YearFromTime t)) as [-> | Hne]; [done|].
    pose proof (TimeFromYear_lt y (YearFromTime t) ltac:(lia)). lia.
Qed.

(** An instant lies in its own calendar month. *)
Lemma startOfMonthOf_spec t :
  startOfMonthOf t <= t
  < firstOfMonth (YearFromTime t) (MonthFromTime t + 1).
Proof.
  unfold startOfMonthOf. rewrite !firstOfMonth_day.
  pose proof (MonthFromTime_spec t) as (Hm & Hlo & _).
  pose proof (next_month_after t) as [Hnext _].
  rewrite MakeDay_first by lia. unfold DayWithinYear in Hlo.
  unfold Day, msPerDay in *. split; zdiv.
Qed.

(** Month starts depend on the month index only, and grow with it. *)
Lemma firstOfMonth_index y j y' j' :
  12 * y + j = 12 * y' + j' -> firstOfMonth y j = firstOfMonth y' j'.
Proof.
  intros H. unfold firstOfMonth. f_equal. rewrite !MakeDay_normal.
  replace (y' + j' / 12) with (y + j / 12) by zdiv.
  replace (j' mod 12) with (j mod 12) by zdiv. done.
Qed.

Lemma firstOfMonth_mono y j (k : nat) :
  firstOfMonth y j + 28 * msPerDay * Z.of_nat k <= firstOfMonth y (j + Z.of_nat k).
Proof.
  induction k as [|k IH].
  - replace (j + Z.of_nat 0) with j by lia. lia.
  - replace (j + Z.of_nat (S k)) with (j + Z.of_nat k + 1) by lia.
    pose proof (firstOfMonth_next y (j + Z.of_nat k)). unfold msPerDay in *. lia.
Qed.

Lemma firstOfMonth_le y j j' : j <= j' -> firstOfMonth y j <= firstOfMonth y j'.
Proof.
  intros H. pose proof (firstOfMonth_mono y j (Z.to_nat (j' - j))) as Hm.
  replace (j + Z.of_nat (Z.to_nat (j' - j))) with j' in Hm by lia.
  unfold msPerDay in *. lia.
Qed.

Lemma monthIndex_firstOfMonth y j : monthIndex (firstOfMonth y j) = 12 * y + j.
Proof.
  unfold monthIndex. rewrite YearFromTime_firstOfMonth, MonthFromTime_firstOfMonth. zdiv.
Qed.

Lemma firstOfMonth_le_monthIndex y j t :
  firstOfMonth y j <= t <-> 12 * y + j <= monthIndex t.
Proof.
  pose proof (startOfMonthOf_spec t) as [Hlo Hhi]. unfold startOfMonthOf in Hlo.
  split; intros H.
  - destruct (Z.le_gt_cases (12 * y + j) (monthIndex t)) as [|Hgt]; [done|].
    pose proof (firstOfMonth_le y (monthIndex t - 12 * y + 1) j ltac:(lia)) as Hle.
    rewrite (firstOfMonth_index y (monthIndex t - 12 * y + 1)
               (YearFromTime t) (MonthFromTime t + 1)) in Hle
      by (unfold monthIndex; lia).
    lia.
  - pose proof (firstOfMonth_le y j (monthIndex t - 12 * y) ltac:(lia)) as Hle.
    rewrite (firstOfMonth_index y (monthIndex t - 12 * y)
               (YearFromTime t) (MonthFromTime t)) in Hle
      by (unfold monthIndex; lia).
    lia.
Qed.

Lemma startOfMonthOf_firstOfMonth y j : startOfMonthOf (firstOfMonth y j) = firstOfMonth y j.
Proof.
  unfold startOfMonthOf. apply firstOfMonth_index.
  pose proof (monthIndex_firstOfMonth y j) as H. unfold monthIndex in H. lia.
Qed.

(** ** The boundaries the loops visit, in closed form *)

Lemma yearInterval_succ y k : yearInterval y (S k) = yearInterval (y + 1) k.
Proof. unfold yearInterval. by replace (y + Z.of_nat (S k)) with (y + 1 + Z.of_nat k) by lia. Qed.

Lemma monthInterval_succ y m k : monthInterval y m (S k) = monthInterval y (m + 1) k.
Proof.
  unfold monthInterval. by replace (m + Z.of_nat (S k)) with (m + 1 + Z.of_nat k) by lia.
Qed.

Lemma visits_years now ts :
  forall y, 99 <= y ->
    visits yearAfter now (TimeFromYear y) ts ->
    intervals (TimeFromYear y) ts = map (yearInterval y) (seq 0 (length ts))
    /\ Z.of_nat (length ts)
       = Z.max 0 (YearFromTime now - y + (if now =? startOfYearOf now then 0 else 1)).
Proof.
  unfold startOfYearOf.
  induction ts as [|t ts IH]; intros y Hy Hv; simpl in Hv.
  - split; [done|]. simpl.
    pose proof (YearFromTime_spec now) as [Hlo _].
    destruct (Z.eqb_spec now (TimeFromYear (YearFromTime now))) as [Heq|Hne].
    + destruct (Z.le_gt_cases (YearFromTime now) y) as [|Hgt]; [lia|].
      pose proof (TimeFromYear_lt y (YearFromTime now) Hgt). lia.
    + destruct (Z.lt_ge_cases (YearFromTime now) y) as [|Hge]; [lia|].
      destruct (Z.eq_dec (YearFromTime now) y) as [Heq|Hne']; [subst y; lia|].
      pose proof (TimeFromYear_lt y (YearFromTime now) ltac:(lia)). lia.
  - destruct Hv as (Hlt & -> & _ & _ & Hv). rewrite yearAfter_TimeFromYear in * by done.
    destruct (IH (y + 1) ltac:(lia) Hv) as [Hiv Hlen].
    split.
    + cbn [intervals length seq map]. rewrite Hiv. f_equal.
      * unfold yearInterval. by replace (y + Z.of_nat 0) with y by lia.
      * rewrite <- seq_shift, map_map. apply map_ext. intros k. by rewrite yearInterval_succ.
    + cbn [length]. rewrite Nat2Z.inj_succ, Hlen.
      assert (y <= YearFromTime now) by (apply TimeFromYear_le_YearFromTime; lia).
      destruct (Z.eqb_spec now (TimeFromYear (YearFromTime now))) as [Heq|Hne]; [|lia].
      destruct (Z.eq_dec (YearFromTime now) y) as [Hy'|]; [|lia]. rewrite Hy' in Heq. lia.
Qed.

Lemma visits_months now y ts :
  100 <= y ->
  forall j, 0 <= j ->
    visits monthAfter now (firstOfMonth y j) ts ->
    intervals (firstOfMonth y j) ts = map (monthInterval y j) (seq 0 (length ts))
    /\ Z.of_nat (length ts)
       = Z.max 0 (monthIndex now - (12 * y + j)
                  + (if now =? startOfMonthOf now then 0 else 1)).
Proof.
  intros Hy. induction ts as [|t ts IH]; intros j Hj Hv; simpl in Hv.
  - split; [done|]. simpl.
    pose proof (startOfMonthOf_spec now) as [Hlo _].
    destruct (Z.le_gt_cases (12 * y + j) (monthIndex now)) as [Hle|Hgt].
    + apply firstOfMonth_le_monthIndex in Hle.
      assert (Hnow : now = firstOfMonth y j) by lia.
      rewrite Hnow, startOfMonthOf_firstOfMonth, Z.eqb_refl, monthIndex_firstOfMonth. lia.
    + destruct (now =? startOfMonthOf now); lia.
  - destruct Hv as (Hlt & -> & _ & _ & Hv).
    rewrite monthAfter_firstOfMonth in * by zdiv.
    destruct (IH (j + 1) ltac:(lia) Hv) as [Hiv Hlen].
    split.
    + cbn [intervals length seq map]. rewrite Hiv. f_equal.
      * unfold monthInterval. by replace (j + Z.of_nat 0) with j by lia.
      * rewrite <- seq_shift, map_map. apply map_ext. intros k.
        by rewrite monthInterval_succ.
    + cbn [length]. rewrite Nat2Z.inj_succ, Hlen.
      assert (Hidx : 12 * y + j <= monthIndex now)
        by (apply firstOfMonth_le_monthIndex; lia).
      destruct (Z.eqb_spec now (startOfMonthOf now)) as [Heq|Hne]; [|lia].
      destruct (Z.eq_dec (monthIndex now) (12 * y + j)) as [Hj'|]; [|lia].
      exfalso. unfold startOfMonthOf in Heq.
      rewrite (firstOfMonth_index _ _ y j) in Heq by (unfold monthIndex in Hj'; lia). lia.
Qed.

(** ** The chunker's result in closed form *)

Lemma calculateDateRanges_year_closed now fromYear anyMonth :
  saneClock now -> 100 <= fromYear ->
  exists n,
    calculateDateRanges now "year" (Some fromYear) anyMonth
    = Ok (map (fun k => renderRange (yearInterval fromYear k)) (seq 0 n))
    /\ Z.of_nat n
       = Z.max 0 (YearFromTime now - fromYear
                  + (if now =? startOfYearOf now then 0 else 1)).
Proof.
  intros Hnow Hy.
  destruct (UTC (Some fromYear) (Some 0) (Some 1)) as [s|] eqn:Hs.
  - assert (s = TimeFromYear fromYear) as ->.
    { rewrite UTC_first in Hs. apply TimeClip_Some in Hs as [-> _].
      rewrite MakeFullYear_id by done. apply firstOfMonth_january. }
    destruct (calculateDateRanges_year now _ anyMonth _ Hnow Hs) as (ts & Hrun & Hv).
    destruct (visits_years now ts fromYear ltac:(lia) Hv) as [Hiv Hlen].
    exists (length ts). split; [|exact Hlen].
    rewrite Hrun. unfold rangesFrom. by rewrite Hiv, map_map.
  - exists 0%nat. split.
    + apply calculateDateRanges_no_start. exact Hs.
    + rewrite UTC_first, MakeFullYear_id, firstOfMonth_january in Hs by done.
      unfold TimeClip in Hs. destruct (Z.leb_spec (Z.abs (TimeFromYear fromYear)) maxTime); [done|].
      pose proof (DayFromYear_mono 100 fromYear Hy) as Hlo.
      change (DayFromYear 100) with (-683003) in Hlo.
      assert (Hfar : now < TimeFromYear fromYear).
      { unfold saneClock, TimeFromYear, msPerDay, maxTime in *.
        change (DayFromYear 275760) with 99999744 in Hnow. lia. }
      assert (~ fromYear <= YearFromTime now)
        by (rewrite <- TimeFromYear_le_YearFromTime; lia).
      destruct (now =? startOfYearOf now); lia.
Qed.

Lemma calculateDateRanges_month_closed now fromYear fromMonth :
  saneClock now -> 100 <= fromYear -> 0 <= fromMonth ->
  exists n,
    calculateDateRanges now "month" (Some fromYear) (Some fromMonth)
    = Ok (map (fun k => renderRange (monthInterval fromYear fromMonth k)) (seq 0 n))
    /\ Z.of_nat n
       = Z.max 0 (monthIndex now - (12 * fromYear + fromMonth)
                  + (if now =? startOfMonthOf now then 0 else 1)).
Proof.
  intros Hnow Hy Hm.
  destruct (UTC (Some fromYear) (Some fromMonth) (Some 1)) as [s|] eqn:Hs.
  - assert (s = firstOfMonth fromYear fromMonth) as ->.
    { rewrite UTC_first in Hs. apply TimeClip_Some in Hs as [-> _].
      by rewrite MakeFullYear_id by done. }
    destruct (calculateDateRanges_month now _ _ _ Hnow Hs) as (ts & Hrun & Hv).
    destruct (visits_months now fromYear ts Hy fromMonth Hm Hv) as [Hiv Hlen].
    exists (length ts). split; [|exact Hlen].
    rewrite Hrun. unfold rangesFrom. by rewrite Hiv, map_map.
  - exists 0%nat. split.
    + apply calculateDateRanges_no_start. exact Hs.
    + rewrite UTC_first, MakeFullYear_id in Hs by done.
      unfold TimeClip in Hs.
      destruct (Z.leb_spec (Z.abs (firstOfMonth fromYear fromMonth)) maxTime); [done|].
      pose proof (firstOfMonth_le 100 0 (12 * fromYear + fromMonth - 1200) ltac:(lia)) as Hlo.
      rewrite (firstOfMonth_index 100 (12 * fromYear + fromMonth - 1200)
                 fromYear fromMonth) in Hlo by lia.
      change (firstOfMonth 100 0) with (-59011459200000) in Hlo.
      assert (Hfar : now < firstOfMonth fromYear fromMonth).
      { unfold saneClock, TimeFromYear, msPerDay, maxTime in *.
        change (DayFromYear 275760) with 99999744 in Hnow. lia. }
      assert (~ 12 * fromYear + fromMonth <= monthIndex now)
        by (rewrite <- firstOfMonth_le_monthIndex; lia).
      destruct (now =? startOfMonthOf now); lia.
Qed.

Lemma yearInterval_length y k :
  (yearInterval y k).2 - (yearInterval y k).1 = 365 * msPerDay
  \/ (yearInterval y k).2 - (yearInterval y k).1 = 366 * msPerDay.
Proof.
  unfold yearInterval, TimeFromYear. simpl. rewrite DayFromYear_succ.
  unfold DaysInYear, msPerDay. destruct (isLeap _); lia.
Qed.

Lemma monthInterval_length y m k :
  28 * msPerDay <= (monthInterval y m k).2 - (monthInterval y m k).1 <= 31 * msPerDay.
Proof. unfold monthInterval. simpl. apply firstOfMonth_next. Qed.

(** ** The strings of the ranges are pairwise distinct *)

Lemma isoString_lt t t' : validTime t -> validTime t' -> t < t' -> isoString t <> isoString t'.
Proof. intros Ht Ht' Hlt Heq. apply isoString_inj in Heq; [lia|done..]. Qed.

Lemma visits_distinct step now ts :
  forall t, validTime t -> visits step now t ts ->
    NoDup (map from (rangesFrom t ts))
    /\ NoDup (map to (rangesFrom t ts))
    /\ Forall (fun r => from r <> to r) (rangesFrom t ts)
    /\ Forall (fun r => exists a b, r = renderRange (a, b) /\ validTime a /\ validTime b
                                   /\ t <= a /\ t < b) (rangesFrom t ts).
Proof.
  unfold rangesFrom.
  induction ts as [|t' ts IH]; intros t Ht Hv; simpl.
  - repeat split; constructor.
  - destruct Hv as (_ & _ & Hlt & Ht' & Hv).
    destruct (IH t' Ht' Hv) as (Hfrom & Hto & Hne & Hall).
    assert (Hall' : Forall (fun r => exists a b, r = renderRange (a, b) /\ validTime a
                            /\ validTime b /\ t' <= a /\ t' < b)
                      (map renderRange (intervals t' ts))) by exact Hall.
    repeat split.
    + constructor; [|done]. intros Hin. apply list_elem_of_fmap in Hin as (r & Hr & Hin).
      rewrite Forall_forall in Hall'. destruct (Hall' r Hin) as (a & b & -> & Ha & _ & Hle & _).
      simpl in Hr. apply (isoString_lt t a); [done|done|lia|done].
    + constructor; [|done]. intros Hin. apply list_elem_of_fmap in Hin as (r & Hr & Hin).
      rewrite Forall_forall in Hall'. destruct (Hall' r Hin) as (a & b & -> & _ & Hb & _ & Hlt').
      simpl in Hr. apply (isoString_lt t' b); [done|done|lia|done].
    + constructor; [|done]. simpl. by apply isoString_lt.
    + constructor.
      * exists t, t'. repeat split; try done; lia.
      * eapply Forall_impl; [exact Hall'|]. intros r (a & b & ? & ? & ? & ? & ?).
        exists a, b. repeat split; try done; lia.
Qed.

End CalendarFacts.

(** * More about the chunker's ranges *)

Section ChunkerExtras.
Import JSDate JSDateFacts ChunkerFacts CalendarFacts.

(** X1.  For a start year of 100 or later the yearly ranges are exactly the
    calendar years from the start year on, in order, each from 1 January to
    the next 1 January; there are as many as calendar years from the start
    year to the clock's year, that year included unless the clock stands
    exactly on its 1 January; [fromMonth] plays no part. *)
Theorem yearly_ranges_are_calendar_years now fromYear anyMonth :
  saneClock now -> 100 <= fromYear ->
  exists n,
    calculateDateRanges now "year" (Some fromYear) anyMonth
    = Ok (map (fun k => renderRange (yearInterval fromYear k)) (seq 0 n))
    /\ Z.of_nat n
       = Z.max 0 (YearFromTime now - fromYear
                  + (if now =? startOfYearOf now then 0 else 1)).
Proof. apply calculateDateRanges_year_closed. Qed.

(** Witness for X1: from 2023 with the clock in June 2025, three years. *)
Lemma yearly_ranges_are_calendar_years_witness :
  exists n,
    calculateDateRanges 1750000000000 "year" (Some 2023) None
    = Ok (map (fun k => renderRange (yearInterval 2023 k)) (seq 0 n))
    /\ Z.of_nat n
       = Z.max 0 (YearFromTime 1750000000000 - 2023
                  + (if 1750000000000 =? startOfYearOf 1750000000000 then 0 else 1)).
Proof.
  apply (yearly_ranges_are_calendar_years 1750000000000 2023 None).
  - unfold saneClock. vm_compute. discriminate.
  - lia.
Defined.

(** X2.  For a start year of 100 or later and a start month counted from 0
    upwards, the monthly ranges are exactly the calendar months from the
    start month on, in order, each from the first of a month to the first
    of the next; there are as many as calendar months from the start month
    to the clock's month, that month included unless the clock stands
    exactly on its first instant. *)
Theorem monthly_ranges_are_calendar_months now fromYear fromMonth :
  saneClock now -> 100 <= fromYear -> 0 <= fromMonth ->
  exists n,
    calculateDateRanges now "month" (Some fromYear) (Some fromMonth)
    = Ok (map (fun k => renderRange (monthInterval fromYear fromMonth k)) (seq 0 n))
    /\ Z.of_nat n
       = Z.max 0 (monthIndex now - (12 * fromYear + fromMonth)
                  + (if now =? startOfMonthOf now then 0 else 1)).
Proof. apply calculateDateRanges_month_closed. Qed.

(** Witness for X2: from May 2025 with the clock in June 2025, two months. *)
Lemma monthly_ranges_are_calendar_months_witness :
  exists n,
    calculateDateRanges 1750000000000 "month" (Some 2025) (Some 4)
    = Ok (map (fun k => renderRange (monthInterval 2025 4 k)) (seq 0 n))
    /\ Z.of_nat n
       = Z.max 0 (monthIndex 1750000000000 - (12 * 2025 + 4)
                  + (if 1750000000000 =? startOfMonthOf 1750000000000 then 0 else 1)).
Proof.
  apply (monthly_ranges_are_calendar_months 1750000000000 2025 4).
  - unfold saneClock. vm_compute. discriminate.
  - lia.
  - lia.
Defined.

(** X3.  For a start year of 100 or later and a start month of 0 or more,
    every monthly range spans from 28 to 31 days and every yearly range 365
    or 366 days: the chunks are whole calendar months and years, the last
    one included. *)
Theorem chunks_are_whole_months_and_years now fromYear fromMonth :
  saneClock now -> 100 <= fromYear -> 0 <= fromMonth ->
  (exists ivs,
     calculateDateRanges now "month" (Some fromYear) (Some fromMonth)
     = Ok (map renderRange ivs)
     /\ Forall (fun iv => 28 * msPerDay <= iv.2 - iv.1 <= 31 * msPerDay) ivs)
  /\ (exists ivs,
        calculateDateRanges now "year" (Some fromYear) (Some fromMonth)
        = Ok (map renderRange ivs)
        /\ Forall (fun iv => iv.2 - iv.1 = 365 * msPerDay \/ iv.2 - iv.1 = 366 * msPerDay)
             ivs).
Proof.
  intros Hnow Hy Hm. split.
  - destruct (calculateDateRanges_month_closed now fromYear fromMonth Hnow Hy Hm)
      as (n & Hrun & _).
    exists (map (monthInterval fromYear fromMonth) (seq 0 n)).
    rewrite map_map. split; [exact Hrun|].
    apply Forall_forall. intros iv (k & -> & _)%list_elem_of_fmap. apply monthInterval_length.
  - destruct (calculateDateRanges_year_closed now fromYear (Some fromMonth) Hnow Hy)
      as (n & Hrun & _).
    exists (map (yearInterval fromYear) (seq 0 n)).
    rewrite map_map. split; [exact Hrun|].
    apply Forall_forall. intros iv (k & -> & _)%list_elem_of_fmap. apply yearInterval_length.
Qed.

(** Witness for X3. *)
Lemma chunks_are_whole_months_and_years_witness :
  (exists ivs,
     calculateDateRanges 1750000000000 "month" (Some 2025) (Some 4)
     = Ok (map renderRange ivs)
     /\ Forall (fun iv => 28 * msPerDay <= iv.2 - iv.1 <= 31 * msPerDay) ivs)
  /\ (exists ivs,
        calculateDateRanges 1750000000000 "year" (Some 2025) (Some 4)
        = Ok (map renderRange ivs)
        /\ Forall (fun iv => iv.2 - iv.1 = 365 * msPerDay \/ iv.2 - iv.1 = 366 * msPerDay)
             ivs).
Proof.
  apply (chunks_are_whole_months_and_years 1750000000000 2025 4).
  - unfold saneClock. vm_compute. discriminate.
  - lia.
  - lia.
Defined.

(** X4.  Whatever is asked, no two ranges returned have the same [from], no
    two the same [to], and no range has its [from] equal to its [to]: the
    searches and queries made from them never repeat an interval. *)
Theorem ranges_never_repeat now chunk fromYear fromMonth :
  saneClock now ->
  exists ranges,
    calculateDateRanges now chunk fromYear fromMonth = Ok ranges
    /\ NoDup (map from ranges)
    /\ NoDup (map to ranges)
    /\ Forall (fun r => from r <> to r) ranges.
Proof.
  intros Hnow. destruct (startInstant chunk fromYear fromMonth) as [s|] eqn:Hs.
  - destruct (calculateDateRanges_visits now chunk fromYear fromMonth s Hnow Hs)
      as (ts & Hrun & Hv).
    assert (Hval : validTime s).
    { unfold startInstant in Hs.
      destruct (String.eqb chunk "month"); [by eapply UTC_valid|].
      destruct (String.eqb chunk "year"); [by eapply UTC_valid|done]. }
    exists (rangesFrom s ts). split; [exact Hrun|].
    destruct Hv as [Hv|Hv];
      destruct (visits_distinct _ now ts s Hval Hv) as (? & ? & ? & _); done.
  - exists []. split; [by apply calculateDateRanges_no_start|].
    repeat split; constructor.
Qed.

(** Witness for X4. *)
Lemma ranges_never_repeat_witness :
  exists ranges,
    calculateDateRanges 1750000000000 "month" (Some 2024) (Some 0) = Ok ranges
    /\ NoDup (map from ranges)
    /\ NoDup (map to ranges)
    /\ Forall (fun r => from r <> to r) ranges.
Proof.
  apply (ranges_never_repeat 1750000000000 "month" (Some 2024) (Some 0)).
  unfold saneClock. vm_compute. discriminate.
Defined.

(** X5.  The chunker validates nothing: a granularity other than ["month"]
    and ["year"], a [NaN] year, or a [NaN] month with monthly granularity
    gives the empty sequence, without an error, whatever the clock. *)
Theorem chunker_empty_without_start now chunk fromYear fromMonth :
  (chunk <> "month" /\ chunk <> "year")
  \/ fromYear = None
  \/ (chunk = "month" /\ fromMonth = None) ->
  calculateDateRanges now chunk fromYear fromMonth = Ok [].
Proof.
  intros H. apply calculateDateRanges_no_start. unfold startInstant.
  destruct (String.eqb_spec chunk "month") as [-> | Hm];
    [|destruct (String.eqb_spec chunk "year") as [-> | Hyr]].
  - destruct H as [[? _] | [-> | [_ ->]]]; [done|done|]. by destruct fromYear.
  - destruct H as [[_ ?] | [-> | [? _]]]; done.
  - done.
Qed.

(** Witness for X5. *)
Lemma chunker_empty_without_start_witness :
  calculateDateRanges 1750000000000 "week" (Some 2024) (Some 0) = Ok [].
Proof.
  apply chunker_empty_without_start. left. split; discriminate.
Defined.

End ChunkerExtras.

(** * More about the renderer *)

Module ScanFacts.
Import RendererFacts.

(** What a successful lazy match says about the text it was tried on. *)
Lemma lazyKey_spec s key :
  lazyKey s = Some key ->
  (exists rest, s = key +:+ "}}" +:+ rest)
  /\ noLineTerminator key
  /\ hasDoubleClose (key +:+ "}") = false.
Proof.
  unfold noLineTerminator.
  revert key. induction s as [|c s IH]; intros key H; [done|].
  cbn [lazyKey] in H. destruct s as [|c' s'] eqn:Hs; [done|]. rewrite <- Hs in *.
  destruct (Ascii.eqb c "}" && Ascii.eqb c' "}") eqn:Hclose.
  - injection H as <-. apply andb_prop in Hclose as [->%Ascii.eqb_eq ->%Ascii.eqb_eq].
    split; [by exists s'; rewrite Hs|]. split; [constructor|done].
  - destruct (isLineTerminator c) eqn:Hlt; [done|].
    destruct (lazyKey s) as [k|] eqn:Hk; [|done]. injection H as <-.
    destruct (IH k eq_refl) as ((rest & Hrest) & Hnl & Hdc).
    split; [exists rest; by rewrite Hrest|]. split; [by constructor|].
    rewrite string_app_cons. cbn [hasDoubleClose].
    destruct (k +:+ "}") as [|c2 s2] eqn:Hk2; [by destruct k|].
    rewrite Hdc, orb_false_r.
    assert (c2 = c') as ->.
    { rewrite Hs in Hrest. destruct k as [|ck k'].
      - injection Hk2 as <- _. by injection Hrest as ->.
      - rewrite !string_app_cons in *. injection Hk2 as <- _. by injection Hrest as ->. }
    exact Hclose.
Qed.

Lemma matchAt_spec s key :
  matchAt s = Some key ->
  (exists rest, s = "{{" +:+ key +:+ "}}" +:+ rest)
  /\ noLineTerminator key
  /\ hasDoubleClose (key +:+ "}") = false.
Proof.
  destruct s as [|c1 [|c2 s]]; try done. cbn [matchAt].
  destruct (Ascii.eqb c1 "{" && Ascii.eqb c2 "{") eqn:Hopen; [|done].
  apply andb_prop in Hopen as [->%Ascii.eqb_eq ->%Ascii.eqb_eq].
  intros (( rest & ->) & Hnl & Hdc)%lazyKey_spec. split; [by exists rest|done].
Qed.

Lemma dropString_0 s : dropString 0 s = s.
Proof. by destruct s. Qed.

Lemma dropString_app p rest : dropString (String.length p) (p +:+ rest) = rest.
Proof.
  induction p as [|c p IH]; [apply dropString_0|]. rewrite string_app_cons. exact IH.
Qed.

(** The pieces, written back, are the subject from where the search stood. *)
Lemma scanFrom_unparse s : forall skip, join (map unparse (scanFrom skip s)) = dropString skip s.
Proof.
  induction s as [|c s IH]; intros skip; [by destruct skip|].
  destruct skip as [|k]; [|exact (IH k)].
  cbn [scanFrom dropString]. destruct (matchAt (String c s)) as [key|] eqn:Hm.
  - cbn [map join unparse]. rewrite IH.
    apply matchAt_spec in Hm as ((rest & Hs) & _).
    change ("{{" +:+ key +:+ "}}" +:+ rest)
      with (String "{" ("{" +:+ key +:+ "}}" +:+ rest)) in Hs.
    injection Hs as -> ->.
    replace ("{" +:+ key +:+ "}}" +:+ rest) with (("{" +:+ key +:+ "}}") +:+ rest)
      by (by rewrite !string_app_assoc).
    replace (String.length key + 3)%nat with (String.length ("{" +:+ key +:+ "}}")).
    + rewrite dropString_app. by rewrite !string_app_assoc.
    + rewrite !JSDateFacts.string_app_length.
      change (String.length "{") with 1%nat. change (String.length "}}") with 2%nat. lia.
  - cbn [map join unparse]. rewrite IH, dropString_0. done.
Qed.

Lemma scanFrom_keys s :
  forall skip key, Placeholder key ∈ scanFrom skip s ->
    noLineTerminator key /\ hasDoubleClose (key +:+ "}") = false.
Proof.
  induction s as [|c s IH]; intros skip key Hin; [by apply elem_of_nil in Hin|].
  destruct skip as [|k]; [|exact (IH k key Hin)].
  cbn [scanFrom] in Hin. destruct (matchAt (String c s)) as [key'|] eqn:Hm.
  - apply elem_of_cons in Hin as [[= ->] | Hin]; [|by eapply IH].
    by apply matchAt_spec in Hm as (_ & ? & ?).
  - apply elem_of_cons in Hin as [? | Hin]; [done|by eapply IH].
Qed.

(** Pieces without a placeholder are rendered as they are written. *)
Lemma substitute_literals callback ps :
  (forall key, Placeholder key ∉ ps) ->
  map (substitute callback) ps = map unparse ps.
Proof.
  induction ps as [|p ps IH]; intros H; [done|]. simpl. f_equal.
  - destruct p as [c|key]; [done|]. exfalso. apply (H key). by left.
  - apply IH. intros key Hin. apply (H key). by right.
Qed.

Lemma scan_no_brace text :
  Forall (fun c => c <> "{"%char) (list_ascii_of_string text) ->
  forall key, Placeholder key ∉ scan text.
Proof.
  intros Ht key. pose proof (scan_text text "" Ht) as H.
  rewrite string_app_nil_r in H. rewrite H. change (scan "") with (@nil piece).
  rewrite app_nil_r. intros (c & [=] & _)%list_elem_of_fmap.
Qed.

End ScanFacts.

Section RendererExtras.
Import RendererFacts ScanFacts.

(** X6.  The renderer changes nothing outside the placeholders: putting
    each placeholder back as it was written gives the template back, so a
    template in which the pattern finds no placeholder (one without an
    opening brace, say) is returned unchanged, whatever the statistics. *)
Theorem text_outside_placeholders_is_kept :
  (forall subject,
     replacePlaceholders (fun key => "{{" +:+ key +:+ "}}") subject = subject)
  /\ (forall callback subject,
        (forall key, Placeholder key ∉ scan subject) ->
        replacePlaceholders callback subject = subject)
  /\ (forall fs stats template,
        fs !! templatePath = Some template ->
        Forall (fun c => c <> "{"%char) (list_ascii_of_string template) ->
        generatePopulatedTemplate fs stats = Ok template).
Proof.
  assert (Hback : forall subject, join (map unparse (scan subject)) = subject).
  { intros subject. unfold scan. rewrite scanFrom_unparse. apply dropString_0. }
  assert (Hnone : forall callback subject,
            (forall key, Placeholder key ∉ scan subject) ->
            replacePlaceholders callback subject = subject).
  { intros callback subject H. unfold replacePlaceholders.
    rewrite substitute_literals by done. apply Hback. }
  split; [|split].
  - intros subject. rewrite <- (Hback subject) at 2. unfold replacePlaceholders.
    reflexivity.
  - exact Hnone.
  - intros fs stats template Hfs Hplain. unfold generatePopulatedTemplate, readFile.
    rewrite Hfs. simpl. f_equal. apply Hnone. by apply scan_no_brace.
Qed.

(** Witness for X6: a template with braces but no placeholder. *)
Lemma text_outside_placeholders_is_kept_witness :
  replacePlaceholders (populate ∅) "a { b }} {{ c" = "a { b }} {{ c"
  /\ generatePopulatedTemplate {[ templatePath := "plain text" ]} {[ "x" := "5" ]}
     = Ok "plain text".
Proof.
  destruct text_outside_placeholders_is_kept as (_ & Hnone & Hplain). split.
  - apply Hnone. intros key Hin. vm_compute in Hin.
    repeat (apply elem_of_cons in Hin as [Hin|Hin]; [discriminate|]).
    by apply elem_of_nil in Hin.
  - apply Hplain; [vm_compute; reflexivity|].
    repeat (constructor; [discriminate|]). constructor.
Defined.

(** X7.  The dots align the values.  For a placeholder whose trimmed key
    is an entry of [stats], or names no property that objects inherit: when
    key and value fit, that is, their lengths add up to 59 or less, the key
    as written and the text put in its place are together exactly 60
    characters long; when they do not fit, the text put in place is just a
    space and the value. *)
Theorem key_and_replacement_fill_sixty stats key :
  plainLookup stats key ->
  (strlen key + strlen (default "N/A" (stats !! trim key)) <= 59 ->
   strlen key + strlen (populate stats key) = 60)
  /\ (59 <= strlen key + strlen (default "N/A" (stats !! trim key)) ->
      populate stats key = " " +:+ default "N/A" (stats !! trim key)).
Proof.
  intros Hplain. rewrite (populate_plain stats key Hplain). split; intros H.
  - rewrite !strlen_app. unfold strlen at 2. rewrite repeat_dot_length.
    change (strlen " ") with 1. lia.
  - by replace (Z.to_nat _) with 0%nat by lia.
Qed.

(** Witness for X7. *)
Lemma key_and_replacement_fill_sixty_witness :
  strlen "name" + strlen (populate {[ "name" := "Ada" ]} "name") = 60
  /\ populate ∅ (repeat_string "k" 60)
     = " " +:+ default "N/A" ((∅ : gmap string string) !! trim (repeat_string "k" 60)).
Proof.
  split.
  - apply (proj1 (key_and_replacement_fill_sixty {[ "name" := "Ada" ]} "name"
                    ltac:(left; exists "Ada"; vm_compute; reflexivity))).
    vm_compute. discriminate.
  - apply (proj2 (key_and_replacement_fill_sixty ∅ (repeat_string "k" 60)
                    ltac:(right; vm_compute; reflexivity))).
    vm_compute. discriminate.
Defined.

(** X8.  Only the statistics named by a placeholder matter: two statistics
    mappings that agree on the trimmed key of every placeholder of the
    template render it alike. *)
Theorem unused_stats_do_not_matter fs stats stats' template :
  fs !! templatePath = Some template ->
  (forall key, Placeholder key ∈ scan template -> stats !! trim key = stats' !! trim key) ->
  generatePopulatedTemplate fs stats = generatePopulatedTemplate fs stats'.
Proof.
  intros Hfs Hagree. unfold generatePopulatedTemplate, readFile. rewrite Hfs. simpl.
  f_equal. unfold replacePlaceholders. f_equal.
  induction (scan template) as [|p ps IH]; [done|]. simpl. f_equal.
  - destruct p as [c|key]; [done|]. simpl. unfold populate, lookupValue, getProperty.
    rewrite (Hagree key) by (by left). done.
  - apply IH. intros key Hin. apply Hagree. by right.
Qed.

(** Witness for X8: a statistic no placeholder names is added. *)
Lemma unused_stats_do_not_matter_witness :
  generatePopulatedTemplate {[ templatePath := "Name {{ name }}!" ]} {[ "name" := "Ada" ]}
  = generatePopulatedTemplate {[ templatePath := "Name {{ name }}!" ]}
      (<[ "email" := "ada@example.org" ]> {[ "name" := "Ada" ]}).
Proof.
  apply (unused_stats_do_not_matter _ _ _ "Name {{ name }}!").
  - vm_compute. reflexivity.
  - intros key Hin. vm_compute in Hin.
    repeat (apply elem_of_cons in Hin as [Hin|Hin];
            [first [discriminate | injection Hin as ->; vm_compute; reflexivity]|]).
    by apply elem_of_nil in Hin.
Defined.

(** X9.  A placeholder never runs over a line end and stops at the first
    pair of closing braces: no captured key contains a line terminator or
    two closing braces in a row, and none ends in a closing brace. *)
Theorem placeholders_stay_on_one_line subject key :
  Placeholder key ∈ scan subject ->
  noLineTerminator key /\ hasDoubleClose (key +:+ "}") = false.
Proof. apply scanFrom_keys. Qed.

(** Witness for X9: the braces that open before the line end are kept as
    text, and the key of the placeholder after it stops at the first [}}]. *)
Lemma placeholders_stay_on_one_line_witness :
  scan ("{{a" +:+ String LF "b}} {{c}}}") =
    [Literal "{"; Literal "{"; Literal "a"; Literal LF; Literal "b"; Literal "}";
     Literal "}"; Literal " "; Placeholder "c"; Literal "}"]
  /\ noLineTerminator "c" /\ hasDoubleClose ("c" +:+ "}") = false.
Proof.
  split; [vm_compute; reflexivity|].
  apply (placeholders_stay_on_one_line ("{{a" +:+ String LF "b}} {{c}}}") "c").
  vm_compute. do 8 right. left.
Defined.

End RendererExtras.

(** * More about the aggregators and the publisher *)

Module AggregatorFacts.
Import JSDate JSDateFacts ChunkerFacts CalendarFacts ScriptFacts.

Lemma sumZ_app l l' : sumZ (l ++ l') = sumZ l + sumZ l'.
Proof. induction l as [|x l IH]; simpl; lia. Qed.

(** The chunker returns ranges whenever the clock is sane. *)
Lemma calculateDateRanges_returns now chunk fromYear fromMonth :
  saneClock now -> exists ranges, calculateDateRanges now chunk fromYear fromMonth = Ok ranges.
Proof.
  intros Hnow. destruct (startInstant chunk fromYear fromMonth) as [s|] eqn:Hs.
  - destruct (calculateDateRanges_visits now chunk fromYear fromMonth s Hnow Hs)
      as (ts & -> & _). eauto.
  - rewrite calculateDateRanges_no_start by done. eauto.
Qed.

Section Generic.

Context {W : Type}.
Variable perform : request -> W -> reply * W.

(** ** The aggregators at a start date that can be read *)

Lemma fetchContributions_valid now tza username t :
  fetchContributions perform now tza username (Some t)
  = (yearlyDateRanges ←
       lift (calculateDateRanges now "year" (Some (YearFromTime (t + tza))) (Some 0));
     forOf yearlyDateRanges (contributionsBody perform username) (0, 0)).
Proof. reflexivity. Qed.

Lemma fetchLinesOfCode_valid now tza username t :
  fetchLinesOfCode perform now tza username (Some t)
  = (monthlyDateRanges ←
       lift (calculateDateRanges now "month" (Some (YearFromTime (t + tza)))
               (Some (MonthFromTime (t + tza))));
     forOf monthlyDateRanges (rangeBody perform username) (0, 0, 0)).
Proof. reflexivity. Qed.

(** ** The aggregators over the ranges the chunker returns *)

Lemma fetchContributions_over now tza username since ranges st :
  calculateDateRanges now "year" (getFullYear tza since) (Some 0) = Ok ranges ->
  fetchContributions perform now tza username since st
  = forOf ranges (contributionsBody perform username) (0, 0) st.
Proof. intros H. rewrite fetchContributions_unfold, bind_run. unfold lift. by rewrite H. Qed.

Lemma fetchLinesOfCode_over now tza username since ranges st :
  calculateDateRanges now "month" (getFullYear tza since) (getMonth tza since) = Ok ranges ->
  fetchLinesOfCode perform now tza username since st
  = forOf ranges (rangeBody perform username) (0, 0, 0) st.
Proof. intros H. rewrite fetchLinesOfCode_unfold, bind_run. unfold lift. by rewrite H. Qed.

(** ** Timers *)

Lemma neverSleeps_ret {A} (a : A) : neverSleeps (mret a : script W A).
Proof. by intros st. Qed.

Lemma neverSleeps_lift {A} (o : outcome A) : neverSleeps (lift o : script W A).
Proof. by intros st. Qed.

Lemma neverSleeps_throw {A} e : neverSleeps (throw e : script W A).
Proof. by intros st. Qed.

Lemma neverSleeps_await r : neverSleeps (await perform r).
Proof. intros st. unfold await. by destruct (perform r (world st)) as [[v|e] w]. Qed.

Lemma neverSleeps_bind {A B} (m : script W A) (k : A -> script W B) :
  neverSleeps m -> (forall a, neverSleeps (k a)) -> neverSleeps (m ≫= k).
Proof.
  intros Hm Hk st. rewrite bind_run. specialize (Hm st).
  destruct (m st) as [[a|e|] st1]; simpl in *; [|done..]. by rewrite Hk.
Qed.

Lemma neverSleeps_forOf {A B} (xs : list B) (body : A -> B -> script W A) acc :
  (forall a x, neverSleeps (body a x)) -> neverSleeps (forOf xs body acc).
Proof.
  intros Hbody. revert acc. induction xs as [|x xs IH]; intros acc; simpl.
  - apply neverSleeps_ret.
  - apply neverSleeps_bind; [apply Hbody|apply IH].
Qed.

Lemma neverSleeps_fetchContributions now tza username since :
  neverSleeps (fetchContributions perform now tza username since).
Proof.
  unfold fetchContributions. apply neverSleeps_bind; [apply neverSleeps_lift|].
  intros ranges. apply neverSleeps_forOf. intros [contributions calls] date.
  apply neverSleeps_bind; [apply neverSleeps_await|]. intros response.
  apply neverSleeps_bind; [|intros; apply neverSleeps_ret].
  destruct response; first [apply neverSleeps_ret|apply neverSleeps_throw].
Qed.

Lemma neverSleeps_commitPopulatedTemplate username populatedTemplate :
  neverSleeps (commitPopulatedTemplate perform username populatedTemplate).
Proof.
  unfold commitPopulatedTemplate. apply neverSleeps_bind; [apply neverSleeps_await|].
  intros readme. apply neverSleeps_bind.
  { destruct readme; first [apply neverSleeps_ret|apply neverSleeps_throw]. }
  intros sha. apply neverSleeps_bind; [apply neverSleeps_await|].
  intros _. apply neverSleeps_ret.
Qed.

(** ** The calls of [fetchLinesOfCode], one by one *)

Lemma commits_calls commits :
  forall a d c st a' d' c' st',
    forOf commits (commitBody perform) (a, d, c) st = (Ok (a', d', c'), st') ->
    exists stats,
      length stats = length commits
      /\ log st' = log st ++ zip_with detailCall commits stats
      /\ a' = a + sumZ (map fst stats)
      /\ d' = d + sumZ (map snd stats).
Proof.
  induction commits as [|commit commits IH]; intros a d c st a' d' c' st' Hrun.
  - injection Hrun as <- <- <- <-. exists []. simpl. rewrite app_nil_r. repeat split; lia.
  - rewrite forOf_cons, bind_run, commitBody_run in Hrun. cbv zeta in Hrun.
    destruct (perform _ (world st)) as [[v|e] w]; [|done].
    destruct v as [| |x y| |]; try done.
    apply IH in Hrun as (stats & Hlen & Hlog & -> & ->). simpl in Hlog.
    exists ((x, y) :: stats). simpl. rewrite Hlog, <- app_assoc, Hlen. simpl.
    repeat split; try done; lia.
Qed.

Lemma ranges_calls username ranges :
  forall a d c st a' d' c' st',
    forOf ranges (rangeBody perform username) (a, d, c) st = (Ok (a', d', c'), st') ->
    exists answers,
      length answers = length ranges
      /\ Forall answerComplete answers
      /\ log st' = log st ++ lineCalls username ranges answers
      /\ a' = a + sumZ (map fst (flat_map statsFound answers))
      /\ d' = d + sumZ (map snd (flat_map statsFound answers)).
Proof.
  induction ranges as [|date ranges IH]; intros a d c st a' d' c' st' Hrun.
  - injection Hrun as <- <- <- <-. exists []. simpl. rewrite app_nil_r.
    repeat split; try done; lia.
  - rewrite forOf_cons, bind_run, rangeBody_run in Hrun. cbv zeta in Hrun.
    destruct (perform _ (world st)) as [[v|e] w]; [|done].
    destruct v as [|pages| | |]; try done.
    destruct (forOf (concat pages) (commitBody perform) _ _) as [[[[a1 d1] c1]|e|] st1] eqn:Hin;
      [|done..].
    apply commits_calls in Hin as (stats & Hlen & Hlog1 & -> & ->).
    apply IH in Hrun as (answers & Hlen' & Hall & Hlog2 & -> & ->).
    simpl in Hlog1, Hlog2.
    exists ({| pagesFound := pages; statsFound := stats |} :: answers).
    unfold lineCalls in *. simpl.
    rewrite Hlog2, Hlog1, <- !app_assoc, !map_app, !sumZ_app, Hlen'. simpl.
    repeat split; try done; [by constructor|lia|lia].
Qed.

(** ** Completion against a service in shape *)

Lemma contributions_loop_returns username ranges :
  answersInShape perform ->
  forall acc st, exists result st',
    forOf ranges (contributionsBody perform username) acc st = (Ok result, st').
Proof.
  intros Hshape. induction ranges as [|date ranges IH]; intros [acc cnt] st.
  - by eexists _, _.
  - rewrite forOf_cons, bind_run, contributionsBody_run. cbv zeta.
    generalize (Hshape (GraphQL username (from date) (to date)) (world st)).
    destruct (perform _ (world st)) as [[v|e] w]; simpl; [|done].
    destruct v; first [done | intros _; apply IH].
Qed.

Lemma commits_loop_returns commits :
  answersInShape perform ->
  forall acc st, exists result st',
    forOf commits (commitBody perform) acc st = (Ok result, st').
Proof.
  intros Hshape. induction commits as [|commit commits IH]; intros [[a d] c] st.
  - by eexists _, _.
  - rewrite forOf_cons, bind_run, commitBody_run. cbv zeta.
    generalize (Hshape (Request ("GET " +:+ url commit)) (world st)).
    destruct (perform _ (world st)) as [[v|e] w]; simpl; [|done].
    destruct v; first [done | intros _; apply IH].
Qed.

Lemma ranges_loop_returns username ranges :
  answersInShape perform ->
  forall acc st, exists result st',
    forOf ranges (rangeBody perform username) acc st = (Ok result, st').
Proof.
  intros Hshape. induction ranges as [|date ranges IH]; intros [[a d] c] st.
  - by eexists _, _.
  - rewrite forOf_cons, bind_run, rangeBody_run. cbv zeta.
    generalize (Hshape (SearchCommits (searchQuery username date) 100) (world st)).
    destruct (perform _ (world st)) as [[v|e] w]; simpl; [|done].
    destruct v as [|pages| | |]; try done. intros _.
    edestruct (commits_loop_returns (concat pages) Hshape) as (totals & st1 & ->).
    apply IH.
Qed.

End Generic.

Lemma steadyService_in_shape pages : answersInShape (steadyService pages).
Proof. intros r w. by destruct r. Qed.

End AggregatorFacts.

Section ScriptExtras.
Import JSDate JSDateFacts ChunkerFacts CalendarFacts ScriptFacts AggregatorFacts.

(** X10.  A run of the lines-of-code aggregator that returns has made, for
    each month range in order, one commit search (author and committer-date
    range in the query, 100 a page) followed by one detail fetch for every
    commit of the pages found, in the order found, and nothing else; the
    additions and the deletions it returns are the sums of those the detail
    fetches were answered. *)
Theorem lines_calls_and_totals {W : Type} (perform : request -> W -> reply * W)
    now tza username since st additions deletions count st' :
  fetchLinesOfCode perform now tza username since st
    = (Ok (additions, deletions, count), st') ->
  exists ranges answers,
    calculateDateRanges now "month" (getFullYear tza since) (getMonth tza since) = Ok ranges
    /\ length answers = length ranges
    /\ Forall answerComplete answers
    /\ log st' = log st ++ lineCalls username ranges answers
    /\ additions = sumZ (map fst (flat_map statsFound answers))
    /\ deletions = sumZ (map snd (flat_map statsFound answers)).
Proof.
  intros Hrun. rewrite fetchLinesOfCode_unfold, bind_run in Hrun. unfold lift in Hrun.
  destruct (calculateDateRanges now "month" _ _) as [ranges|e|] eqn:Hranges; [|done..].
  apply ranges_calls in Hrun as (answers & Hlen & Hall & Hlog & -> & ->).
  exists ranges, answers. repeat split; try done; lia.
Qed.

(** Witness for X10: a start in May 2025 with the clock in June 2025; every
    search finds one page of two commits. *)
Lemma lines_calls_and_totals_witness :
  let run := fetchLinesOfCode (steadyService [mockCommits 1 2]) 1750000000000 0 "octocat"
               (Some 1747000000000) (start tt) in
  exists ranges answers,
    calculateDateRanges 1750000000000 "month" (getFullYear 0 (Some 1747000000000))
      (getMonth 0 (Some 1747000000000)) = Ok ranges
    /\ length answers = length ranges
    /\ Forall answerComplete answers
    /\ log run.2 = log (start tt) ++ lineCalls "octocat" ranges answers
    /\ 40 = sumZ (map fst (flat_map statsFound answers))
    /\ 8 = sumZ (map snd (flat_map statsFound answers)).
Proof.
  intros run.
  apply (lines_calls_and_totals (steadyService [mockCommits 1 2]) 1750000000000 0 "octocat"
           (Some 1747000000000) (start tt) 40 8 6 run.2).
  vm_compute. reflexivity.
Defined.

(** X11.  Only the lines-of-code aggregator waits, and it waits once per
    month range, not once per call: a run that returns has spent 2000 ms in
    timers for every calendar month from the month of the start date (local
    time) to the month of the clock.  The contribution aggregator and the
    publisher never wait, however they complete. *)
Theorem only_month_ranges_are_throttled {W : Type} (perform : request -> W -> reply * W)
    now tza username populatedTemplate :
  (forall t st result st',
     saneClock now -> 100 <= YearFromTime (t + tza) ->
     fetchLinesOfCode perform now tza username (Some t) st = (Ok result, st') ->
     slept st' = slept st
       + 2000 * Z.max 0 (monthIndex now - monthIndex (t + tza)
                         + (if now =? startOfMonthOf now then 0 else 1)))
  /\ (forall since, neverSleeps (fetchContributions perform now tza username since))
  /\ neverSleeps (commitPopulatedTemplate perform username populatedTemplate).
Proof.
  split; [|split].
  - intros t st [[a d] c] st' Hnow Hy Hrun.
    pose proof (MonthFromTime_spec (t + tza)) as (Hm & _).
    destruct (calculateDateRanges_month_closed now _ (MonthFromTime (t + tza)) Hnow Hy)
      as (n & Hr & Hn); [lia|].
    rewrite (fetchLinesOfCode_over perform now tza username (Some t) _ st Hr) in Hrun.
    apply ranges_loop in Hrun as (new & _ & Hsl & _).
    rewrite Hsl, length_map, length_seq. unfold monthIndex in *. lia.
  - intros since. apply neverSleeps_fetchContributions.
  - apply neverSleeps_commitPopulatedTemplate.
Qed.

(** Witness for X11: two month ranges, searches that find two commits each:
    six calls, four seconds. *)
Lemma only_month_ranges_are_throttled_witness :
  slept (fetchLinesOfCode (steadyService [mockCommits 1 2]) 1750000000000 0 "octocat"
           (Some 1747000000000) (start tt)).2
  = slept (start tt)
    + 2000 * Z.max 0 (monthIndex 1750000000000 - monthIndex (1747000000000 + 0)
                      + (if 1750000000000 =? startOfMonthOf 1750000000000 then 0 else 1)).
Proof.
  apply (proj1 (only_month_ranges_are_throttled (steadyService [mockCommits 1 2])
                  1750000000000 0 "octocat" "") 1747000000000 (start tt) (40, 8, 6)
           (fetchLinesOfCode (steadyService [mockCommits 1 2]) 1750000000000 0 "octocat"
              (Some 1747000000000) (start tt)).2).
  - unfold saneClock. vm_compute. discriminate.
  - vm_compute. discriminate.
  - vm_compute. reflexivity.
Defined.

(** X12.  A start date that cannot be read (an invalid [Date]) is no error:
    both aggregators return zero totals and a zero call count, having made
    no call and spent no time.  For a start date in the year 100 or later
    (local time) and a sane clock, the same holds for the contribution
    aggregator when the start date lies in a later calendar year than the
    clock, and for the lines-of-code aggregator when it lies in a later
    calendar month. *)
Theorem unusable_start_date_gives_zero {W : Type} (perform : request -> W -> reply * W)
    now tza username st :
  fetchContributions perform now tza username None st = (Ok (0, 0), st)
  /\ fetchLinesOfCode perform now tza username None st = (Ok (0, 0, 0), st)
  /\ (forall t,
        saneClock now -> 100 <= YearFromTime (t + tza) ->
        YearFromTime now < YearFromTime (t + tza) ->
        fetchContributions perform now tza username (Some t) st = (Ok (0, 0), st))
  /\ (forall t,
        saneClock now -> 100 <= YearFromTime (t + tza) ->
        monthIndex now < monthIndex (t + tza) ->
        fetchLinesOfCode perform now tza username (Some t) st = (Ok (0, 0, 0), st)).
Proof.
  split; [|split; [|split]].
  - rewrite fetchContributions_unfold, bind_run. unfold lift.
    by rewrite calculateDateRanges_no_start.
  - rewrite fetchLinesOfCode_unfold, bind_run. unfold lift.
    by rewrite calculateDateRanges_no_start.
  - intros t Hnow Hy Hlater. rewrite fetchContributions_valid, bind_run. unfold lift.
    destruct (calculateDateRanges_year_closed now _ (Some 0) Hnow Hy) as (n & -> & Hn).
    replace n with 0%nat; [done|]. destruct (now =? startOfYearOf now); lia.
  - intros t Hnow Hy Hlater. rewrite fetchLinesOfCode_valid, bind_run. unfold lift.
    pose proof (MonthFromTime_spec (t + tza)) as (Hm & _).
    destruct (calculateDateRanges_month_closed now _ (MonthFromTime (t + tza)) Hnow Hy)
      as (n & -> & Hn); [lia|].
    replace n with 0%nat; [done|].
    unfold monthIndex in *. destruct (now =? startOfMonthOf now); lia.
Qed.

(** Witness for X12: a start date in 2026 read in June 2025. *)
Lemma unusable_start_date_gives_zero_witness :
  fetchContributions scripted 1750000000000 0 "octocat" (Some 1780000000000)
    (start (mockTotals [3]))
  = (Ok (0, 0), start (mockTotals [3])).
Proof.
  apply (proj1 (proj2 (proj2 (unusable_start_date_gives_zero scripted 1750000000000 0
                                "octocat" (start (mockTotals [3])))))).
  - unfold saneClock. vm_compute. discriminate.
  - vm_compute. discriminate.
  - vm_compute. reflexivity.
Defined.

(** X13.  The publisher reads before it writes, writes at most once, and
    does not check what it read: it makes either the one [getReadme] call,
    when that call is rejected or its reply has no [data], and then throws;
    or the [getReadme] call and then one write to [readme.md] of the same
    repository, carrying the base64 of the template's UTF-8 bytes and the
    [sha] of the reply just read, which is [undefined] when that reply
    carries none.  It returns, with call count 2, exactly when that write is
    fulfilled. *)
Theorem publisher_writes_once_after_reading {W : Type} (perform : request -> W -> reply * W)
    username populatedTemplate st :
  let result := commitPopulatedTemplate perform username populatedTemplate st in
  let read := GetReadme username username in
  let write sha :=
    CreateOrUpdateFileContents username username "readme.md"
      "chore: update generated content" (base64 (utf8 populatedTemplate)) sha in
  (exists a, log result.2 = log st ++ [(read, a)]
             /\ (forall r, a = Fulfilled r -> hasData r = false)
             /\ exists e, result.1 = Throw e)
  \/ (exists r a,
        log result.2 = log st ++ [(read, Fulfilled r); (write (shaIn r), a)]
        /\ hasData r = true
        /\ match a with
           | Fulfilled _ => result.1 = Ok 2
           | Rejected e => result.1 = Throw e
           end).
Proof.
  cbv zeta. rewrite commitPopulatedTemplate_run. cbv zeta. unfold logged.
  destruct (perform _ (world st)) as [[v|e] w].
  - destruct (hasData v) eqn:Hdata.
    + right. destruct (perform _ w) as [[v'|e] w']; exists v; eexists; simpl;
        rewrite <- app_assoc; done.
    + left. eexists. simpl. split; [done|]. split; [|eauto].
      intros r [= <-]. exact Hdata.
  - left. eexists. simpl. split; [done|]. split; [done|]. eauto.
Qed.

(** Witness for X13: a store whose document is at version [v1]. *)
Lemma publisher_writes_once_after_reading_witness :
  let result := commitPopulatedTemplate documentStore "octocat" "hello"
                  (start {| version := "v1"; others := [] |}) in
  let read := GetReadme "octocat" "octocat" in
  let write sha :=
    CreateOrUpdateFileContents "octocat" "octocat" "readme.md"
      "chore: update generated content" (base64 (utf8 "hello")) sha in
  (exists a, log result.2 = log (start {| version := "v1"; others := [] |}) ++ [(read, a)]
             /\ (forall r, a = Fulfilled r -> hasData r = false)
             /\ exists e, result.1 = Throw e)
  \/ (exists r a,
        log result.2
        = log (start {| version := "v1"; others := [] |})
          ++ [(read, Fulfilled r); (write (shaIn r), a)]
        /\ hasData r = true
        /\ match a with
           | Fulfilled _ => result.1 = Ok 2
           | Rejected e => result.1 = Throw e
           end).
Proof.
  exact (publisher_writes_once_after_reading documentStore "octocat" "hello"
           (start {| version := "v1"; others := [] |})).
Defined.

(** A run in which nothing was read: the reply to [getReadme]
    carries no [sha], and the write is made all the same, without one. *)
Example publisher_writes_without_sha :
  let service := fun (_ : request) (w : unit) => (Fulfilled FileUpdated, w) in
  commitPopulatedTemplate service "octocat" "hello" (start tt)
  = (Ok 2,
     {| world := tt;
        log := [ (GetReadme "octocat" "octocat", Fulfilled FileUpdated);
                 (CreateOrUpdateFileContents "octocat" "octocat" "readme.md"
                    "chore: update generated content" (base64 (utf8 "hello")) None,
                  Fulfilled FileUpdated) ];
        slept := 0 |}).
Proof. vm_compute. reflexivity. Qed.

(** X14.  The contribution aggregator asks year by year from January 1 of
    the year the account was created in (local time), not from the creation
    date: a run that returns has made one query per calendar year from that
    year to the year of the clock, each for a whole calendar year in UTC,
    and returns the sum of the totals and that number of years. *)
Theorem contributions_one_query_per_calendar_year {W : Type}
    (perform : request -> W -> reply * W) now tza username t st total count st' :
  saneClock now -> 100 <= YearFromTime (t + tza) ->
  fetchContributions perform now tza username (Some t) st = (Ok (total, count), st') ->
  exists totals,
    log st' = log st
      ++ contributionQueries username
           (map (fun k => renderRange (yearInterval (YearFromTime (t + tza)) k))
              (seq 0 (length totals)))
           totals
    /\ total = sumZ totals
    /\ count = Z.of_nat (length totals)
    /\ count = Z.max 0 (YearFromTime now - YearFromTime (t + tza)
                        + (if now =? startOfYearOf now then 0 else 1)).
Proof.
  intros Hnow Hy Hrun.
  destruct (calculateDateRanges_year_closed now _ (Some 0) Hnow Hy) as (n & Hr & Hn).
  rewrite (fetchContributions_over perform now tza username (Some t) _ st Hr) in Hrun.
  apply contributions_loop in Hrun as (totals & Hlen & Hlog & -> & ->).
  rewrite length_map, length_seq in Hlen. subst n.
  exists totals. rewrite ?length_map, ?length_seq. repeat split; try done; lia.
Qed.

(** Witness for X14: an account created in March 2023, the clock in June
    2025: three queries, for 2023, 2024 and 2025. *)
Lemma contributions_one_query_per_calendar_year_witness :
  let run := fetchContributions scripted 1750000000000 0 "octocat" (Some 1680000000000)
               (start (mockTotals [3; 5; 7])) in
  exists totals,
    log run.2 = log (start (mockTotals [3; 5; 7]))
      ++ contributionQueries "octocat"
           (map (fun k => renderRange (yearInterval (YearFromTime (1680000000000 + 0)) k))
              (seq 0 (length totals)))
           totals
    /\ 15 = sumZ totals
    /\ 3 = Z.of_nat (length totals)
    /\ 3 = Z.max 0 (YearFromTime 1750000000000 - YearFromTime (1680000000000 + 0)
                    + (if 1750000000000 =? startOfYearOf 1750000000000 then 0 else 1)).
Proof.
  intros run.
  apply (contributions_one_query_per_calendar_year scripted 1750000000000 0 "octocat"
           1680000000000 (start (mockTotals [3; 5; 7])) 15 3 run.2).
  - unfold saneClock. vm_compute. discriminate.
  - vm_compute. discriminate.
  - vm_compute. reflexivity.
Defined.

(** X15.  Nothing but the service makes the scripts fail: when the clock is
    sane and every call is settled with a reply of the shape read, both
    aggregators return totals and the publisher returns 2, whatever the
    start date, the login and the template. *)
Theorem scripts_return_when_service_in_shape {W : Type} (perform : request -> W -> reply * W)
    now tza username since populatedTemplate st :
  saneClock now -> answersInShape perform ->
  (exists result st', fetchContributions perform now tza username since st = (Ok result, st'))
  /\ (exists result st', fetchLinesOfCode perform now tza username since st = (Ok result, st'))
  /\ (exists st', commitPopulatedTemplate perform username populatedTemplate st = (Ok 2, st')).
Proof.
  intros Hnow Hshape. split; [|split].
  - rewrite fetchContributions_unfold, bind_run. unfold lift.
    destruct (calculateDateRanges_returns now "year" (getFullYear tza since) (Some 0) Hnow)
      as (ranges & ->).
    by apply contributions_loop_returns.
  - rewrite fetchLinesOfCode_unfold, bind_run. unfold lift.
    destruct (calculateDateRanges_returns now "month" (getFullYear tza since)
                (getMonth tza since) Hnow) as (ranges & ->).
    by apply ranges_loop_returns.
  - rewrite commitPopulatedTemplate_run. cbv zeta.
    generalize (Hshape (GetReadme username username) (world st)).
    destruct (perform _ (world st)) as [[v|e] w]; simpl; [|done].
    destruct v as [| | |sha|]; try done. intros _. cbn [hasData shaIn].
    generalize (Hshape (CreateOrUpdateFileContents username username "readme.md"
                          "chore: update generated content"
                          (base64 (utf8 populatedTemplate)) (Some sha)) w).
    destruct (perform _ w) as [[v|e] w']; simpl; [|done]. eauto.
Qed.

(** Witness for X15. *)
Lemma scripts_return_when_service_in_shape_witness :
  exists st', commitPopulatedTemplate (steadyService []) "octocat" "hello" (start tt)
              = (Ok 2, st').
Proof.
  apply (scripts_return_when_service_in_shape (steadyService []) 1750000000000 0 "octocat"
           (Some 1680000000000) "hello" (start tt)).
  - unfold saneClock. vm_compute. discriminate.
  - intros r w. destruct r; exact I.
Defined.

End ScriptExtras.

(** * The older script's elapsed time *)

Module OlderScriptFacts.
Import JSDate JSDateFacts OlderScript.

(** The first 31 days after the epoch are January 1970. *)
Lemma epoch_month e :
  0 <= e < 31 * msPerDay ->
  YearFromTime e = 1970 /\ MonthFromTime e = 0 /\ DateFromTime e = e / msPerDay + 1.
Proof.
  intros He.
  assert (Hy : YearFromTime e = 1970).
  { unfold YearFromTime. apply YearFromDay_unique.
    change (DayFromYear 1970) with 0. change (DayFromYear (1970 + 1)) with 365.
    unfold Day, msPerDay in *. zdiv. }
  assert (Hd : DayWithinYear e = e / msPerDay).
  { unfold DayWithinYear. rewrite Hy. change (DayFromYear 1970) with 0. unfold Day. lia. }
  assert (Hm : MonthFromTime e = 0).
  { unfold MonthFromTime. rewrite Hd. cbv zeta.
    destruct (Z.ltb_spec (e / msPerDay) 31); [done|]. unfold msPerDay in *. zdiv. }
  split; [done|]. split; [done|].
  unfold DateFromTime. rewrite Hd, Hy, Hm. change (monthStart (isLeap 1970) 0) with 0. lia.
Qed.

(** The day before the epoch is December 31, 1969. *)
Lemma epoch_eve e :
  - msPerDay <= e < 0 ->
  YearFromTime e = 1969 /\ MonthFromTime e = 11 /\ DateFromTime e = 31.
Proof.
  intros He.
  assert (HD : Day e = -1) by (unfold Day, msPerDay in *; zdiv).
  assert (Hy : YearFromTime e = 1969).
  { unfold YearFromTime. rewrite HD. reflexivity. }
  assert (Hd : DayWithinYear e = 364).
  { unfold DayWithinYear. rewrite Hy, HD. reflexivity. }
  assert (Hm : MonthFromTime e = 11).
  { unfold MonthFromTime, InLeapYear. rewrite Hd, Hy. reflexivity. }
  split; [done|]. split; [done|].
  unfold DateFromTime. rewrite Hd, Hy, Hm. reflexivity.
Qed.

End OlderScriptFacts.

Section OlderScriptExtras.
Import JSDate JSDateFacts ChunkerFacts OlderScript OlderScriptFacts.

(** X16.  The older script's elapsed time counts days from one: during
    the first 31 days after the start date it reads 0 years, 0 months and one
    more than the whole days elapsed, so that on the start date itself it
    reads [0 years, 0 months, day].  A start date less than a day in the
    future reads [-1 years, 11 months, 31 days], and one that cannot be
    read gives [NaN] three times; none of these is an error. *)
Theorem older_elapsed_time_counts_days_from_one now :
  (forall s, 0 <= now - s < 31 * msPerDay ->
     calculateDate now (Some s)
     = "0 years, 0 months, " +:+ pluralize "day" (Some ((now - s) / msPerDay + 1)))
  /\ (forall s, 0 <= now - s < msPerDay ->
        calculateDate now (Some s) = "0 years, 0 months, day")
  /\ (forall s, - msPerDay <= now - s < 0 ->
        calculateDate now (Some s) = "-1 years, 11 months, 31 days")
  /\ calculateDate now None = "NaN years, NaN months, NaN days".
Proof.
  assert (Hfirst : forall s, 0 <= now - s < 31 * msPerDay ->
     calculateDate now (Some s)
     = "0 years, 0 months, " +:+ pluralize "day" (Some ((now - s) / msPerDay + 1))).
  { intros s He. unfold calculateDate. cbv zeta.
    rewrite TimeClip_valid by (unfold msPerDay, maxTime in *; lia).
    cbn [getUTCFullYear getUTCMonth getUTCDate option_map].
    destruct (epoch_month (now - s) He) as (-> & -> & ->).
    generalize (pluralize "day" (Some ((now - s) / msPerDay + 1))). intros day.
    reflexivity. }
  split; [exact Hfirst|]. split; [|split].
  - intros s He. rewrite Hfirst by (unfold msPerDay in *; lia).
    replace ((now - s) / msPerDay) with 0 by (unfold msPerDay in *; zdiv). reflexivity.
  - intros s He. unfold calculateDate. cbv zeta.
    rewrite TimeClip_valid by (unfold msPerDay, maxTime in *; lia).
    cbn [getUTCFullYear getUTCMonth getUTCDate option_map].
    destruct (epoch_eve (now - s) He) as (-> & -> & ->). reflexivity.
  - reflexivity.
Qed.

(** Witness for X16: an hour, and three days and an hour, after the start. *)
Lemma older_elapsed_time_counts_days_from_one_witness :
  calculateDate 1750000000000 (Some 1749996400000) = "0 years, 0 months, day"
  /\ calculateDate 1750000000000 (Some 1749737200000)
     = "0 years, 0 months, " +:+ pluralize "day" (Some ((1750000000000 - 1749737200000) / msPerDay + 1)).
Proof.
  split.
  - apply (proj1 (proj2 (older_elapsed_time_counts_days_from_one 1750000000000))).
    unfold msPerDay. lia.
  - apply (proj1 (older_elapsed_time_counts_days_from_one 1750000000000)).
    unfold msPerDay. lia.
Defined.

End OlderScriptExtras.

(** * Lines and range texts *)

Module LineFacts.
Import RendererFacts ScanFacts.

Lemma lineTerminator_not c x :
  isLineTerminator c = true -> isLineTerminator x = false -> Ascii.eqb c x = false.
Proof.
  intros Hc Hx. destruct (Ascii.eqb_spec c x) as [-> | Hne]; [congruence|done].
Qed.

Lemma lazyKey_step x y rest :
  lazyKey (String x (String y rest))
  = if Ascii.eqb x "}" && Ascii.eqb y "}" then Some EmptyString
    else if isLineTerminator x then None
    else option_map (String x) (lazyKey (String y rest)).
Proof. reflexivity. Qed.

(** A line end stops the lazy match as the end of the subject does. *)
Lemma lazyKey_line c b s :
  isLineTerminator c = true -> lazyKey (s +:+ String c b) = lazyKey s.
Proof.
  intros Hc.
  assert (Hclose : forall x, Ascii.eqb x "}" && Ascii.eqb c "}" = false).
  { intros x. rewrite (lineTerminator_not c "}" Hc eq_refl). apply andb_false_r. }
  assert (Hnil : lazyKey (String c b) = None).
  { cbn [lazyKey]. destruct b as [|c' b']; [done|].
    rewrite (lineTerminator_not c "}" Hc eq_refl), Hc. done. }
  induction s as [|x s IH]; [exact Hnil|].
  rewrite string_app_cons. destruct s as [|y s'].
  - change ("" +:+ String c b) with (String c b).
    rewrite lazyKey_step, Hclose, Hnil. by destruct (isLineTerminator x).
  - rewrite string_app_cons in *. rewrite !lazyKey_step.
    destruct (Ascii.eqb x "}" && Ascii.eqb y "}"); [done|].
    destruct (isLineTerminator x); [done|]. by rewrite IH.
Qed.

Lemma matchAt_line c b s :
  isLineTerminator c = true -> matchAt (s +:+ String c b) = matchAt s.
Proof.
  intros Hc. destruct s as [|c1 [|c2 rest]].
  - change ("" +:+ String c b) with (String c b). cbn [matchAt].
    destruct b as [|c2 rest]; [done|].
    by rewrite (lineTerminator_not c "{" Hc eq_refl).
  - change (String c1 "" +:+ String c b) with (String c1 (String c b)). cbn [matchAt].
    by rewrite (lineTerminator_not c "{" Hc eq_refl), andb_false_r.
  - rewrite !string_app_cons. cbn [matchAt].
    destruct (Ascii.eqb c1 "{" && Ascii.eqb c2 "{"); [|done]. by apply lazyKey_line.
Qed.

Lemma scanFrom_line c b s :
  isLineTerminator c = true ->
  forall k, (k <= String.length s)%nat ->
    scanFrom k (s +:+ String c b) = scanFrom k s ++ Literal c :: scan b.
Proof.
  intros Hc. induction s as [|x s IH]; intros k Hk.
  - assert (k = 0%nat) as -> by (simpl in Hk; lia).
    change ("" +:+ String c b) with (String c b). cbn [scanFrom].
    pose proof (matchAt_line c b "" Hc) as Hm.
    change ("" +:+ String c b) with (String c b) in Hm. rewrite Hm. done.
  - rewrite string_app_cons. destruct k as [|k].
    + cbn [scanFrom]. pose proof (matchAt_line c b (String x s) Hc) as Hm.
      rewrite string_app_cons in Hm. rewrite Hm.
      destruct (matchAt (String x s)) as [key|] eqn:Hkey.
      * rewrite IH; [done|]. apply matchAt_spec in Hkey as ((rest & Hs) & _).
        apply (f_equal String.length) in Hs.
        rewrite !JSDateFacts.string_app_length in Hs. simpl in Hs. lia.
      * rewrite IH by lia. done.
    + cbn [scanFrom]. apply IH. simpl in Hk. lia.
Qed.

End LineFacts.

Module RangeTextFacts.
Import JSDate JSDateFacts ChunkerFacts CalendarFacts.



End RangeTextFacts.


Section FurtherExtras.
Import JSDate JSDateFacts ChunkerFacts CalendarFacts RendererFacts ScanFacts.
Import LineFacts RangeTextFacts.

(** X17.  The renderer works line by line: no placeholder reaches across a
    line terminator, so a template renders as its lines rendered one by one,
    with the line terminators kept; and the helper's template file renders
    accordingly. *)
Theorem rendering_is_line_by_line callback before c after :
  isLineTerminator c = true ->
  replacePlaceholders callback (before +:+ String c after)
  = replacePlaceholders callback before +:+ String c (replacePlaceholders callback after).
Proof.
  intros Hc. unfold replacePlaceholders, scan.
  rewrite scanFrom_line by (done || lia).
  rewrite map_app, join_app. reflexivity.
Qed.

(** Witness for X17: braces opened on one line and closed on the next stay
    as they are, and the placeholder on the second line is replaced. *)
Lemma rendering_is_line_by_line_witness :
  replacePlaceholders (populate ∅) ("a {{b" +:+ String LF "c}} {{d}}")
  = replacePlaceholders (populate ∅) "a {{b"
      +:+ String LF (replacePlaceholders (populate ∅) "c}} {{d}}").
Proof. apply (rendering_is_line_by_line (populate ∅) "a {{b" LF "c}} {{d}}"). reflexivity. Defined.



End FurtherExtras.

(** * The chunker as the clock advances *)

Module ClockFacts.
Import JSDate JSDateFacts ChunkerFacts CalendarFacts.

Lemma saneClock_earlier now now' : now <= now' -> saneClock now' -> saneClock now.
Proof. unfold saneClock. lia. Qed.

Lemma YearFromTime_mono t t' : t <= t' -> YearFromTime t <= YearFromTime t'.
Proof.
  intros H. apply TimeFromYear_le_YearFromTime.
  pose proof (YearFromTime_spec t). lia.
Qed.

Lemma monthIndex_mono t t' : t <= t' -> monthIndex t <= monthIndex t'.
Proof.
  intros H. pose proof (startOfMonthOf_spec t) as [Hlo _]. unfold startOfMonthOf in Hlo.
  pose proof (proj1 (firstOfMonth_le_monthIndex (YearFromTime t) (MonthFromTime t) t')
                ltac:(lia)) as Hle.
  unfold monthIndex at 1. exact Hle.
Qed.

(** The number of ranges does not go down as the clock advances. *)
Lemma years_counted_mono now now' y :
  now <= now' ->
  Z.max 0 (YearFromTime now - y + (if now =? startOfYearOf now then 0 else 1))
  <= Z.max 0 (YearFromTime now' - y + (if now' =? startOfYearOf now' then 0 else 1)).
Proof.
  intros H. pose proof (YearFromTime_mono now now' H) as Hy.
  pose proof (YearFromTime_spec now) as [Hlo _]. unfold startOfYearOf.
  destruct (Z.eqb_spec now (TimeFromYear (YearFromTime now)));
    destruct (Z.eqb_spec now' (TimeFromYear (YearFromTime now'))); try lia.
  destruct (Z.eq_dec (YearFromTime now) (YearFromTime now')) as [Heq | Hne]; [|lia].
  rewrite Heq in *. lia.
Qed.

Lemma months_counted_mono now now' j :
  now <= now' ->
  Z.max 0 (monthIndex now - j + (if now =? startOfMonthOf now then 0 else 1))
  <= Z.max 0 (monthIndex now' - j + (if now' =? startOfMonthOf now' then 0 else 1)).
Proof.
  intros H. pose proof (monthIndex_mono now now' H) as Hm.
  pose proof (startOfMonthOf_spec now) as [Hlo _].
  destruct (Z.eqb_spec now (startOfMonthOf now));
    destruct (Z.eqb_spec now' (startOfMonthOf now')); try lia.
  destruct (Z.eq_dec (monthIndex now) (monthIndex now')) as [Heq | Hne]; [|lia].
  assert (startOfMonthOf now = startOfMonthOf now'); [|lia].
  unfold startOfMonthOf. apply firstOfMonth_index. exact Heq.
Qed.

Lemma map_seq_prefix {A} (f : nat -> A) n n' :
  (n <= n')%nat -> exists more, map f (seq 0 n') = map f (seq 0 n) ++ more.
Proof.
  intros H. exists (map f (seq n (n' - n))).
  rewrite <- map_app, <- seq_app. do 2 f_equal. lia.
Qed.

End ClockFacts.

Section ClockExtras.
Import JSDate JSDateFacts ChunkerFacts CalendarFacts ClockFacts.

(** X20.  As the clock advances the ranges only grow at the end: for a
    start year of 100 or later, what the chunker returns at a later time
    begins with all it returned at an earlier time, unchanged and in the
    same order, for monthly and for yearly ranges. *)
Theorem later_clock_only_appends now now' fromYear fromMonth :
  saneClock now' -> now <= now' -> 100 <= fromYear -> 0 <= fromMonth ->
  (exists ranges more,
     calculateDateRanges now "month" (Some fromYear) (Some fromMonth) = Ok ranges
     /\ calculateDateRanges now' "month" (Some fromYear) (Some fromMonth)
        = Ok (ranges ++ more))
  /\ (exists ranges more,
        calculateDateRanges now "year" (Some fromYear) (Some fromMonth) = Ok ranges
        /\ calculateDateRanges now' "year" (Some fromYear) (Some fromMonth)
           = Ok (ranges ++ more)).
Proof.
  intros Hnow' Hle Hy Hm. pose proof (saneClock_earlier now now' Hle Hnow') as Hnow. split.
  - destruct (calculateDateRanges_month_closed now fromYear fromMonth Hnow Hy Hm)
      as (n & -> & Hn).
    destruct (calculateDateRanges_month_closed now' fromYear fromMonth Hnow' Hy Hm)
      as (n' & -> & Hn').
    pose proof (months_counted_mono now now' (12 * fromYear + fromMonth) Hle) as Hmono.
    destruct (map_seq_prefix (fun k => renderRange (monthInterval fromYear fromMonth k)) n n')
      as (more & ->); [lia|].
    by eexists _, more.
  - destruct (calculateDateRanges_year_closed now fromYear (Some fromMonth) Hnow Hy)
      as (n & -> & Hn).
    destruct (calculateDateRanges_year_closed now' fromYear (Some fromMonth) Hnow' Hy)
      as (n' & -> & Hn').
    pose proof (years_counted_mono now now' fromYear Hle) as Hmono.
    destruct (map_seq_prefix (fun k => renderRange (yearInterval fromYear k)) n n')
      as (more & ->); [lia|].
    by eexists _, more.
Qed.

(** Witness for X20: the clock in June 2025 and then in September 2025. *)
Lemma later_clock_only_appends_witness :
  (exists ranges more,
     calculateDateRanges 1750000000000 "month" (Some 2025) (Some 4) = Ok ranges
     /\ calculateDateRanges 1758000000000 "month" (Some 2025) (Some 4)
        = Ok (ranges ++ more))
  /\ (exists ranges more,
        calculateDateRanges 1750000000000 "year" (Some 2025) (Some 4) = Ok ranges
        /\ calculateDateRanges 1758000000000 "year" (Some 2025) (Some 4)
           = Ok (ranges ++ more)).
Proof.
  apply (later_clock_only_appends 1750000000000 1758000000000 2025 4).
  - unfold saneClock. vm_compute. discriminate.
  - lia.
  - lia.
  - lia.
Defined.

End ClockExtras.
